(** * data_radar_dolma_wrapper: a shallow embedding of the download,
    normalisation and PII-masking pipeline, and the properties of it.

    The development follows the source modules:
    - [processing.py]: [normalize_text], [stable_id], [_merge_spans],
      [mask_spans], [DolmaToolkitPIIMasker];
    - [downloader.py]: [apply_limit], [save_jsonl_local],
      [upload_jsonl_to_s3], [save_records], [_build_run_metadata],
      [_build_doc], [ProcessingPipeline.process_doc], [process_stream], and
      the first statements of [run_download], whose overrides assign in
      place in the configuration that [yaml.safe_load] returns;
    - [vendor_dolma.py]: [ensure_vendor_dolma_on_path];
    - [cli.py] and [scripts/download.py]: the overrides of the command line.

    Python values are dynamically typed, so configuration trees and upstream
    records are embedded as a small universe of values ([value]); a Python
    [str] is the list of its code points; a [float] is a binary64 number;
    exceptions are explicit results. The file system and the object store
    are a class of their own: a write or an upload returns or raises. *)

From Stdlib Require Import ZArith NArith String Ascii DecimalString QArith Qround.
From Stdlib Require Import Floats.SpecFloat.
From stdpp Require Import gmap strings list sorting.

#[local] Set Warnings "-register-all".
#[local] Open Scope Z_scope.

(** ** Python values *)

(** A Python [str]: the sequence of its Unicode code points. *)
Abbreviation str := (list N).

(** An ASCII literal of the source, as a [str]. *)
Definition py (s : string) : str :=
  (λ a, N_of_ascii a) <$> list_ascii_of_string s.

(** A Python [float]: a binary64 number of IEEE 754, with the arithmetic
    of the standard (round to nearest, ties to even). *)
Abbreviation float := spec_float.

#[global] Instance float_eq_dec : EqDecision float.
Proof. solve_decision. Defined.

#[global] Instance float_countable : Countable float.
Proof.
  refine (inj_countable'
            (λ x, match x with
                  | S754_zero s => inl (inl s)
                  | S754_infinity s => inl (inr s)
                  | S754_nan => inr (inl ())
                  | S754_finite s m e => inr (inr (s, m, e))
                  end)
            (λ y, match y with
                  | inl (inl s) => S754_zero s
                  | inl (inr s) => S754_infinity s
                  | inr (inl _) => S754_nan
                  | inr (inr (s, m, e)) => S754_finite s m e
                  end) _).
  by intros [].
Defined.

Definition float_mul : float → float → float := SFmul 53 1024.
Definition float_div : float → float → float := SFdiv 53 1024.

(** The [float] nearest to the integer [z]. *)
Definition float_of_int (z : Z) : float := binary_normalize 53 1024 z 0 false.

(** The integer a [float] equals, when it equals one. *)
Definition float_integral (x : float) : option Z :=
  match x with
  | S754_zero _ => Some 0
  | S754_finite s m e =>
      if 0 <=? e then Some ((if s then -1 else 1) * (Z.pos m * 2 ^ e))
      else if Z.pos m mod 2 ^ (- e) =? 0
           then Some ((if s then -1 else 1) * (Z.pos m / 2 ^ (- e)))
           else None
  | _ => None
  end.

(** The values a YAML configuration or an upstream record can hold. A
    [dict] is keyed by [str]. *)
Inductive value :=
| VNone
| VBool (b : bool)
| VInt (z : Z)
| VFloat (x : float)
| VStr (s : str)
| VList (l : list value)
| VDict (d : gmap str value).

Abbreviation dict := (gmap str value).

(** Exception classes. [NonException] stands for the [BaseException]
    subclasses that [except Exception] does not catch. *)
Inductive exn_class :=
| ValueError
| KeyError
| TypeError
| AttributeError
| OverflowError
| OtherException (name : string)
| NonException (name : string).

(** A raised exception: its class and [str(e)]. *)
Record exn := Raise { exn_cls : exn_class; exn_str : str }.

Definition isinstance_Exception (e : exn) : bool :=
  match exn_cls e with
  | NonException _ => false
  | _ => true
  end.

(** The outcome of a call: a returned value or a raised exception. *)
Inductive result (A : Type) :=
| Ok (a : A)
| Err (e : exn).
Arguments Ok {A} a.
Arguments Err {A} e.

#[global] Instance result_ret : MRet result := λ A a, Ok a.
#[global] Instance result_bind : MBind result := λ A B f m,
  match m with
  | Ok a => f a
  | Err e => Err e
  end.

(** [bool(v)]: Python truthiness. *)
Definition truthy (v : value) : bool :=
  match v with
  | VNone => false
  | VBool b => b
  | VInt z => negb (z =? 0)
  | VFloat x => match x with S754_zero _ => false | _ => true end
  | VStr s => negb (bool_decide (s = []))
  | VList l => match l with [] => false | _ => true end
  | VDict d => negb (bool_decide (d = ∅))
  end.

(** [a or b]. *)
Definition py_or (a b : value) : value := if truthy a then a else b.

(** [type(v).__name__]. *)
Definition type_name (v : value) : str :=
  match v with
  | VNone => py "NoneType"
  | VBool _ => py "bool"
  | VInt _ => py "int"
  | VFloat _ => py "float"
  | VStr _ => py "str"
  | VList _ => py "list"
  | VDict _ => py "dict"
  end.

(** [str(z)] for an [int]. *)
Definition str_of_int (z : Z) : str :=
  py (NilEmpty.string_of_int (Z.to_int z)).

(** [v == s] for a [str] literal [s]. *)
Definition eq_str (v : value) (s : str) : bool :=
  match v with
  | VStr t => bool_decide (t = s)
  | _ => false
  end.

(** [d.get(k, dflt)] on a [dict] with a [str] key. *)
Definition dict_get (d : dict) (k : str) (dflt : value) : value :=
  default dflt (d !! k).

(** [v.get(k, dflt)] on an arbitrary value: only a [dict] has the method. *)
Definition method_get (v : value) (k : str) (dflt : value) : result value :=
  match v with
  | VDict d => Ok (dict_get d k dflt)
  | _ => Err (Raise AttributeError
                (py "'" ++ type_name v ++ py "' object has no attribute 'get'"))
  end.

(** [v[k]] with a [str] literal [k]. *)
Definition getitem (v : value) (k : str) : result value :=
  match v with
  | VDict d =>
      match d !! k with
      | Some x => Ok x
      | None => Err (Raise KeyError (py "'" ++ k ++ py "'"))
      end
  | VStr _ => Err (Raise TypeError (py "string indices must be integers, not 'str'"))
  | VList _ => Err (Raise TypeError (py "list indices must be integers or slices, not str"))
  | _ => Err (Raise TypeError
                (py "'" ++ type_name v ++ py "' object is not subscriptable"))
  end.

(** [d.get(k, dflt)] where the key [k] is itself a configured value: a
    hashable key that is not a [str] is never found in a record (whose keys
    are strings), an unhashable one is refused. *)
Definition dict_get_value (d : dict) (k : value) (dflt : value) : result value :=
  match k with
  | VStr s => Ok (dict_get d s dflt)
  | VList _ | VDict _ =>
      Err (Raise TypeError (py "unhashable type: '" ++ type_name k ++ py "'"))
  | _ => Ok dflt
  end.

(** Python's slice [t[lo:hi]] (step 1): a negative bound counts from the
    end, and both bounds are clamped to the sequence. *)
Definition slice_bound (len i : Z) : Z :=
  if i <? 0 then Z.max 0 (i + len) else Z.min i len.

Definition slice {A} (t : list A) (lo : Z) (hi : option Z) : list A :=
  let len := Z.of_nat (length t) in
  let a := slice_bound len lo in
  let b := match hi with Some h => slice_bound len h | None => len end in
  take (Z.to_nat (b - a)) (drop (Z.to_nat a) t).

(** ["".join(items)]: the first item that is not a [str] raises. *)
Fixpoint str_join_from (i : nat) (items : list value) : result str :=
  match items with
  | [] => Ok []
  | VStr s :: rest => r ← str_join_from (S i) rest; Ok (s ++ r)
  | v :: _ =>
      Err (Raise TypeError
             (py "sequence item " ++ str_of_int (Z.of_nat i)
              ++ py ": expected str instance, " ++ type_name v ++ py " found"))
  end.

Definition str_join (items : list value) : result str := str_join_from 0 items.

(** ** The libraries the program calls

    The Unicode tables, the [repr] of containers and the Dolma tagger
    registry are not code of this repository: they are the parameters of the
    embedding. *)

(** What [find_pii_spans] hands to a tagger ([created], [added] and
    [version] carry no information of the document). *)
Record InputSpec := { spec_id : str; spec_text : str; spec_source : str }.

(** A tagger's output: category name to [(start, end, score)] triples, in
    the order of the mapping. *)
Abbreviation tag_output := (list (str * list (Z * Z * Q))).

Class Externals := {
  (** [unicodedata.normalize(form, text)]; raises on an unknown form. *)
  unicodedata_normalize : str → str → result str;
  (** [str(v)] of a list or a dict. *)
  container_repr : value → str;
  (** [str(x)] of a [float]: the shortest decimal text that reads back as
      [x]. *)
  float_repr : float → str;
  (** [TaggerRegistry.get(name)()], with the import of [dolma] before it:
      the [tag] method of the new tagger, or the exception raised. *)
  TaggerRegistry_new : value → result (InputSpec → result tag_output);
}.

(** [str(v)]. *)
Definition py_str `{Externals} (v : value) : str :=
  match v with
  | VNone => py "None"
  | VBool true => py "True"
  | VBool false => py "False"
  | VInt z => str_of_int z
  | VFloat x => float_repr x
  | VStr s => s
  | VList _ | VDict _ => container_repr v
  end.

(** ** processing.py *)

(** The characters [str.isspace] accepts; the class [\s] of [re] on a [str]
    pattern and the no-argument [str.strip] use the same set. *)
Definition isspace (c : N) : bool :=
  ((9 <=? c) && (c <=? 13) || (28 <=? c) && (c <=? 32)
   || (c =? 133) || (c =? 160) || (c =? 5760)
   || (8192 <=? c) && (c <=? 8202)
   || (c =? 8232) || (c =? 8233) || (c =? 8239) || (c =? 8287)
   || (c =? 12288))%N.

(** [_WS_RE.sub(" ", t)] with [_WS_RE = re.compile(r"\s+")]: every maximal
    run of whitespace becomes one space. A whitespace character followed by
    another one is dropped, the last of a run is replaced. *)
Fixpoint ws_sub (t : str) : str :=
  match t with
  | [] => []
  | c :: rest =>
      if isspace c then
        match rest with
        | c' :: _ => if isspace c' then ws_sub rest else 32%N :: ws_sub rest
        | [] => [32%N]
        end
      else c :: ws_sub rest
  end.

(** [t.lstrip()], [t.rstrip()] and [t.strip()]. *)
Fixpoint lstrip (t : str) : str :=
  match t with
  | c :: rest => if isspace c then lstrip rest else t
  | [] => []
  end.

Definition rstrip (t : str) : str := reverse (lstrip (reverse t)).

Definition strip (t : str) : str := rstrip (lstrip t).

(** The test [form.lower() != "none"] looks at ASCII letters only: no other
    code point has [n], [o] or [e] in its lower-case mapping. *)
Definition ascii_lower (c : N) : N :=
  if ((65 <=? c) && (c <=? 90))%N then (c + 32)%N else c.

Definition lower_is_none (form : str) : bool :=
  bool_decide (ascii_lower <$> form = py "none").

(** The first statement of [normalize_text]: the Unicode normalisation,
    skipped for a falsy form and for ["none"] in any case. A truthy form
    that is not a [str] has no [lower] method. *)
Definition unicode_step `{Externals} (unicode_form : value) (t : str) : result str :=
  if truthy unicode_form then
    match unicode_form with
    | VStr form =>
        if lower_is_none form then Ok t else unicodedata_normalize form t
    | _ => Err (Raise AttributeError
                  (py "'" ++ type_name unicode_form
                   ++ py "' object has no attribute 'lower'"))
    end
  else Ok t.

(** [t.replace("\x00", "")]. *)
Definition remove_nul (t : str) : str := filter (λ c, c ≠ 0%N) t.

(** [normalize_text(text, unicode_form=..., collapse_whitespace=...)]. The
    text is a [str] or [None]; the two keyword arguments are whatever the
    configuration holds. *)
Definition normalize_text `{Externals}
    (text : option str) (unicode_form : value) (collapse_whitespace : value)
    : result str :=
  match text with
  | None => Ok []
  | Some t =>
      t1 ← unicode_step unicode_form t;
      let t2 := remove_nul t1 in
      Ok (if truthy collapse_whitespace then strip (ws_sub t2) else t2)
  end.

(** [p.encode("utf-8", errors="ignore")]: a lone surrogate is dropped. *)
Definition utf8_char (c : N) : list N :=
  (if c <? 128 then [c]
   else if c <? 2048 then [192 + c / 64; 128 + c mod 64]
   else if (55296 <=? c) && (c <=? 57343) then []
   else if c <? 65536 then
     [224 + c / 4096; 128 + (c / 64) mod 64; 128 + c mod 64]
   else
     [240 + c / 262144; 128 + (c / 4096) mod 64; 128 + (c / 64) mod 64;
      128 + c mod 64])%N.

Definition utf8_encode (t : str) : list N := t ≫= utf8_char.

(** The bytes [stable_id] feeds to the hash: each part that is not [None],
    encoded, followed by a NUL byte. *)
Fixpoint stable_id_bytes (parts : list (option str)) : list N :=
  match parts with
  | [] => []
  | None :: rest => stable_id_bytes rest
  | Some p :: rest => utf8_encode p ++ [0%N] ++ stable_id_bytes rest
  end.

(** [hashlib.sha1]: SHA-1 (FIPS 180-4) on 32-bit words held in [Z]. *)
Definition w32 (x : Z) : Z := x mod 2 ^ 32.

Definition rotl (n x : Z) : Z :=
  w32 (Z.lor (Z.shiftl x n) (Z.shiftr x (32 - n))).

(** The [n] low bytes of [x], most significant first. *)
Fixpoint be_bytes (n : nat) (x : Z) : list Z :=
  match n with
  | O => []
  | S m => (Z.shiftr x (8 * Z.of_nat m)) mod 256 :: be_bytes m x
  end.

Definition sha1_pad (msg : list Z) : list Z :=
  let len := Z.of_nat (length msg) in
  msg ++ [128] ++ replicate (Z.to_nat ((55 - len) mod 64)) 0 ++ be_bytes 8 (8 * len).

Fixpoint be_words (fuel : nat) (bs : list Z) : list Z :=
  match fuel, bs with
  | S f, b0 :: b1 :: b2 :: b3 :: rest =>
      (b0 * 16777216 + b1 * 65536 + b2 * 256 + b3) :: be_words f rest
  | _, _ => []
  end.

(** The message schedule, latest word first. *)
Fixpoint sha1_schedule (n : nat) (rev_w : list Z) : list Z :=
  match n with
  | O => rev_w
  | S m =>
      let x i := nth i rev_w 0 in
      sha1_schedule m
        (rotl 1 (Z.lxor (Z.lxor (x 2%nat) (x 7%nat)) (Z.lxor (x 13%nat) (x 15%nat)))
         :: rev_w)
  end.

Definition sha1_f (i : nat) (b c d : Z) : Z :=
  if (i <? 20)%nat then Z.lor (Z.land b c) (Z.land (Z.lxor b 4294967295) d)
  else if (i <? 40)%nat then Z.lxor (Z.lxor b c) d
  else if (i <? 60)%nat then Z.lor (Z.lor (Z.land b c) (Z.land b d)) (Z.land c d)
  else Z.lxor (Z.lxor b c) d.

Definition sha1_k (i : nat) : Z :=
  if (i <? 20)%nat then 1518500249
  else if (i <? 40)%nat then 1859775393
  else if (i <? 60)%nat then 2400959708
  else 3395469782.

Definition sha1_round (i : nat) (s : Z * Z * Z * Z * Z) (w : Z) : Z * Z * Z * Z * Z :=
  let '(a, b, c, d, e) := s in
  (w32 (rotl 5 a + sha1_f i b c d + e + sha1_k i + w), a, rotl 30 b, c, d).

Fixpoint sha1_rounds (i : nat) (ws : list Z) (s : Z * Z * Z * Z * Z) : Z * Z * Z * Z * Z :=
  match ws with
  | [] => s
  | w :: rest => sha1_rounds (S i) rest (sha1_round i s w)
  end.

Definition sha1_block (h : Z * Z * Z * Z * Z) (block : list Z) : Z * Z * Z * Z * Z :=
  let ws := reverse (sha1_schedule 64 (reverse (be_words 16 block))) in
  let '(h0, h1, h2, h3, h4) := h in
  let '(a, b, c, d, e) := sha1_rounds 0 ws h in
  (w32 (h0 + a), w32 (h1 + b), w32 (h2 + c), w32 (h3 + d), w32 (h4 + e)).

Fixpoint sha1_blocks (fuel : nat) (h : Z * Z * Z * Z * Z) (bs : list Z) : Z * Z * Z * Z * Z :=
  match fuel, bs with
  | S f, _ :: _ => sha1_blocks f (sha1_block h (take 64 bs)) (drop 64 bs)
  | _, _ => h
  end.

Definition hex_digit (x : Z) : N :=
  Z.to_N (if x <? 10 then 48 + x else 87 + x).

Fixpoint hex_word (n : nat) (x : Z) : str :=
  match n with
  | O => []
  | S m => hex_digit ((Z.shiftr x (4 * Z.of_nat m)) mod 16) :: hex_word m x
  end.

(** [hashlib.sha1(bytes).hexdigest()]. *)
Definition sha1_hexdigest (bytes : list N) : str :=
  let padded := sha1_pad (Z.of_N <$> bytes) in
  let '(a, b, c, d, e) :=
    sha1_blocks (length padded)
      (1732584193, 4023233417, 2562383102, 271733878, 3285377520) padded in
  hex_word 8 a ++ hex_word 8 b ++ hex_word 8 c ++ hex_word 8 d ++ hex_word 8 e.

(** [stable_id] applied to the parts given, in order. *)
Definition stable_id (parts : list (option str)) : str :=
  sha1_hexdigest (stable_id_bytes parts).

(** The sort key [(x[0], x[1])]: the lexicographic order of pairs. *)
Definition span_le (x y : Z * Z) : Prop :=
  x.1 < y.1 ∨ (x.1 = y.1 ∧ x.2 ≤ y.2).

#[global] Instance span_le_dec : RelDecision span_le.
Proof. intros x y. unfold span_le. apply _. Defined.

(** One turn of the loop of [_merge_spans] on the list [merged]. *)
Definition merge_step (merged : list (Z * Z)) (x : Z * Z) : list (Z * Z) :=
  let '(s, e) := x in
  if e <=? s then merged
  else
    match last merged with
    | None => merged ++ [(s, e)]
    | Some (ls, le) =>
        if le <? s then merged ++ [(s, e)]
        else <[pred (length merged) := (ls, Z.max le e)]> merged
    end.

Definition _merge_spans (spans : list (Z * Z)) : list (Z * Z) :=
  foldl merge_step [] (merge_sort span_le spans).

(** The loop of [mask_spans]: the pieces collected so far and the cursor. *)
Fixpoint mask_loop (t : str) (mask_token : value) (merged : list (Z * Z))
    (out : list value) (cur : Z) : list value * Z :=
  match merged with
  | [] => (out, cur)
  | (s, e) :: rest =>
      let out1 := if cur <? s then out ++ [VStr (slice t cur (Some s))] else out in
      mask_loop t mask_token rest (out1 ++ [mask_token]) e
  end.

(** [mask_spans(text, spans, mask_token=...)]. The token is what the
    configuration holds; the join refuses one that is not a [str]. *)
Definition mask_spans (t : str) (spans : list (Z * Z)) (mask_token : value)
    : result str :=
  match _merge_spans spans with
  | [] => Ok t
  | merged =>
      let '(out, cur) := mask_loop t mask_token merged [] 0 in
      str_join (if cur <? Z.of_nat (length t)
                then out ++ [VStr (slice t cur None)] else out)
  end.

(** A [DolmaToolkitPIIMasker]: its tagger name and its tagger. *)
Record DolmaToolkitPIIMasker := {
  tagger_name : value;
  tagger_tag : InputSpec → result tag_output;
}.

(** [DolmaToolkitPIIMasker(tagger_name=name)]. *)
Definition new_DolmaToolkitPIIMasker `{Externals} (name : value)
    : result DolmaToolkitPIIMasker :=
  tag ← TaggerRegistry_new name;
  Ok {| tagger_name := name; tagger_tag := tag |}.

(** The two nested loops of [find_pii_spans]: the spans of all categories,
    in order, without category and score. *)
Definition flatten_tags (tag_out : tag_output) : list (Z * Z) :=
  concat ((λ cat : str * list (Z * Z * Q),
             (λ v : Z * Z * Q, (v.1.1, v.1.2)) <$> cat.2) <$> tag_out).

(** [masker.find_pii_spans(doc_id=..., text=..., source=...)]. *)
Definition find_pii_spans (masker : DolmaToolkitPIIMasker)
    (doc_id t source : str) : result (list (Z * Z)) :=
  match tagger_tag masker
          {| spec_id := doc_id; spec_text := t; spec_source := source |} with
  | Ok tag_out => Ok (flatten_tags tag_out)
  | Err e => Err e
  end.

(** ** downloader.py *)

(** [sys.maxsize] of a 64-bit build. *)
Definition sys_maxsize : Z := 2 ^ 63 - 1.

(** The two errors of [islice]: for a stop that is -1 or cannot be
    converted to a machine integer, and for one below -1 that can. *)
Definition islice_error : exn :=
  Raise ValueError
    (py "Stop argument for islice() must be None or an integer: 0 <= x <= sys.maxsize.").

Definition islice_indices_error : exn :=
  Raise ValueError
    (py "Indices for islice() must be None or an integer: 0 <= x <= sys.maxsize.").

(** [itertools.islice(dataset, stop)] over the items of a stream. *)
Definition islice {A} (dataset : list A) (stop : value) : result (list A) :=
  match stop with
  | VNone => Ok dataset
  | VInt n =>
      if bool_decide (0 ≤ n ≤ sys_maxsize) then Ok (take (Z.to_nat n) dataset)
      else if bool_decide (- sys_maxsize - 1 ≤ n < -1) then Err islice_indices_error
      else Err islice_error
  | VBool b => Ok (take (if b then 1%nat else 0%nat) dataset)
  | _ => Err islice_error
  end.

(** The [float] nearest to the integer [n] (binary64, ties to even), as
    the integer it denotes; [None] beyond the finite range. *)
Definition round_to_double (n : Z) : option Z :=
  let a := Z.abs n in
  let k := Z.log2 a - 52 in
  if k <=? 0 then Some n
  else
    let q := Z.shiftr a k in
    let r := a - Z.shiftl q k in
    let half := Z.shiftl 1 (k - 1) in
    let q' := if (half <? r) || ((r =? half) && Z.odd q) then q + 1 else q in
    let v := Z.shiftl q' k in
    if 2 ^ 1024 <=? v then None else Some (Z.sgn n * v).

(** [int(x)] for a [float]: the integer part, towards zero. *)
Definition int_of_float (x : float) : result Z :=
  match x with
  | S754_zero _ => Ok 0
  | S754_finite s m e =>
      let a := if 0 <=? e then Z.pos m * 2 ^ e else Z.pos m / 2 ^ (- e) in
      Ok (if s then - a else a)
  | S754_infinity _ =>
      Err (Raise OverflowError (py "cannot convert float infinity to integer"))
  | S754_nan =>
      Err (Raise ValueError (py "cannot convert float NaN to integer"))
  end.

(** [int(10000 * percent / 100)]. For an [int] the product is exact and the
    true division returns the [float] nearest to the quotient, which is the
    integer [100 * percent]; [int] of that float is exact. For a [float] the
    product and the quotient are each rounded to a [float]. *)
Definition percent_items (percent : value) : result Z :=
  let of_int (p : Z) :=
    match round_to_double (10000 * p / 100) with
    | Some n => Ok n
    | None => Err (Raise OverflowError
                     (py "integer division result too large for a float"))
    end in
  match percent with
  | VInt p => of_int p
  | VBool b => of_int (if b then 1 else 0)
  | VFloat x =>
      int_of_float (float_div (float_mul (float_of_int 10000) x) (float_of_int 100))
  | VStr _ | VList _ =>
      Err (Raise TypeError
             (py "unsupported operand type(s) for /: '" ++ type_name percent
              ++ py "' and 'int'"))
  | VNone | VDict _ =>
      Err (Raise TypeError
             (py "unsupported operand type(s) for *: 'int' and '"
              ++ type_name percent ++ py "'"))
  end.

(** [apply_limit(dataset, limit_cfg, mode)]. *)
Definition apply_limit `{Externals} {A}
    (dataset : list A) (limit_cfg : value) (mode : value) : result (list A) :=
  if eq_str mode (py "full") then Ok dataset
  else
    ty ← getitem limit_cfg (py "type");
    if eq_str ty (py "none") then Ok dataset
    else if eq_str ty (py "rows") then
      v ← getitem limit_cfg (py "value");
      islice dataset v
    else if eq_str ty (py "percent") then
      percent ← getitem limit_cfg (py "value");
      n ← percent_items percent;
      islice dataset (VInt n)
    else Err (Raise ValueError (py "Unknown limit type: " ++ py_str ty)).

(** The metadata of a document is either the one dictionary that
    [process_stream] builds and hands to every [_build_doc] call (all such
    documents share the object), or a dictionary of the document's own. *)
Inductive md_ref :=
| MdShared
| MdOwn (m : dict).

(** A document record: the dictionary with the seven keys [id], [text],
    [source], [created], [added], [version] and [metadata]. *)
Record doc := Doc {
  doc_id : str;
  doc_text : str;
  doc_source : str;
  doc_created : value;
  doc_added : value;
  doc_version : value;
  doc_metadata : md_ref;
}.

Definition with_text (d : doc) (t : str) : doc :=
  Doc (doc_id d) t (doc_source d) (doc_created d) (doc_added d)
    (doc_version d) (doc_metadata d).

Definition with_metadata (d : doc) (m : md_ref) : doc :=
  Doc (doc_id d) (doc_text d) (doc_source d) (doc_created d) (doc_added d)
    (doc_version d) m.

(** The content of a document's metadata, [extra_md] being the content of
    the shared dictionary. *)
Definition metadata_of (extra_md : dict) (d : doc) : dict :=
  match doc_metadata d with
  | MdShared => extra_md
  | MdOwn m => m
  end.

(** [md = doc.setdefault("metadata", {}); md[k] = v]. *)
Definition set_metadata (k : str) (v : value) (extra_md : dict) (d : doc)
    : dict * doc :=
  match doc_metadata d with
  | MdShared => (<[k := v]> extra_md, d)
  | MdOwn m => (extra_md, with_metadata d (MdOwn (<[k := v]> m)))
  end.

(** What a sink receives: the document with the content its metadata has
    when the shard is written. *)
Definition snapshot (extra_md : dict) (d : doc) : doc :=
  with_metadata d (MdOwn (metadata_of extra_md d)).

(** What the two sinks have received: a call of [save_jsonl_local] or of
    [upload_jsonl_to_s3] that has returned. *)
Inductive sink_event :=
| LocalFile (filepath : str) (records : list doc)
| S3Object (bucket : value) (key : str) (records : list doc).

(** The file system and the object store. A call of a sink returns or
    raises: an [OSError] of the file system, a [UnicodeEncodeError] for a
    text that UTF-8 cannot encode, a [TypeError] of [json.dumps], the error
    of the upload. The two functions give the exception of a call, if it
    raises one. *)
Class Sinks := {
  save_jsonl_local_raises : list doc → str → option exn;
  upload_jsonl_to_s3_raises : list doc → value → str → option exn;
}.

(** [save_records(records, mode, local_path, bucket, s3_key)]: what the
    sinks have received when the call ends, and whether it returns or
    raises. The local file is written first; when that raises, the upload
    is not tried. *)
Definition save_records `{Sinks} (records : list doc) (mode : value)
    (local_path : str) (bucket : value) (s3_key : str)
    : list sink_event * result () :=
  let '(written, r) :=
    if eq_str mode (py "local") || eq_str mode (py "both") then
      match save_jsonl_local_raises records local_path with
      | None => ([LocalFile local_path records], Ok ())
      | Some e => ([], Err e)
      end
    else ([], Ok ()) in
  match r with
  | Err e => (written, Err e)
  | Ok _ =>
      if eq_str mode (py "s3") || eq_str mode (py "both") then
        match upload_jsonl_to_s3_raises records bucket s3_key with
        | None => (written ++ [S3Object bucket s3_key records], Ok ())
        | Some e => (written, Err e)
        end
      else (written, Ok ())
  end.

(** [(cfg or {}).get("processing") or {}]. *)
Definition _get_processing_cfg (cfg : value) : result value :=
  p ← method_get (py_or cfg (VDict ∅)) (py "processing") VNone;
  Ok (py_or p (VDict ∅)).

(** [(v or {}) if isinstance(v, dict) else {}]. *)
Definition dict_or_empty (v : value) : dict :=
  match v with
  | VDict m => m
  | _ => ∅
  end.

(** [_build_doc(dataset_name=..., record=..., dcfg=..., extra_metadata=...)]. *)
Definition _build_doc `{Externals}
    (dataset_name : str) (record dcfg extra_metadata : dict) : result doc :=
  let text_field := dict_get dcfg (py "text_field") (VStr (py "text")) in
  raw_text ← dict_get_value record text_field (VStr []);
  let text := match raw_text with VStr s => s | _ => py_str raw_text end in
  let upstream_id :=
    py_or (dict_get record (py "id") VNone)
      (py_or (dict_get record (py "_id") VNone)
         (dict_get record (py "doc_id") VNone)) in
  let id :=
    match upstream_id with
    | VNone => stable_id [Some dataset_name; Some text]
    | _ => py_str upstream_id
    end in
  Ok {| doc_id := id;
        doc_text := text;
        doc_source := dataset_name;
        doc_created := dict_get record (py "created") (VStr []);
        doc_added := dict_get record (py "added") (VStr []);
        doc_version := dict_get record (py "version") VNone;
        doc_metadata := if truthy (VDict extra_metadata) then MdShared
                        else MdOwn ∅ |}.

(** The keys of [_masker_cache]: [None], a number or a [str]. A number is
    an [int] (a [bool], and a [float] that equals an [int], are that [int])
    or a [float] that equals no [int]. *)
Abbreviation hashable := (option ((Z + float) + str)).

Definition hash_key (v : value) : result hashable :=
  match v with
  | VNone => Ok None
  | VBool b => Ok (Some (inl (inl (if b then 1 else 0))))
  | VInt z => Ok (Some (inl (inl z)))
  | VFloat x =>
      Ok (Some (inl (match float_integral x with
                     | Some z => inl z
                     | None => inr x
                     end)))
  | VStr s => Ok (Some (inr s))
  | VList _ | VDict _ =>
      Err (Raise TypeError (py "unhashable type: '" ++ type_name v ++ py "'"))
  end.

Record ProcessingPipeline := {
  self_cfg : value;
  _masker_cache : gmap hashable DolmaToolkitPIIMasker;
}.

(** [ProcessingPipeline(cfg)]. *)
Definition new_ProcessingPipeline (cfg : value) : ProcessingPipeline :=
  {| self_cfg := cfg; _masker_cache := ∅ |}.

(** The lookup of the masker in [_masker_cache], with its construction
    when the cache has none: the masker and the cache after it. *)
Definition get_masker `{Externals}
    (cache : gmap hashable DolmaToolkitPIIMasker) (name : value)
    : result (DolmaToolkitPIIMasker * gmap hashable DolmaToolkitPIIMasker) :=
  k ← hash_key name;
  match cache !! k with
  | Some masker => Ok (masker, cache)
  | None =>
      masker ← new_DolmaToolkitPIIMasker name;
      Ok (masker, <[k := masker]> cache)
  end.

(** The body of the [try] of [process_doc], up to the assignments to the
    document (which cannot raise): the cache it leaves, and the masked text
    with the number of spans found ([None] when the tagger found no span),
    or the exception raised. *)
Definition pii_try `{Externals}
    (cache : gmap hashable DolmaToolkitPIIMasker) (dtcfg : dict) (d : doc)
    : gmap hashable DolmaToolkitPIIMasker * result (option (str * Z)) :=
  let name := dict_get dtcfg (py "pii_tagger") (VStr (py "pii_regex_v2")) in
  match get_masker cache name with
  | Err e => (cache, Err e)
  | Ok (masker, cache') =>
      (cache',
       spans ← find_pii_spans masker (doc_id d) (doc_text d) (doc_source d);
       match spans with
       | [] => Ok None
       | _ =>
           t ← mask_spans (doc_text d) spans
                 (dict_get dtcfg (py "mask_token") (VStr (py "<PII>")));
           Ok (Some (t, Z.of_nat (length spans)))
       end)
  end.

(** The second step of [process_doc]: the normalisation of the text, under
    the block [normalize] of the processing configuration [pcfg]. *)
Definition normalize_doc `{Externals} (pcfg : dict) (d : doc) : result doc :=
  let ncfg := dict_or_empty (dict_get pcfg (py "normalize") VNone) in
  if truthy (dict_get ncfg (py "enabled") (VBool true)) then
    t ← normalize_text (Some (doc_text d))
          (dict_get ncfg (py "unicode_form") (VStr (py "NFC")))
          (dict_get ncfg (py "collapse_whitespace") (VBool true));
    Ok (with_text d t)
  else Ok d.

(** The block [dolma_toolkit] of the processing configuration. *)
Definition dolma_cfg (pcfg : dict) : dict :=
  dict_or_empty (dict_get pcfg (py "dolma_toolkit") VNone).

(** The [try] statement of [process_doc] with its handler. *)
Definition mask_doc `{Externals}
    (self : ProcessingPipeline) (dtcfg : dict) (extra_md : dict) (d1 : doc)
    : result (ProcessingPipeline * dict * doc) :=
  let '(cache, r) := pii_try (_masker_cache self) dtcfg d1 in
  let self' := {| self_cfg := self_cfg self; _masker_cache := cache |} in
  match r with
  | Ok None => Ok (self', extra_md, d1)
  | Ok (Some (t, n)) =>
      let d2 := with_text d1 t in
      let '(md1, d3) := set_metadata (py "pii_masked") (VBool true) extra_md d2 in
      let '(md2, d4) := set_metadata (py "pii_span_count") (VInt n) md1 d3 in
      Ok (self', md2, d4)
  | Err e =>
      if isinstance_Exception e then
        let '(md1, d2) :=
          set_metadata (py "dolma_toolkit_error") (VStr (exn_str e)) extra_md d1 in
        Ok (self', md1, d2)
      else Err e
  end.

(** [ProcessingPipeline.process_doc(doc=d)]. The pipeline and the shared
    metadata dictionary are threaded through; the document is updated in
    place in the source and returned. Only a [dict] has the method [get],
    so any other truthy [processing] block raises at the first call. *)
Definition process_doc `{Externals}
    (self : ProcessingPipeline) (extra_md : dict) (d : doc)
    : result (ProcessingPipeline * dict * doc) :=
  pcfg ← _get_processing_cfg (self_cfg self);
  enabled ← method_get pcfg (py "enabled") (VBool false);
  if negb (truthy enabled) then Ok (self, extra_md, d)
  else
    let p := dict_or_empty pcfg in
    d1 ← normalize_doc p d;
    if truthy (dict_get (dolma_cfg p) (py "enabled") (VBool false)) then
      mask_doc self (dolma_cfg p) extra_md d1
    else Ok (self, extra_md, d1).

(** [f"{n:05d}"]: decimal, zero-padded to five characters. *)
Definition format_05d (n : Z) : str :=
  let s := str_of_int n in
  if n <? 0 then
    py "-" ++ replicate (5 - length s) 48%N ++ drop 1 s
  else replicate (5 - length s) 48%N ++ s.

(** [f"part-{shard_id:05d}.jsonl"]. *)
Definition shard_name (shard_id : Z) : str :=
  py "part-" ++ format_05d shard_id ++ py ".jsonl".

(** [posixpath.join(a, *ps)]: the first component must be a [str]. *)
Fixpoint path_join (path : str) (ps : list str) : str :=
  match ps with
  | [] => path
  | b :: rest =>
      path_join
        (if bool_decide (take 1 b = py "/") then b
         else if bool_decide (path = []) || bool_decide (last path = Some 47%N)
              then path ++ b
              else path ++ py "/" ++ b)
        rest
  end.

Definition os_path_join (a : value) (ps : list str) : result str :=
  match a with
  | VStr s => Ok (path_join s ps)
  | _ => Err (Raise TypeError
                (py "expected str, bytes or os.PathLike object, not "
                 ++ type_name a))
  end.

(** The local variables of [process_stream], the shared metadata
    dictionary [extra_md] and what the sinks have received so far. *)
Record stream_state := {
  buffer : list doc;
  shard_id : Z;
  total : Z;
  pipe : ProcessingPipeline;
  extra_md : dict;
  sinks : list sink_event;
}.

(** The arguments of the call of [save_records], as it is written twice
    in [process_stream], evaluated in order: the storage mode, the local
    path, the bucket and the key. *)
Definition shard_arguments `{Externals} (cfg : value)
    (local_subdir s3_subdir : str) (shard_id : Z)
    : result (value * str * value * str) :=
  let shard := shard_name shard_id in
  storage ← getitem cfg (py "storage");
  mode ← getitem storage (py "mode");
  local_dir ← getitem storage (py "local_dir");
  local_path ← os_path_join local_dir [local_subdir; shard];
  aws ← getitem cfg (py "aws");
  bucket ← getitem aws (py "s3_bucket");
  s3_prefix ← getitem aws (py "s3_prefix");
  let s3_key := py_str s3_prefix ++ py "/" ++ s3_subdir ++ py "/" ++ shard in
  Ok (mode, local_path, bucket, s3_key).

(** The call of [save_records] on the buffer: what the sinks have received
    after it, and whether it returns or raises. *)
Definition save_shard `{Externals} `{Sinks} (cfg : value)
    (local_subdir s3_subdir : str) (st : stream_state)
    : list sink_event * result () :=
  match shard_arguments cfg local_subdir s3_subdir (shard_id st) with
  | Err e => (sinks st, Err e)
  | Ok (mode, local_path, bucket, s3_key) =>
      let '(written, r) :=
        save_records (snapshot (extra_md st) <$> buffer st) mode local_path
          bucket s3_key in
      (sinks st ++ written, r)
  end.

(** The first three statements of [process_stream] on metadata: the
    dictionary [extra_md]. *)
Definition build_extra_md (cfg : value) (dcfg run_md : dict) : result dict :=
  pcfg ← _get_processing_cfg cfg;
  g ← method_get pcfg (py "metadata") VNone;
  let global_md := dict_or_empty g in
  let dataset_md := dict_or_empty (dict_get dcfg (py "metadata") VNone) in
  (* [{**global_md, **dataset_md}]: the later mapping wins; [∪] keeps the
     left one. *)
  let md := dataset_md ∪ global_md in
  if truthy (VDict run_md) then
    match md !! py "run" with
    | Some (VDict existing_run) =>
        Ok (<[py "run" := VDict (run_md ∪ existing_run)]> md)
    | _ => Ok (<[py "run" := VDict run_md]> md)
    end
  else Ok md.

(** The body of the [for] loop of [process_stream] for one record: the
    state after it, and the exception if one is raised. *)
Definition stream_step `{Externals} `{Sinks} (dataset_name : str)
    (shard_size : Z) (cfg : value) (dcfg : dict) (local_subdir s3_subdir : str)
    (st : stream_state) (r : dict) : stream_state * option exn :=
  match _build_doc dataset_name r dcfg (extra_md st) with
  | Err e => (st, Some e)
  | Ok d =>
      match process_doc (pipe st) (extra_md st) d with
      | Err e => (st, Some e)
      | Ok (pipe', md', d') =>
          let st1 := {| buffer := buffer st ++ [d'];
                        shard_id := shard_id st;
                        total := total st + 1;
                        pipe := pipe';
                        extra_md := md';
                        sinks := sinks st |} in
          if bool_decide (shard_size ≤ Z.of_nat (length (buffer st1))) then
            match save_shard cfg local_subdir s3_subdir st1 with
            | (out, Ok _) =>
                ({| buffer := [];
                    shard_id := shard_id st1 + 1;
                    total := total st1;
                    pipe := pipe st1;
                    extra_md := extra_md st1;
                    sinks := out |}, None)
            | (out, Err e) =>
                ({| buffer := buffer st1;
                    shard_id := shard_id st1;
                    total := total st1;
                    pipe := pipe st1;
                    extra_md := extra_md st1;
                    sinks := out |}, Some e)
            end
          else (st1, None)
      end
  end.

(** The [for] loop: the state when the stream ends, or the state when an
    exception is raised and that exception. *)
Fixpoint stream_loop `{Externals} `{Sinks} (dataset_name : str) (shard_size : Z)
    (cfg : value) (dcfg : dict) (local_subdir s3_subdir : str)
    (st : stream_state) (ds_iter : list dict) : stream_state * option exn :=
  match ds_iter with
  | [] => (st, None)
  | r :: rest =>
      match stream_step dataset_name shard_size cfg dcfg local_subdir s3_subdir st r with
      | (st', None) =>
          stream_loop dataset_name shard_size cfg dcfg local_subdir s3_subdir st' rest
      | (st', Some e) => (st', Some e)
      end
  end.

(** [process_stream(dataset_name, ds_iter, shard_size, cfg, dcfg, run_md,
    local_subdir, s3_subdir)]: what the sinks have received when the call
    ends, in order, and the returned pair [(total, shard_id + 1)] or the
    exception raised. *)
Definition process_stream `{Externals} `{Sinks} (dataset_name : str)
    (ds_iter : list dict) (shard_size : Z) (cfg : value) (dcfg run_md : dict)
    (local_subdir s3_subdir : str) : list sink_event * result (Z * Z) :=
  match build_extra_md cfg dcfg run_md with
  | Err e => ([], Err e)
  | Ok md =>
      let st0 := {| buffer := []; shard_id := 0; total := 0;
                    pipe := new_ProcessingPipeline cfg;
                    extra_md := md; sinks := [] |} in
      match stream_loop dataset_name shard_size cfg dcfg local_subdir s3_subdir
              st0 ds_iter with
      | (st, Some e) => (sinks st, Err e)
      | (st, None) =>
          match buffer st with
          | [] => (sinks st, Ok (total st, shard_id st + 1))
          | _ =>
              match save_shard cfg local_subdir s3_subdir st with
              | (out, Ok _) => (out, Ok (total st, shard_id st + 1))
              | (out, Err e) => (out, Err e)
              end
          end
      end
  end.

(** ** vendor_dolma.py *)

(** What [ensure_vendor_dolma_on_path] sees of [pathlib] and of the file
    system: [str(Path(repo_root) / "vendor" / "dolma" / "python")], where
    [repo_root] is [None] for the root of the checkout, and the two tests on
    a path. *)
Class VendorTree := {
  vendor_candidate : option str → str;
  path_exists : str → bool;
  path_is_dir : str → bool;
}.

(** [ensure_vendor_dolma_on_path(repo_root)], on the entries of [sys.path]:
    the entries after the call and the path returned. *)
Definition ensure_vendor_dolma_on_path `{VendorTree}
    (repo_root : option str) (sys_path : list str) : list str * option str :=
  let candidate := vendor_candidate repo_root in
  if path_exists candidate && path_is_dir candidate then
    (if bool_decide (candidate ∈ sys_path) then sys_path
     else candidate :: sys_path,
     Some candidate)
  else (sys_path, None).

(** ** downloader.py: the text of a shard *)

(** [sep.join(items)] on strings. *)
Fixpoint sep_join (sep : str) (items : list str) : str :=
  match items with
  | [] => []
  | x :: rest =>
      match rest with
      | [] => x
      | _ => x ++ sep ++ sep_join sep rest
      end
  end.

Section jsonl.
Context {A : Type}.
(** [json.dumps(r, ensure_ascii=False)]. *)
Context (json_dumps : A → str).

(** The text [save_jsonl_local] writes to the file: one line for each
    record, each ended by a newline. *)
Definition save_jsonl_local (records : list A) : str :=
  concat ((λ r, json_dumps r ++ [10%N]) <$> records).

(** The text whose encoding is the [body] that [upload_jsonl_to_s3] puts
    under the key: the lines joined by newlines. *)
Definition upload_jsonl_to_s3 (records : list A) : str :=
  sep_join [10%N] (json_dumps <$> records).

End jsonl.

(** ** downloader.py: [_build_run_metadata] *)

(** [set(include) if isinstance(include, list) else None]: the elements,
    when all of them can be hashed. *)
Fixpoint hashable_items (l : list value) : result (list value) :=
  match l with
  | [] => Ok []
  | v :: rest =>
      match v with
      | VList _ | VDict _ =>
          Err (Raise TypeError (py "unhashable type: '" ++ type_name v ++ py "'"))
      | _ => r ← hashable_items rest; Ok (v :: r)
      end
  end.

Definition include_set (include : value) : result (option (list value)) :=
  match include with
  | VList l => s ← hashable_items l; Ok (Some s)
  | _ => Ok None
  end.

(** The local function [keep]. *)
Definition keep (include_set : option (list value)) (key : str) : bool :=
  match include_set with
  | None => true
  | Some s => existsb (λ v, eq_str v key) s
  end.

(** [(cfg.get(block) or {}).get(key)]. *)
Definition block_get (cfg : value) (block key : str) : result value :=
  b ← method_get cfg block VNone;
  method_get (py_or b (VDict ∅)) key VNone.

(** [_build_run_metadata(cfg=cfg, config_path=config_path)]. The identifier
    [str(uuid.uuid4())], the time [_iso_now()] and the version of the
    package are given: [run_id], [now] and [wrapper_version]. *)
Definition _build_run_metadata (run_id now : str) (wrapper_version : value)
    (cfg : value) (config_path : str) : result dict :=
  pcfg ← _get_processing_cfg cfg;
  r ← method_get pcfg (py "run_metadata") VNone;
  let runcfg := dict_or_empty r in
  if negb (truthy (VDict runcfg))
     || negb (truthy (dict_get runcfg (py "enabled") (VBool false)))
  then Ok ∅
  else
    inc ← include_set (dict_get runcfg (py "include") VNone);
    let md0 : dict := ∅ in
    let md1 := if keep inc (py "run_id")
               then <[py "run_id" := VStr run_id]> md0 else md0 in
    let md2 := if keep inc (py "run_started_at")
               then <[py "run_started_at" := VStr now]> md1 else md1 in
    let md3 := if keep inc (py "config_path")
               then <[py "config_path" := VStr config_path]> md2 else md2 in
    md4 ← (if keep inc (py "mode")
           then v ← method_get cfg (py "mode") VNone; Ok (<[py "mode" := v]> md3)
           else Ok md3);
    md5 ← (if keep inc (py "storage_mode")
           then v ← block_get cfg (py "storage") (py "mode");
                Ok (<[py "storage_mode" := v]> md4)
           else Ok md4);
    md6 ← (if keep inc (py "s3_bucket")
           then v ← block_get cfg (py "aws") (py "s3_bucket");
                Ok (<[py "s3_bucket" := v]> md5)
           else Ok md5);
    md7 ← (if keep inc (py "s3_prefix")
           then v ← block_get cfg (py "aws") (py "s3_prefix");
                Ok (<[py "s3_prefix" := v]> md6)
           else Ok md6);
    Ok (if keep inc (py "wrapper_version")
        then <[py "wrapper_version" := wrapper_version]> md7 else md7).

(** ** downloader.py: the overrides of [run_download] *)

(** [t.split(sep)] for a separator of one character. *)
Fixpoint split_on (sep : N) (t : str) : list str :=
  match t with
  | [] => [[]]
  | c :: rest =>
      if (c =? sep)%N then [] :: split_on sep rest
      else
        match split_on sep rest with
        | p :: ps => (c :: p) :: ps
        | [] => [[c]]
        end
  end.

(** [v[k] = x] with a [str] key. *)
Definition setitem (v : value) (k : str) (x : value) : result value :=
  match v with
  | VDict d => Ok (VDict (<[k := x]> d))
  | VList _ =>
      Err (Raise TypeError (py "list indices must be integers or slices, not str"))
  | _ => Err (Raise TypeError
                (py "'" ++ type_name v
                 ++ py "' object does not support item assignment"))
  end.

(** The body of the loop over the overrides, from [cur = cfg] on, for a
    configuration in which no mapping is shared, read as a value: [cur]
    walks down the keys but the last, and the last key is set in the
    mapping it has reached. The mappings are updated in place, so every
    mapping on the way holds the updated one below it (a configuration
    loaded from YAML without aliases shares no mapping between two
    places). With shared mappings the body is [apply_override] below. *)
Fixpoint set_dotted (cur : value) (parts : list str) (x : value) : result value :=
  match parts with
  | [] => Ok cur
  | p :: rest =>
      match rest with
      | [] => setitem cur p x
      | _ =>
          child ← getitem cur p;
          child' ← set_dotted child rest x;
          setitem cur p child'
      end
  end.

(** The mapping an iterated subscript reaches: [cfg[p1][p2]...]. *)
Fixpoint get_dotted (cur : value) (parts : list str) : result value :=
  match parts with
  | [] => Ok cur
  | p :: rest => child ← getitem cur p; get_dotted child rest
  end.

(** ** downloader.py: the configuration that [yaml.safe_load] returns

    The overrides of [run_download] assign into the mappings of the loaded
    configuration in place, and an alias of the YAML file makes one mapping
    object occur at several places of it. The loaded configuration is
    therefore a tree of nodes in which every mapping carries the identity
    of its Python object: the occurrences of one identity are one object.
    (A configuration that contains itself is not a finite tree and has no
    embedding.) *)
Inductive node :=
| NNone
| NBool (b : bool)
| NInt (z : Z)
| NFloat (x : float)
| NStr (s : str)
| NList (l : list node)
| NDict (id : N) (m : gmap str node).

(** The value a node reads as. *)
Fixpoint node_value (o : node) : value :=
  match o with
  | NNone => VNone
  | NBool b => VBool b
  | NInt z => VInt z
  | NFloat x => VFloat x
  | NStr s => VStr s
  | NList l => VList (node_value <$> l)
  | NDict _ m => VDict (node_value <$> m)
  end.

(** The identities of the mappings of a node, one for each occurrence. *)
Fixpoint node_ids (o : node) : list N :=
  match o with
  | NList l => l ≫= node_ids
  | NDict id m => id :: map_fold (λ _ c acc, node_ids c ++ acc) [] m
  | _ => []
  end.

(** [cur[k]] with a [str] key, on nodes. *)
Definition node_getitem (cur : node) (k : str) : result node :=
  match cur with
  | NDict _ m =>
      match m !! k with
      | Some c => Ok c
      | None => Err (Raise KeyError (py "'" ++ k ++ py "'"))
      end
  | NStr _ => Err (Raise TypeError (py "string indices must be integers, not 'str'"))
  | NList _ => Err (Raise TypeError (py "list indices must be integers or slices, not str"))
  | _ => Err (Raise TypeError
                (py "'" ++ type_name (node_value cur)
                 ++ py "' object is not subscriptable"))
  end.

(** [for p in parts[:-1]: cur = cur[p]]. *)
Fixpoint walk (cur : node) (ps : list str) : result node :=
  match ps with
  | [] => Ok cur
  | p :: rest => child ← node_getitem cur p; walk child rest
  end.

(** What the assignment [m[k] = x] to the mapping object [id] makes of a
    node: every occurrence of the object has the new entry. *)
Fixpoint assign (id : N) (k : str) (x : node) (o : node) : node :=
  match o with
  | NList l => NList (assign id k x <$> l)
  | NDict j m =>
      if bool_decide (j = id) then NDict j (<[k := x]> m)
      else NDict j (assign id k x <$> m)
  | _ => o
  end.

(** [cur[k] = x], where [cur] is a node of the configuration [cfg]: the
    configuration after the assignment. *)
Definition node_setitem (cfg cur : node) (k : str) (x : node) : result node :=
  match cur with
  | NDict id _ => Ok (assign id k x cfg)
  | NList _ =>
      Err (Raise TypeError (py "list indices must be integers or slices, not str"))
  | _ => Err (Raise TypeError
                (py "'" ++ type_name (node_value cur)
                 ++ py "' object does not support item assignment"))
  end.

(** One turn of the loop over the overrides: [cur] walks from the
    configuration down the keys but the last, and the last key is set in
    the mapping object it has reached. *)
Definition apply_override (cfg : node) (dotted_key : str) (x : node)
    : result node :=
  let parts := split_on 46 dotted_key in
  cur ← walk cfg (removelast parts);
  node_setitem cfg cur (List.last parts []) x.

(** The loop over [overrides.items()], the items in the order of the
    mapping; [None] and the empty mapping have no items. *)
Fixpoint apply_overrides (cfg : node) (overrides : list (str * node))
    : result node :=
  match overrides with
  | [] => Ok cfg
  | (dotted_key, x) :: rest =>
      cfg' ← apply_override cfg dotted_key x;
      apply_overrides cfg' rest
  end.

(** ** cli.py and scripts/download.py *)

(** [if arg: overrides[key] = arg], for an argument that is [None] when
    the flag is not given. *)
Definition flag_override (key : str) (arg : option str) : list (str * node) :=
  match arg with
  | Some s => if truthy (VStr s) then [(key, NStr s)] else []
  | None => []
  end.

(** The [overrides] that [main] builds from the parsed arguments. *)
Definition cli_overrides (mode storage s3_bucket region : option str)
    : list (str * node) :=
  flag_override (py "mode") mode
  ++ flag_override (py "storage.mode") storage
  ++ flag_override (py "aws.s3_bucket") s3_bucket
  ++ flag_override (py "aws.region") region.

(** ** downloader.py: the first statements of [run_download]

    Up to the loop over the data sets: the test on the path, the loading of
    the configuration, the overrides, the run metadata and the mode.
    [config_exists] is [os.path.exists(config_path)] and [loaded] what
    [yaml.safe_load] returns or raises; the result is the configuration
    after the overrides, as the rest of the run reads it, the run metadata
    and the mode the loop works with. *)
Definition run_download_config (config_exists : bool) (loaded : result node)
    (config_path : str) (overrides : list (str * node))
    (run_id now : str) (wrapper_version : value)
    : result (value * dict * value) :=
  if negb config_exists then
    Err (Raise (OtherException "FileNotFoundError")
           (py "Config file not found: " ++ config_path))
  else
    cfg ← loaded;
    cfg' ← apply_overrides cfg overrides;
    let c := node_value cfg' in
    run_md ← _build_run_metadata run_id now wrapper_version c config_path;
    mode ← getitem c (py "mode");
    Ok (c, run_md, mode).

(** ** The specification's words

    The second definitions of the refinement statements: they follow the
    sentences of the specification, not the code. *)

(** A span is valid when [end > start]. *)
Definition valid_span (x : Z * Z) : Prop := x.1 < x.2.

#[global] Instance valid_span_dec x : Decision (valid_span x).
Proof. unfold valid_span. apply _. Defined.

(** Position [p] lies in the half-open span [x]. *)
Definition in_span (p : Z) (x : Z * Z) : Prop := x.1 ≤ p < x.2.

(** Position [p] is covered by one of the spans. *)
Definition covered (p : Z) (spans : list (Z * Z)) : Prop :=
  Exists (in_span p) spans.

(** "Merges any span whose start is <= the running merged span's end into
    that span (extending its end to the max)": the running span [cur] and
    the spans still to come. *)
Fixpoint merge_running (cur : Z * Z) (rest : list (Z * Z)) : list (Z * Z) :=
  match rest with
  | [] => [cur]
  | x :: rest' =>
      if x.1 <=? cur.2 then merge_running (cur.1, Z.max cur.2 x.2) rest'
      else cur :: merge_running x rest'
  end.

(** "Discards empty/invalid spans, sorts by (start, end), and merges". *)
Definition merge_spec (spans : list (Z * Z)) : list (Z * Z) :=
  match merge_sort span_le (filter valid_span spans) with
  | [] => []
  | x :: rest => merge_running x rest
  end.

(** "Disjoint, non-adjacent" and ordered: every span is valid and starts
    strictly after the end of the one before it. *)
Fixpoint separated (l : list (Z * Z)) : Prop :=
  match l with
  | [] => True
  | x :: rest =>
      valid_span x
      ∧ match rest with
        | [] => True
        | y :: _ => x.2 < y.1
        end
      ∧ separated rest
  end.

(** The characters of [t] at the positions [p] with [a <= p < b], and at the
    positions [p] with [a <= p]. *)
Definition chars_between {A} (t : list A) (a b : Z) : list A :=
  snd <$> filter (λ ic : nat * A, a ≤ Z.of_nat ic.1 < b) (imap pair t).

Definition chars_from {A} (t : list A) (a : Z) : list A :=
  snd <$> filter (λ ic : nat * A, a ≤ Z.of_nat ic.1) (imap pair t).

(** The text from position [pos] on, with what [f] gives in place of the
    characters each span covers and every other character as it is. *)
Fixpoint replace_spans (t : str) (f : Z * Z → str) (pos : Z)
    (merged : list (Z * Z)) : str :=
  match merged with
  | [] => chars_from t pos
  | x :: rest => chars_between t pos x.1 ++ f x ++ replace_spans t f x.2 rest
  end.

(** "The literal mask token in place of each merged span's covered
    characters". *)
Definition masked_text (t token : str) (merged : list (Z * Z)) : str :=
  replace_spans t (λ _, token) 0 merged.

(** "Shallow-merges processing.metadata then dataset metadata (dataset keys
    win), then, if run metadata is non-empty, merges it under a run sub-key
    (with any run mapping already there, run metadata's keys winning)": the
    value under each key. *)
Definition spec_metadata (global_md dataset_md run_md : dict) (k : str)
    : option value :=
  let combined (j : str) : option value :=
    match dataset_md !! j with
    | Some v => Some v
    | None => global_md !! j
    end in
  if bool_decide (k = py "run") && negb (bool_decide (run_md = ∅)) then
    Some (VDict
            (match combined (py "run") with
             | Some (VDict existing) => run_md ∪ existing
             | _ => run_md
             end))
  else combined k.

(** The number a [float] denotes, and the count in the specification's
    words for the type "percent": "floor(10000 * value / 100)". *)
Definition float_value (x : float) : Q :=
  match x with
  | S754_finite s m e =>
      (if s then - inject_Z (Z.pos m) else inject_Z (Z.pos m)) * Qpower 2 e
  | _ => 0
  end%Q.

Definition percent_floor (v : Q) : Z := Qfloor (10000 * v / 100)%Q.

(** The files the local sink wrote and the objects the remote sink put,
    in order. *)
Definition shard_files (events : list sink_event) : list (str * list doc) :=
  events ≫= λ ev,
    match ev with
    | LocalFile path records => [(path, records)]
    | S3Object _ _ _ => []
    end.

Definition shard_objects (events : list sink_event)
    : list (value * str * list doc) :=
  events ≫= λ ev,
    match ev with
    | LocalFile _ _ => []
    | S3Object bucket key records => [(bucket, key, records)]
    end.

(** "If unicode_form is set and not the literal string none
    (case-insensitive), applies that Unicode normalization form": the forms
    for which none is applied. *)
Definition unicode_form_skipped (unicode_form : value) : bool :=
  match unicode_form with
  | VStr form => bool_decide (form = []) || lower_is_none form
  | _ => negb (truthy unicode_form)
  end.

(** The configuration names its sinks: the storage mode and the local
    directory, the bucket and the key prefix. *)
Definition storage_configured (cfg mode : value) (local_dir : str)
    (bucket s3_prefix : value) : Prop :=
  ∃ storage aws,
    getitem cfg (py "storage") = Ok storage
    ∧ getitem storage (py "mode") = Ok mode
    ∧ getitem storage (py "local_dir") = Ok (VStr local_dir)
    ∧ getitem cfg (py "aws") = Ok aws
    ∧ getitem aws (py "s3_bucket") = Ok bucket
    ∧ getitem aws (py "s3_prefix") = Ok s3_prefix.

(** Building and processing the documents of the records raises nothing,
    when it is done as [process_stream] does it: one record after the
    other, from the pipeline [self] and the content [md] of the metadata
    that the documents share. *)
Fixpoint documents_ok `{Externals} (dataset_name : str) (dcfg : dict)
    (self : ProcessingPipeline) (md : dict) (records : list dict) : Prop :=
  match records with
  | [] => True
  | r :: rest =>
      ∃ d self' md' d',
        _build_doc dataset_name r dcfg md = Ok d
        ∧ process_doc self md d = Ok (self', md', d')
        ∧ documents_ok dataset_name dcfg self' md' rest
  end.

(** The document [d] is the one of the record [r]: what [_build_doc] takes
    from the record is what [d] holds. *)
Definition doc_of_record `{Externals} (dataset_name : str) (dcfg : dict)
    (r : dict) (d : doc) : Prop :=
  ∃ md d0,
    _build_doc dataset_name r dcfg md = Ok d0
    ∧ doc_id d = doc_id d0 ∧ doc_source d = doc_source d0
    ∧ doc_created d = doc_created d0 ∧ doc_added d = doc_added d0
    ∧ doc_version d = doc_version d0.

(** The number of shards for [n] documents: the full ones and the partial
    one that remains. *)
Definition shards_for (n shard_size : Z) : Z :=
  n / shard_size + (if n mod shard_size =? 0 then 0 else 1).

(** What the sinks receive for the shard [name] holding [records], under
    a storage mode: the file [local_dir/local_subdir/name] for the modes
    [local] and [both], then the object [s3_prefix/s3_subdir/name] for the
    modes [s3] and [both]. *)
Definition shard_written `{Externals} (mode : value) (local_dir local_subdir : str)
    (bucket s3_prefix : value) (s3_subdir : str) (name : str)
    (records : list doc) : list sink_event :=
  (if eq_str mode (py "local") || eq_str mode (py "both")
   then [LocalFile (path_join local_dir [local_subdir; name]) records] else [])
  ++ (if eq_str mode (py "s3") || eq_str mode (py "both")
      then [S3Object bucket
              (py_str s3_prefix ++ py "/" ++ s3_subdir ++ py "/" ++ name) records]
      else []).

Definition shard_events `{Externals} (mode : value) (local_dir local_subdir : str)
    (bucket s3_prefix : value) (s3_subdir : str) (shard_id : Z)
    (records : list doc) : list sink_event :=
  shard_written mode local_dir local_subdir bucket s3_prefix s3_subdir
    (shard_name shard_id) records.

(** "processing.metadata" and "dataset_cfg.metadata": the mapping under
    the key [metadata] of a block, when the block and the entry are
    mappings; and the block [processing] of the configuration. *)
Definition metadata_block (block : value) : dict :=
  match block with
  | VDict c =>
      match c !! py "metadata" with
      | Some (VDict m) => m
      | _ => ∅
      end
  | _ => ∅
  end.

Definition processing_block (cfg : value) : value :=
  match cfg with
  | VDict c => default VNone (c !! py "processing")
  | _ => VNone
  end.

(** The masking step of the pipeline runs: processing and the toolkit are
    both enabled. *)
Definition pii_step_enabled (cfg : value) : bool :=
  match _get_processing_cfg cfg with
  | Ok (VDict p) =>
      truthy (dict_get p (py "enabled") (VBool false))
      && truthy (dict_get (dolma_cfg p) (py "enabled") (VBool false))
  | _ => false
  end.

(** The documents a sink received with an event. *)
Definition event_docs (ev : sink_event) : list doc :=
  match ev with
  | LocalFile _ records => records
  | S3Object _ _ records => records
  end.

(** ** Notions for the further statements *)

(** No mapping object occurs at two places of the configuration: the file
    has no alias of a mapping. *)
Definition unshared (cfg : node) : Prop := NoDup (node_ids cfg).

(** The overrides on the value of a configuration that shares no mapping:
    each is the update of the tree along its path. *)
Fixpoint tree_overrides (cfg : value) (overrides : list (str * node))
    : result value :=
  match overrides with
  | [] => Ok cfg
  | (dotted_key, x) :: rest =>
      cfg' ← set_dotted cfg (split_on 46 dotted_key) (node_value x);
      tree_overrides cfg' rest
  end.

(** The value an override flag leaves under its key: the argument when
    the flag is given with a non-empty argument, else what was there. *)
Definition flag_value (arg : option str) (old : option value) : option value :=
  match arg with
  | Some (c :: s) => Some (VStr (c :: s))
  | _ => old
  end.

(** What the override of one flag makes of a mapping. *)
Definition flag_insert (arg : option str) (k : str) (m : dict) : dict :=
  match arg with
  | Some (c :: s) => <[k := VStr (c :: s)]> m
  | _ => m
  end.

(** The keys [_build_run_metadata] knows. *)
Definition run_metadata_keys : list str :=
  [py "run_id"; py "run_started_at"; py "config_path"; py "mode";
   py "storage_mode"; py "s3_bucket"; py "s3_prefix"; py "wrapper_version"].

(** [if b: m[k] = v]. *)
Definition cond_insert (b : bool) (k : str) (v : value) (m : dict) : dict :=
  if b then <[k := v]> m else m.

(** A hexadecimal digit in lower case. *)
Definition hex_char (c : N) : Prop := (48 ≤ c ≤ 57 ∨ 97 ≤ c ≤ 102)%N.

(** A surrogate code point, which UTF-8 cannot encode. *)
Definition surrogate (c : N) : bool := ((55296 <=? c) && (c <=? 57343))%N.

(** A character of a part that [stable_id] hashes without loss: a code
    point of Unicode that is neither NUL nor a surrogate. *)
Definition plain_char (c : N) : Prop :=
  (0 < c < 1114112)%N ∧ surrogate c = false.

(** ** A sample environment

    Stand-ins for the libraries, for the examples: each is the library's
    behaviour on the inputs the examples use. *)

(** [unicodedata.normalize] on texts over the four code points U+0000,
    U+0065 (e), U+0301 (combining acute accent) and U+00E9 (e with acute):
    the only canonical composition among them is U+0065 U+0301 to U+00E9,
    and U+0000 is a starter, so it keeps the two apart. *)
Fixpoint compose_acute (t : str) : str :=
  match t with
  | [] => []
  | c :: rest =>
      match rest with
      | m :: rest' =>
          if bool_decide (c = 101%N ∧ m = 769%N) then 233%N :: compose_acute rest'
          else c :: compose_acute rest
      | [] => [c]
      end
  end.

Definition decompose_acute (t : str) : str :=
  t ≫= λ c, if bool_decide (c = 233%N) then [101%N; 769%N] else [c].

Definition sample_normalize (form t : str) : result str :=
  if bool_decide (form = py "NFC") || bool_decide (form = py "NFKC")
  then Ok (compose_acute (decompose_acute t))
  else if bool_decide (form = py "NFD") || bool_decide (form = py "NFKD")
  then Ok (decompose_acute t)
  else Err (Raise ValueError (py "invalid normalization form")).

(** The positions of the decimal digits of [t], one span per digit. *)
Fixpoint digit_spans (t : str) (pos : Z) : list (Z * Z * Q) :=
  match t with
  | [] => []
  | c :: rest =>
      (if ((48 <=? c) && (c <=? 57))%N then [(pos, pos + 1, 1%Q)] else [])
      ++ digit_spans rest (pos + 1)
  end.

(** A tagger that flags every decimal digit as a span of the category
    [PHONE_NUMBERS]. *)
Definition sample_tagger (spec : InputSpec) : result tag_output :=
  Ok [(py "PHONE_NUMBERS", digit_spans (spec_text spec) 0)].

(** A registry with that one tagger, under the name [pii_regex_v2]; any
    other name is refused. *)
Definition sample_registry (name : value)
    : result (InputSpec → result tag_output) :=
  if eq_str name (py "pii_regex_v2") then Ok sample_tagger
  else Err (Raise (OtherException "TaggerNotFound") (py "unknown tagger")).

(** [str] of the two empty containers; the examples print no other. *)
Definition sample_repr (v : value) : str :=
  match v with
  | VList [] => py "[]"
  | VList _ => py "[...]"
  | VDict d => if bool_decide (d = ∅) then py "{}" else py "{...}"
  | _ => []
  end.

(** The [float] that a decimal literal with the value [a / b] reads as:
    the one nearest to the quotient. *)
Definition float_of_ratio (a b : Z) : float :=
  float_div (float_of_int a) (float_of_int b).

(** [str] of the two zeros; the examples print no other [float]. *)
Definition sample_float_repr (x : float) : str :=
  match x with
  | S754_zero false => py "0.0"
  | S754_zero true => py "-0.0"
  | _ => []
  end.

Definition sample_env : Externals := {|
  unicodedata_normalize := sample_normalize;
  container_repr := sample_repr;
  float_repr := sample_float_repr;
  TaggerRegistry_new := sample_registry;
|}.

(** Sinks that take whatever they are given, and the sinks of a machine
    that has neither [boto3] nor the [aws] command. *)
Definition sample_sinks : Sinks := {|
  save_jsonl_local_raises := λ _ _, None;
  upload_jsonl_to_s3_raises := λ _ _ _, None;
|}.

Definition offline_sinks : Sinks := {|
  save_jsonl_local_raises := λ _ _, None;
  upload_jsonl_to_s3_raises := λ _ _ _,
    Some (Raise (OtherException "FileNotFoundError")
            (py "[Errno 2] No such file or directory: 'aws'"));
|}.

(** A configuration with processing and the toolkit enabled, the given
    tagger name, and local storage; a document of the data set [ds]. *)
Definition sample_processing (tagger : str) : dict :=
  <[py "enabled" := VBool true]>
    {[py "dolma_toolkit" :=
        VDict (<[py "enabled" := VBool true]> {[py "pii_tagger" := VStr tagger]})]}.

Definition sample_storage : dict :=
  <[py "storage" :=
      VDict (<[py "mode" := VStr (py "local")]> {[py "local_dir" := VStr (py "out")]})]>
    {[py "aws" :=
        VDict (<[py "s3_bucket" := VStr (py "bucket")]>
                 {[py "s3_prefix" := VStr (py "corpus")]})]}.

Definition sample_cfg (tagger : str) : value :=
  VDict (<[py "processing" := VDict (sample_processing tagger)]> sample_storage).

Definition sample_doc (t : str) : doc :=
  {| doc_id := py "doc-1"; doc_text := t; doc_source := py "ds";
     doc_created := VStr []; doc_added := VStr []; doc_version := VNone;
     doc_metadata := MdOwn ∅ |}.

(** The metadata of the specification's example: global [{a: 1, b: 1}],
    data set [{b: 2, c: 3}], run [{run_id: "X"}]. *)
Definition example_global_cfg : value :=
  VDict {[py "processing" :=
            VDict {[py "metadata" :=
                      VDict (<[py "a" := VInt 1]> {[py "b" := VInt 1]})]}]}.

Definition example_dataset_cfg : dict :=
  {[py "metadata" := VDict (<[py "b" := VInt 2]> {[py "c" := VInt 3]})]}.

Definition example_run_md : dict := {[py "run_id" := VStr (py "X")]}.

(** The sample configuration with the global metadata [{a: 1}]. *)
Definition sample_cfg_with_metadata : value :=
  VDict (<[py "processing" :=
             VDict (<[py "metadata" := VDict {[py "a" := VInt 1]}]>
                      (sample_processing (py "pii_regex_v2")))]>
           sample_storage).

(** [json.dumps] on the two Booleans. *)
Definition sample_json_dumps (b : bool) : str :=
  if b then py "true" else py "false".

(** A checkout with the vendored clone, seen from the default root. *)
Definition sample_vendor_tree : VendorTree := {|
  vendor_candidate := λ _, py "/repo/vendor/dolma/python";
  path_exists := λ p, bool_decide (p = py "/repo/vendor/dolma/python");
  path_is_dir := λ p, bool_decide (p = py "/repo/vendor/dolma/python");
|}.

(** A registry whose import is interrupted from the keyboard. *)
Definition interrupted_env : Externals := {|
  unicodedata_normalize := sample_normalize;
  container_repr := sample_repr;
  float_repr := sample_float_repr;
  TaggerRegistry_new := λ _, Err (Raise (NonException "KeyboardInterrupt") []);
|}.

(** The sample configuration with another storage mode, and with a mask
    token that is null. *)
Definition sample_storage_mode (mode : str) : dict :=
  <[py "storage" :=
      VDict (<[py "mode" := VStr mode]> {[py "local_dir" := VStr (py "out")]})]>
    sample_storage.

Definition sample_processing_null_token : dict :=
  <[py "enabled" := VBool true]>
    {[py "dolma_toolkit" :=
        VDict (<[py "enabled" := VBool true]> {[py "mask_token" := VNone]})]}.

(** A configuration with run metadata enabled for two of the keys. *)
Definition sample_run_metadata : dict :=
  <[py "enabled" := VBool true]>
    {[py "include" := VList [VStr (py "run_id"); VStr (py "storage_mode")]]}.

Definition sample_run_cfg : dict :=
  <[py "processing" := VDict {[py "run_metadata" := VDict sample_run_metadata]}]>
    sample_storage.

Definition sample_cfg_null_token : value :=
  VDict (<[py "processing" := VDict sample_processing_null_token]> sample_storage).

(** The sample configuration as [yaml.safe_load] returns it: three
    mapping objects. *)
Definition sample_loaded : node :=
  NDict 0
    (<[py "storage" :=
         NDict 1 (<[py "mode" := NStr (py "local")]>
                    {[py "local_dir" := NStr (py "out")]})]>
       {[py "aws" :=
           NDict 2 (<[py "s3_bucket" := NStr (py "bucket")]>
                      {[py "s3_prefix" := NStr (py "corpus")]})]}).

(** A configuration with an alias, [defaults: &d {mode: local}] and
    [storage: *d]: two mapping objects, one of them at two places. *)
Definition sample_defaults : gmap str node :=
  {[py "mode" := NStr (py "local")]}.

Definition sample_aliased_entries : gmap str node :=
  <[py "defaults" := NDict 1 sample_defaults]>
    {[py "storage" := NDict 1 sample_defaults]}.

Definition sample_aliased : node := NDict 0 sample_aliased_entries.

(** Two records of the text field; and two more, the first with a
    telephone number. *)
Definition sample_records : list dict :=
  [{[py "text" := VStr (py "a")]}; {[py "text" := VStr (py "b")]}].

Definition sample_pii_records : list dict :=
  [{[py "text" := VStr (py "call 555")]}; {[py "text" := VStr (py "plain")]}].

(** The sample configuration, the masking step enabled, with another
    storage mode. *)
Definition sample_cfg_mode (mode : str) : value :=
  VDict (<[py "processing" := VDict (sample_processing (py "pii_regex_v2"))]>
           (sample_storage_mode mode)).

(** * Properties *)

(** ** Python values *)

Lemma eq_str_true v s : eq_str v s = true ↔ v = VStr s.
Proof.
  destruct v; simpl; try (split; [discriminate | intros [=]]).
  rewrite bool_decide_eq_true. split; [by intros -> | by intros [= ->]].
Qed.

Lemma eq_str_false v s : eq_str v s = false ↔ v ≠ VStr s.
Proof.
  rewrite <- eq_str_true. destruct (eq_str v s); split; done.
Qed.

Lemma eq_str_refl s : eq_str (VStr s) s = true.
Proof. by apply eq_str_true. Qed.

Lemma py_or_truthy a b : truthy a = true → py_or a b = a.
Proof. unfold py_or. by intros ->. Qed.

Lemma py_or_falsy a b : truthy a = false → py_or a b = b.
Proof. unfold py_or. by intros ->. Qed.

Lemma bind_Ok {A B} (a : A) (f : A → result B) : (Ok a ≫= f) = f a.
Proof. reflexivity. Qed.

Lemma bind_Err {A B} (e : exn) (f : A → result B) : (Err e ≫= f) = Err e.
Proof. reflexivity. Qed.

(** ** [_build_doc] *)

Section build_doc.
Context `{Externals}.

(** The text of the document, by the state of the configured field. *)
Lemma build_doc_text dataset_name record dcfg extra_metadata field :
  dict_get dcfg (py "text_field") (VStr (py "text")) = VStr field →
  ∃ d, _build_doc dataset_name record dcfg extra_metadata = Ok d
       ∧ doc_text d = match record !! field with
                      | None => []
                      | Some (VStr s) => s
                      | Some v => py_str v
                      end.
Proof.
  intros Hf. unfold _build_doc. rewrite Hf. simpl. unfold dict_get.
  eexists. split; [reflexivity|]. simpl.
  by destruct (record !! field) as [[]|].
Qed.

(** C10: when the configured text field is present in the record and bound
    to a null value, the text of the document is the four characters
    [None] and not the empty string. The empty text is the default of a
    record that lacks the field, and of no other: whenever the field is
    present, the text is its value, or [str] of its value when that is not
    a string. *)
Theorem build_doc_null_text dataset_name record dcfg extra_metadata field :
  dict_get dcfg (py "text_field") (VStr (py "text")) = VStr field →
  record !! field = Some VNone →
  (∃ d, _build_doc dataset_name record dcfg extra_metadata = Ok d
        ∧ doc_text d = py "None" ∧ doc_text d ≠ [])
  ∧ (∀ record' : dict,
       ∃ d', _build_doc dataset_name record' dcfg extra_metadata = Ok d'
             ∧ (record' !! field = None → doc_text d' = [])
             ∧ (∀ v, record' !! field = Some v →
                  doc_text d' = match v with VStr s => s | _ => py_str v end)).
Proof.
  intros Hf Hnull. split.
  - destruct (build_doc_text dataset_name record dcfg extra_metadata field Hf)
      as (d & Hd & Ht).
    rewrite Hnull in Ht. exists d. by rewrite Ht.
  - intros record'.
    destruct (build_doc_text dataset_name record' dcfg extra_metadata field Hf)
      as (d & Hd & Ht).
    exists d. split; [done|]. split.
    + intros Habs. by rewrite Habs in Ht.
    + intros v Hv. rewrite Hv in Ht. rewrite Ht. by destruct v.
Qed.

(** The identifier of the document in terms of the three fields. *)
Lemma build_doc_id dataset_name record dcfg extra_metadata d :
  _build_doc dataset_name record dcfg extra_metadata = Ok d →
  doc_id d =
    match py_or (dict_get record (py "id") VNone)
            (py_or (dict_get record (py "_id") VNone)
               (dict_get record (py "doc_id") VNone)) with
    | VNone => stable_id [Some dataset_name; Some (doc_text d)]
    | v => py_str v
    end.
Proof.
  unfold _build_doc.
  destruct (dict_get_value record _ _) as [raw|e]; simpl; [|done].
  intros [= <-]. simpl. by destruct (py_or _ _) as [|[]| | | | |].
Qed.

(** A truthy [id] is the identifier, whatever the text. *)
Lemma build_doc_id_truthy dataset_name record dcfg extra_metadata d v :
  _build_doc dataset_name record dcfg extra_metadata = Ok d →
  record !! py "id" = Some v → truthy v = true →
  doc_id d = py_str v.
Proof.
  intros Hd Hid Hv. rewrite (build_doc_id _ _ _ _ _ Hd).
  unfold dict_get at 1. rewrite Hid. simpl. rewrite py_or_truthy by done.
  by destruct v.
Qed.

(** With none of the three fields, the identifier is the stable one. *)
Lemma build_doc_id_absent dataset_name record dcfg extra_metadata d :
  _build_doc dataset_name record dcfg extra_metadata = Ok d →
  record !! py "id" = None → record !! py "_id" = None →
  record !! py "doc_id" = None →
  doc_id d = stable_id [Some dataset_name; Some (doc_text d)].
Proof.
  intros Hd H1 H2 H3. rewrite (build_doc_id _ _ _ _ _ Hd).
  unfold dict_get. by rewrite H1, H2, H3.
Qed.

(** [stable_id(source, text)] hashes the two encodings, each followed by a
    NUL byte. *)
Lemma stable_id_two source text :
  stable_id [Some source; Some text]
  = sha1_hexdigest (utf8_encode source ++ [0%N] ++ utf8_encode text ++ [0%N]).
Proof. reflexivity. Qed.

End build_doc.

Lemma build_doc_null_text_witness :
  (∃ d, _build_doc (H:=sample_env) (py "ds") {[py "text" := VNone]} ∅ ∅ = Ok d
        ∧ doc_text d = py "None" ∧ doc_text d ≠ [])
  ∧ (∀ record' : dict,
       ∃ d', _build_doc (H:=sample_env) (py "ds") record' ∅ ∅ = Ok d'
             ∧ (record' !! py "text" = None → doc_text d' = [])
             ∧ (∀ v, record' !! py "text" = Some v →
                  doc_text d'
                  = match v with VStr s => s | _ => py_str (H:=sample_env) v end)).
Proof.
  apply (build_doc_null_text (H:=sample_env) (py "ds") {[py "text" := VNone]}
           ∅ ∅ (py "text")); reflexivity.
Defined.

Lemma length_hex_word n x : length (hex_word n x) = n.
Proof. induction n as [|n IH]; simpl; by rewrite ?IH. Qed.

(** A SHA-1 digest has forty hexadecimal digits. *)
Lemma length_sha1_hexdigest bytes : length (sha1_hexdigest bytes) = 40%nat.
Proof.
  unfold sha1_hexdigest.
  destruct (sha1_blocks _ _ _) as [[[[a b] c] d] e].
  by rewrite !length_app, !length_hex_word.
Qed.

(** C3: a record whose [id] is the integer 0 (and which has neither [_id]
    nor [doc_id]) does not get the identifier ["0"]: the chain of [or]
    skips the falsy value and the document gets the stable identifier of
    its source and text. *)
Theorem build_doc_id_zero_skipped `{Externals} (dataset_name text : str) :
  ∃ d, _build_doc dataset_name
         (<[py "id" := VInt 0]> {[py "text" := VStr text]}) ∅ ∅ = Ok d
       ∧ doc_id d = stable_id [Some dataset_name; Some text]
       ∧ doc_id d ≠ py_str (VInt 0).
Proof.
  eexists. split; [reflexivity|]. split; [reflexivity|].
  intros Heq. apply (f_equal length) in Heq. revert Heq.
  change (doc_id _) with (stable_id [Some dataset_name; Some text]).
  unfold stable_id. rewrite length_sha1_hexdigest. discriminate.
Qed.

(** ** [apply_limit] *)

Lemma round_to_double_exact n : Z.abs n < 2 ^ 53 → round_to_double n = Some n.
Proof.
  intros Hn. unfold round_to_double.
  destruct (decide (n = 0)) as [->|Hne]; [done|].
  assert (Z.log2 (Z.abs n) < 53) by (apply Z.log2_lt_pow2; lia).
  by rewrite (proj2 (Z.leb_le _ _)) by lia.
Qed.

Lemma percent_quotient p : 10000 * p / 100 = 100 * p.
Proof. symmetry. apply Z.div_unique_exact; lia. Qed.

Lemma percent_items_int p :
  0 ≤ p → 100 * p < 2 ^ 53 → percent_items (VInt p) = Ok (100 * p).
Proof.
  intros H0 Hp. unfold percent_items.
  rewrite percent_quotient.
  by rewrite round_to_double_exact by lia.
Qed.

Section apply_limit.
Context `{Externals} {A : Type}.
Implicit Types (dataset : list A) (limit_cfg mode : value) (d : dict).

Lemma apply_limit_full dataset limit_cfg :
  apply_limit dataset limit_cfg (VStr (py "full")) = Ok dataset.
Proof. done. Qed.

Lemma apply_limit_typed dataset d mode ty :
  mode ≠ VStr (py "full") → d !! py "type" = Some ty →
  apply_limit dataset (VDict d) mode =
    if eq_str ty (py "none") then Ok dataset
    else if eq_str ty (py "rows") then
      v ← getitem (VDict d) (py "value"); islice dataset v
    else if eq_str ty (py "percent") then
      percent ← getitem (VDict d) (py "value");
      n ← percent_items percent; islice dataset (VInt n)
    else Err (Raise ValueError (py "Unknown limit type: " ++ py_str ty)).
Proof.
  intros Hm Hty. unfold apply_limit.
  rewrite (proj2 (eq_str_false _ _) Hm). simpl. by rewrite Hty.
Qed.

(** C4 (amended): [apply_limit] returns the whole stream in mode ["full"]
    and for the type ["none"]; in any other mode (["test"] in particular)
    it returns the first [value] items for the type ["rows"] when the value
    is an integer from 0 to [sys.maxsize], and refuses a [float] value; for
    the type ["percent"] it returns the first [int(10000 * value / 100)]
    items: for an integer value that is [floor(10000 * value / 100)], for a
    [float] value the product and the quotient are each rounded to a
    [float] before the integer part is taken; any other type raises a
    [ValueError] that names the type. *)
Theorem apply_limit_cases dataset d mode :
  (∀ limit_cfg, apply_limit dataset limit_cfg (VStr (py "full")) = Ok dataset)
  ∧ (d !! py "type" = Some (VStr (py "none")) →
     apply_limit dataset (VDict d) mode = Ok dataset)
  ∧ (∀ n, mode ≠ VStr (py "full") →
       d !! py "type" = Some (VStr (py "rows")) →
       d !! py "value" = Some (VInt n) → 0 ≤ n ≤ sys_maxsize →
       apply_limit dataset (VDict d) mode = Ok (take (Z.to_nat n) dataset))
  ∧ (∀ x, mode ≠ VStr (py "full") →
       d !! py "type" = Some (VStr (py "rows")) →
       d !! py "value" = Some (VFloat x) →
       apply_limit dataset (VDict d) mode = Err islice_error)
  ∧ (∀ p, mode ≠ VStr (py "full") →
       d !! py "type" = Some (VStr (py "percent")) →
       d !! py "value" = Some (VInt p) → 0 ≤ p → 100 * p < 2 ^ 53 →
       apply_limit dataset (VDict d) mode
       = Ok (take (Z.to_nat (10000 * p / 100)) dataset))
  ∧ (∀ x n, mode ≠ VStr (py "full") →
       d !! py "type" = Some (VStr (py "percent")) →
       d !! py "value" = Some (VFloat x) →
       int_of_float (float_div (float_mul (float_of_int 10000) x)
                       (float_of_int 100)) = Ok n →
       0 ≤ n ≤ sys_maxsize →
       apply_limit dataset (VDict d) mode = Ok (take (Z.to_nat n) dataset))
  ∧ (∀ ty, mode ≠ VStr (py "full") → d !! py "type" = Some ty →
       ty ≠ VStr (py "none") → ty ≠ VStr (py "rows") →
       ty ≠ VStr (py "percent") →
       apply_limit dataset (VDict d) mode
       = Err (Raise ValueError (py "Unknown limit type: " ++ py_str ty))).
Proof.
  split; [done|]. split; [|split; [|split; [|split; [|split]]]].
  - intros Hty. unfold apply_limit.
    destruct (eq_str mode (py "full")); [done|]. simpl. by rewrite Hty.
  - intros n Hm Hty Hv Hn.
    rewrite (apply_limit_typed _ _ _ _ Hm Hty). simpl. rewrite Hv. simpl.
    by rewrite bool_decide_eq_true_2.
  - intros x Hm Hty Hv.
    rewrite (apply_limit_typed _ _ _ _ Hm Hty). simpl. by rewrite Hv.
  - intros p Hm Hty Hv H0 Hp.
    rewrite (apply_limit_typed _ _ _ _ Hm Hty).
    unfold getitem. rewrite Hv.
    change (eq_str (VStr (py "percent")) (py "none")) with false.
    change (eq_str (VStr (py "percent")) (py "rows")) with false.
    rewrite eq_str_refl, bind_Ok, percent_items_int, bind_Ok by done. simpl.
    rewrite percent_quotient.
    rewrite bool_decide_eq_true_2; [done|]. unfold sys_maxsize. lia.
  - intros x n Hm Hty Hv Hx Hn.
    rewrite (apply_limit_typed _ _ _ _ Hm Hty).
    unfold getitem. rewrite Hv.
    change (eq_str (VStr (py "percent")) (py "none")) with false.
    change (eq_str (VStr (py "percent")) (py "rows")) with false.
    rewrite eq_str_refl, bind_Ok. cbn [percent_items]. rewrite Hx, bind_Ok.
    cbn [islice]. by rewrite bool_decide_eq_true_2.
  - intros ty Hm Hty H1 H2 H3.
    rewrite (apply_limit_typed _ _ _ _ Hm Hty).
    by rewrite !(proj2 (eq_str_false _ _)).
Qed.

End apply_limit.

(** The limits of the specification's examples: 5 rows of 20 items, and 50
    percent of a stream of any length; and 12.5 percent. *)
Lemma apply_limit_examples :
  apply_limit (H:=sample_env) (seq 0 20)
    (VDict (<[py "type" := VStr (py "rows")]> {[py "value" := VInt 5]}))
    (VStr (py "test")) = Ok (seq 0 5)
  ∧ (∀ dataset : list dict,
       apply_limit (H:=sample_env) dataset
         (VDict (<[py "type" := VStr (py "percent")]> {[py "value" := VInt 50]}))
         (VStr (py "test")) = Ok (take 5000 dataset))
  ∧ (∀ dataset : list dict,
       apply_limit (H:=sample_env) dataset
         (VDict (<[py "type" := VStr (py "percent")]>
                   {[py "value" := VFloat (float_of_ratio 125 10)]}))
         (VStr (py "test")) = Ok (take 1250 dataset)).
Proof.
  split; [|split].
  - exact (proj1 (proj2 (proj2
      (apply_limit_cases (H:=sample_env) (seq 0 20)
         (<[py "type" := VStr (py "rows")]> {[py "value" := VInt 5]})
         (VStr (py "test"))))) 5 ltac:(discriminate) eq_refl eq_refl
      ltac:(unfold sys_maxsize; lia)).
  - intros dataset.
    exact (proj1 (proj2 (proj2 (proj2 (proj2
      (apply_limit_cases (H:=sample_env) dataset
         (<[py "type" := VStr (py "percent")]> {[py "value" := VInt 50]})
         (VStr (py "test"))))))) 50 ltac:(discriminate) eq_refl eq_refl
      ltac:(lia) ltac:(lia)).
  - intros dataset.
    exact (proj1 (proj2 (proj2 (proj2 (proj2 (proj2
      (apply_limit_cases (H:=sample_env) dataset
         (<[py "type" := VStr (py "percent")]>
            {[py "value" := VFloat (float_of_ratio 125 10)]})
         (VStr (py "test")))))))) (float_of_ratio 125 10) 1250
      ltac:(discriminate) eq_refl eq_refl eq_refl
      ltac:(unfold sys_maxsize; lia)).
Defined.

(** The percentage 0.57 selects 56 items and not the 57 of
    [floor(10000 * 0.57 / 100)]: the [float] product is 5699.999999999999.
    Nor is the count the floor for the number the [float] denotes: the
    [float] of 0.29 is below 0.29, so that floor is 28, and 29 items are
    selected, the product being rounded to 2900. *)
Lemma apply_limit_percent_fraction :
  apply_limit (H:=sample_env) (seq 0 100)
    (VDict (<[py "type" := VStr (py "percent")]>
              {[py "value" := VFloat (float_of_ratio 57 100)]}))
    (VStr (py "test")) = Ok (seq 0 56)
  ∧ percent_floor (57 # 100) = 57
  ∧ apply_limit (H:=sample_env) (seq 0 100)
      (VDict (<[py "type" := VStr (py "percent")]>
                {[py "value" := VFloat (float_of_ratio 29 100)]}))
      (VStr (py "test")) = Ok (seq 0 29)
  ∧ percent_floor (float_value (float_of_ratio 29 100)) = 28.
Proof. repeat split; vm_compute; reflexivity. Qed.

(** ** [_merge_spans] *)

#[global] Instance span_le_trans : Transitive span_le.
Proof. intros [a b] [c d] [e f]; unfold span_le; simpl; lia. Qed.

#[global] Instance span_le_total : Total span_le.
Proof. intros [a b] [c d]; unfold span_le; simpl; lia. Qed.

#[global] Instance span_le_antisymm : AntiSymm (=) span_le.
Proof.
  intros [a b] [c d]; unfold span_le; simpl. intros ??.
  f_equal; lia.
Qed.

Lemma span_le_start x y : span_le x y → x.1 ≤ y.1.
Proof. unfold span_le. lia. Qed.

Lemma StronglySorted_filter {A} (R : relation A) (P : A → Prop)
    `{∀ x, Decision (P x)} l :
  StronglySorted R l → StronglySorted R (filter P l).
Proof.
  induction 1 as [|x l Hl IH Hx]; [constructor|].
  rewrite filter_cons. destruct (decide (P x)); [|done].
  constructor; [done|].
  apply Forall_forall. intros y [_ Hy]%list_elem_of_filter.
  by eapply Forall_forall in Hx.
Qed.

(** Sorting and discarding the invalid spans commute. *)
Lemma filter_merge_sort spans :
  filter valid_span (merge_sort span_le spans)
  = merge_sort span_le (filter valid_span spans).
Proof.
  apply (StronglySorted_unique span_le).
  - apply StronglySorted_filter, StronglySorted_merge_sort; apply _.
  - apply StronglySorted_merge_sort; apply _.
  - by rewrite !merge_sort_Permutation.
Qed.

Lemma merge_step_invalid merged x : ¬ valid_span x → merge_step merged x = merged.
Proof.
  destruct x as [s e]. unfold valid_span, merge_step. simpl. intros Hx.
  by rewrite (proj2 (Z.leb_le e s)) by lia.
Qed.

(** The loop skips the invalid spans. *)
Lemma foldl_merge_step_filter merged l :
  foldl merge_step merged l = foldl merge_step merged (filter valid_span l).
Proof.
  revert merged. induction l as [|x l IH]; intros merged; [done|].
  rewrite filter_cons. simpl. destruct (decide (valid_span x)) as [Hx|Hx].
  - simpl. apply IH.
  - rewrite merge_step_invalid by done. apply IH.
Qed.

(** One turn of the loop on a list that ends with the running span. *)
Lemma merge_step_snoc acc cur x :
  valid_span x →
  merge_step (acc ++ [cur]) x =
    if x.1 <=? cur.2 then acc ++ [(cur.1, Z.max cur.2 x.2)]
    else acc ++ [cur] ++ [x].
Proof.
  destruct x as [s e], cur as [cs ce]. unfold valid_span. simpl. intros Hx.
  unfold merge_step. rewrite (proj2 (Z.leb_gt e s)) by lia.
  rewrite last_snoc.
  destruct (Z.ltb_spec ce s), (Z.leb_spec s ce); try lia.
  - by rewrite <- app_assoc.
  - rewrite length_app. simpl.
    replace (pred (length acc + 1)) with (length acc + 0)%nat by lia.
    by rewrite insert_app_r.
Qed.

Lemma merge_step_nil x : valid_span x → merge_step [] x = [x].
Proof.
  destruct x as [s e]. unfold valid_span, merge_step. simpl. intros Hx.
  by rewrite (proj2 (Z.leb_gt e s)) by lia.
Qed.

(** The loop on valid spans is the running merge of the specification. *)
Lemma foldl_merge_running acc cur l :
  Forall valid_span l →
  foldl merge_step (acc ++ [cur]) l = acc ++ merge_running cur l.
Proof.
  intros Hl. revert acc cur.
  induction Hl as [|x l Hx Hl IH]; intros acc cur; [done|].
  simpl. rewrite merge_step_snoc by done.
  destruct (x.1 <=? cur.2).
  - apply IH.
  - rewrite (app_assoc acc [cur] [x]), IH. by rewrite <- app_assoc.
Qed.

Lemma Forall_valid_filter l : Forall valid_span (filter valid_span l).
Proof. apply Forall_forall. by intros x [? _]%list_elem_of_filter. Qed.

(** [_merge_spans] refines the specification's description of it. *)
Lemma merge_spans_spec spans : _merge_spans spans = merge_spec spans.
Proof.
  unfold _merge_spans, merge_spec.
  rewrite foldl_merge_step_filter, filter_merge_sort.
  pose proof (Forall_valid_filter spans) as Hv.
  rewrite <- (merge_sort_Permutation span_le) in Hv.
  destruct (merge_sort span_le (filter valid_span spans)) as [|x l]; [done|].
  simpl. rewrite merge_step_nil by (by inversion Hv).
  apply (foldl_merge_running [] x l). by inversion Hv.
Qed.

(** The running merge starts with a span that starts where [cur] does. *)
Lemma merge_running_head cur l :
  ∃ e rest, merge_running cur l = (cur.1, e) :: rest.
Proof.
  revert cur. induction l as [|x l IH]; intros [cs ce]; simpl.
  - by exists ce, [].
  - destruct (x.1 <=? ce).
    + apply (IH (cs, Z.max ce x.2)).
    + by exists ce, (merge_running x l).
Qed.

Lemma separated_cons x l :
  separated (x :: l)
  ↔ valid_span x ∧ match l with [] => True | y :: _ => x.2 < y.1 end
    ∧ separated l.
Proof. done. Qed.

(** The result of the running merge is ordered, disjoint and
    non-adjacent. *)
Lemma merge_running_separated cur l :
  valid_span cur → Forall valid_span l → separated (merge_running cur l).
Proof.
  intros Hc Hl. revert cur Hc.
  induction Hl as [|x l Hx Hl IH]; intros cur Hc; [done|].
  simpl. destruct (Z.leb_spec x.1 cur.2) as [Hle|Hgt].
  - apply IH. unfold valid_span in *. simpl. lia.
  - destruct (merge_running_head x l) as (e & rest & Heq).
    rewrite separated_cons. rewrite Heq at 1. simpl.
    repeat split; [done|lia|by apply IH].
Qed.

Lemma covered_cons p x l : covered p (x :: l) ↔ in_span p x ∨ covered p l.
Proof. apply Exists_cons. Qed.

Lemma covered_nil p : ¬ covered p [].
Proof. by intros ?%Exists_nil. Qed.

(** The running merge covers the positions of [cur] and of the spans that
    follow it in the sorted order. *)
Lemma merge_running_covered p cur l :
  valid_span cur → Forall valid_span l →
  Forall (λ y, cur.1 ≤ y.1) l → StronglySorted span_le l →
  covered p (merge_running cur l) ↔ in_span p cur ∨ covered p l.
Proof.
  intros Hc Hl. revert cur Hc.
  induction Hl as [|x l Hx Hl IH]; intros cur Hc Hlow Hs.
  { simpl. rewrite covered_cons. pose proof (covered_nil p). tauto. }
  inversion_clear Hlow as [|?? Hx1 Hlow'].
  apply StronglySorted_inv in Hs as [Hs Hxl].
  simpl. destruct (Z.leb_spec x.1 cur.2) as [Hle|Hgt].
  - rewrite IH; [|unfold valid_span in *; simpl; lia|done|done].
    rewrite covered_cons. unfold in_span, valid_span in *. simpl.
    split; [intros [?|?]|intros [?|[?|?]]]; auto; lia.
  - rewrite covered_cons, IH, covered_cons; [done..| |done].
    eapply Forall_impl; [exact Hxl|]. intros y. apply span_le_start.
Qed.

Lemma covered_filter_valid p spans :
  covered p (filter valid_span spans) ↔ covered p spans.
Proof.
  unfold covered. rewrite !Exists_exists. split.
  - intros (x & [_ Hx]%list_elem_of_filter & Hp). eauto.
  - intros (x & Hx & Hp). exists x. split; [|done].
    apply list_elem_of_filter. split; [|done].
    unfold in_span, valid_span in *. lia.
Qed.

Lemma covered_Permutation p l1 l2 : l1 ≡ₚ l2 → covered p l1 ↔ covered p l2.
Proof. intros Hp. unfold covered. by rewrite Hp. Qed.

(** The merged spans are ordered, disjoint and non-adjacent. *)
Lemma merge_spans_separated spans : separated (_merge_spans spans).
Proof.
  rewrite merge_spans_spec. unfold merge_spec.
  pose proof (Forall_valid_filter spans) as Hv.
  rewrite <- (merge_sort_Permutation span_le) in Hv.
  destruct (merge_sort span_le (filter valid_span spans)) as [|x l]; [done|].
  inversion_clear Hv. by apply merge_running_separated.
Qed.

(** The merged spans cover the positions the given spans cover. *)
Lemma merge_spans_covered p spans :
  covered p (_merge_spans spans) ↔ covered p spans.
Proof.
  rewrite merge_spans_spec. unfold merge_spec.
  rewrite <- (covered_filter_valid p spans).
  rewrite <- (covered_Permutation p _ _
                (merge_sort_Permutation span_le (filter valid_span spans))).
  pose proof (Forall_valid_filter spans) as Hv.
  rewrite <- (merge_sort_Permutation span_le) in Hv.
  pose proof (StronglySorted_merge_sort span_le (filter valid_span spans)) as Hs.
  destruct (merge_sort span_le (filter valid_span spans)) as [|x l]; [done|].
  inversion_clear Hv. apply StronglySorted_inv in Hs as [Hs Hxl].
  rewrite covered_cons. apply merge_running_covered; [done..| |done].
  eapply Forall_impl; [exact Hxl|]. intros y. apply span_le_start.
Qed.

(** In a separated list every later span starts after the end of the
    first. *)
Lemma separated_after x l : separated (x :: l) → Forall (λ w, x.2 < w.1) l.
Proof.
  revert x. induction l as [|y l IH]; intros x; [constructor|].
  intros (Hx & Hxy & Hsep). constructor; [done|].
  eapply Forall_impl; [by apply IH|].
  destruct Hsep as [Hy _]. unfold valid_span in Hy. simpl. lia.
Qed.

Lemma separated_tail x l : separated (x :: l) → separated l.
Proof. by intros (_ & _ & ?). Qed.

Lemma covered_elem p l : covered p l ↔ ∃ x, x ∈ l ∧ in_span p x.
Proof. apply Exists_exists. Qed.

(** A separated list is the shortest list of spans with its coverage: no
    list of spans that covers the same positions has fewer members. *)
Lemma separated_minimal merged L :
  separated merged → (∀ p, covered p L ↔ covered p merged) →
  (length merged ≤ length L)%nat.
Proof.
  revert L. induction merged as [|x rest IH]; intros L Hsep Hcov; [simpl; lia|].
  pose proof (separated_after _ _ Hsep) as Hafter.
  assert (valid_span x) as Hx by (by destruct Hsep).
  assert (covered x.1 L) as (y & Hy & Hxy)%covered_elem.
  { apply Hcov, covered_cons. left. unfold in_span, valid_span in *. lia. }
  assert (∀ p, ¬ covered p rest ∨ x.2 < p) as Hrest.
  { intros p. destruct (decide (x.2 < p)); [by right|left].
    intros (w & Hw & Hpw)%covered_elem.
    eapply Forall_forall in Hafter; [|exact Hw].
    unfold in_span in Hpw. simpl in *. lia. }
  set (L' := filter (λ z : Z * Z, x.2 ≤ z.1) L).
  assert (length L' < length L)%nat.
  { apply (length_filter_lt _ _ y); [done|]. unfold in_span, valid_span in *. lia. }
  enough (length rest ≤ length L')%nat by (simpl; lia).
  apply IH; [by eapply separated_tail|]. intros p. split.
  - intros (z & [Hz HzL]%list_elem_of_filter & Hpz)%covered_elem.
    assert (covered p (x :: rest)) as [Hpx|?]%covered_cons; [|exfalso|done].
    { apply Hcov, covered_elem. eauto. }
    unfold in_span in *. lia.
  - intros Hp. assert (covered p L) as (z & Hz & Hpz)%covered_elem.
    { apply Hcov, covered_cons. by right. }
    apply covered_elem. exists z. split; [|done].
    apply list_elem_of_filter. split; [|done].
    destruct (decide (x.2 ≤ z.1)) as [|Hlt]; [done|exfalso].
    destruct (Hrest p) as [|Hxp]; [done|].
    assert (covered x.2 (x :: rest)) as [Hpx|Hpr]%covered_cons.
    { apply Hcov, covered_elem. exists z. split; [done|].
      unfold in_span in *. lia. }
    + unfold in_span in Hpx. lia.
    + destruct (Hrest x.2); [done|lia].
Qed.

Lemma merge_spans_minimal spans L :
  (∀ p, covered p L ↔ covered p spans) →
  (length (_merge_spans spans) ≤ length L)%nat.
Proof.
  intros Hcov. apply separated_minimal; [apply merge_spans_separated|].
  intros p. by rewrite merge_spans_covered.
Qed.

(** ** [mask_spans] *)

(** The characters at the positions from [a] to [b], by [take] and
    [drop]; [k] is the position of the first character of [t]. *)
Lemma chars_between_offset {A} (t : list A) (k : nat) (a b : Z) :
  snd <$> filter (λ ic : nat * A, a ≤ Z.of_nat ic.1 < b)
            (imap (λ i c, ((k + i)%nat, c)) t)
  = take (Z.to_nat (b - Z.max a (Z.of_nat k)))
      (drop (Z.to_nat (a - Z.of_nat k)) t).
Proof.
  revert k. induction t as [|c t IH]; intros k.
  { by rewrite drop_nil, take_nil. }
  rewrite imap_cons, filter_cons. simpl.
  rewrite (imap_ext _ (λ i c, ((S k + i)%nat, c)))
    by (intros; simpl; f_equal; lia).
  rewrite Nat.add_0_r. destruct (decide _) as [Hin|Hout].
  - rewrite fmap_cons, IH. simpl.
    replace (Z.to_nat (a - Z.of_nat k)) with 0%nat by lia.
    replace (Z.to_nat (a - Z.of_nat (S k))) with 0%nat by lia.
    rewrite !drop_0.
    replace (Z.to_nat (b - Z.max a (Z.of_nat k)))
      with (S (Z.to_nat (b - Z.max a (Z.of_nat (S k))))) by lia.
    done.
  - rewrite IH. destruct (decide (Z.of_nat k < a)).
    + replace (Z.to_nat (a - Z.of_nat k))
        with (S (Z.to_nat (a - Z.of_nat (S k)))) by lia.
      simpl. f_equal. lia.
    + replace (Z.to_nat (b - Z.max a (Z.of_nat (S k)))) with 0%nat by lia.
      replace (Z.to_nat (b - Z.max a (Z.of_nat k))) with 0%nat by lia.
      by rewrite !take_0.
Qed.

Lemma chars_between_take_drop {A} (t : list A) (a b : Z) :
  chars_between t a b
  = take (Z.to_nat (b - Z.max a 0)) (drop (Z.to_nat a) t).
Proof.
  unfold chars_between.
  rewrite (imap_ext _ (λ i c, ((0 + i)%nat, c))) by done.
  rewrite chars_between_offset. do 2 f_equal; lia.
Qed.

Lemma filter_ext_elem {A} (P Q : A → Prop)
    `{∀ x, Decision (P x), ∀ x, Decision (Q x)} (l : list A) :
  (∀ x, x ∈ l → P x ↔ Q x) → filter P l = filter Q l.
Proof.
  induction l as [|x l IH]; intros HPQ; [done|].
  rewrite !filter_cons, IH by (intros; apply HPQ; by right).
  pose proof (HPQ x (list_elem_of_here _ _)).
  destruct (decide (P x)), (decide (Q x)); tauto || done.
Qed.

Lemma chars_from_between {A} (t : list A) (a : Z) :
  chars_from t a = chars_between t a (Z.of_nat (length t)).
Proof.
  unfold chars_from, chars_between. f_equal.
  apply filter_ext_elem.
  intros [i c] [j [y [[= -> ->] Hj]]]%elem_of_lookup_imap_1.
  apply lookup_lt_Some in Hj. simpl. lia.
Qed.

Lemma chars_from_drop {A} (t : list A) (a : Z) :
  chars_from t a = drop (Z.to_nat a) t.
Proof.
  rewrite chars_from_between, chars_between_take_drop.
  apply take_ge. rewrite length_drop. lia.
Qed.

Lemma chars_between_empty {A} (t : list A) (a b : Z) :
  b ≤ a → chars_between t a b = [].
Proof.
  intros Hba. rewrite chars_between_take_drop.
  destruct (decide (0 ≤ a)).
  - replace (Z.to_nat (b - Z.max a 0)) with 0%nat by lia. apply take_0.
  - replace (Z.to_nat a) with 0%nat by lia. rewrite drop_0.
    destruct (decide (0 ≤ b)); [|by replace (Z.to_nat (b - Z.max a 0)) with 0%nat by lia].
    replace (Z.to_nat (b - Z.max a 0)) with (Z.to_nat b) by lia.
    lia.
Qed.

Lemma chars_between_from {A} (t : list A) (a b : Z) :
  a ≤ b → chars_between t a b ++ chars_from t b = chars_from t a.
Proof.
  intros Hab. rewrite chars_between_take_drop, !chars_from_drop.
  destruct (decide (b ≤ 0)).
  - replace (Z.to_nat (b - Z.max a 0)) with 0%nat by lia.
    replace (Z.to_nat a) with 0%nat by lia.
    by replace (Z.to_nat b) with 0%nat by lia.
  - replace (Z.to_nat b)
      with (Z.to_nat a + Z.to_nat (b - Z.max a 0))%nat by lia.
    rewrite <- drop_drop. apply take_drop.
Qed.

(** A slice with bounds that are positions of the text, or lie beyond its
    end, holds the characters between them. *)
Lemma slice_between {A} (t : list A) (a b : Z) :
  0 ≤ a → a < b → slice t a (Some b) = chars_between t a b.
Proof.
  intros Ha Hab. rewrite chars_between_take_drop. unfold slice, slice_bound.
  rewrite !(proj2 (Z.ltb_ge _ _)) by lia.
  destruct (decide (Z.of_nat (length t) ≤ a)).
  - rewrite !drop_ge by lia. by rewrite !take_nil.
  - replace (Z.min a (Z.of_nat (length t))) with a by lia.
    destruct (decide (b ≤ Z.of_nat (length t))).
    + do 2 f_equal. lia.
    + rewrite !take_ge; [done|rewrite length_drop; lia..].
Qed.

Lemma slice_from {A} (t : list A) (a : Z) :
  0 ≤ a → slice t a None = chars_from t a.
Proof.
  intros Ha. rewrite chars_from_drop. unfold slice, slice_bound.
  rewrite (proj2 (Z.ltb_ge _ _)) by lia.
  destruct (decide (Z.of_nat (length t) ≤ a)).
  - rewrite !drop_ge by lia. by rewrite take_nil.
  - replace (Z.min a (Z.of_nat (length t))) with a by lia.
    apply take_ge. rewrite length_drop. lia.
Qed.

Lemma str_join_from_strs i (ps : list str) :
  str_join_from i (VStr <$> ps) = Ok (concat ps).
Proof.
  revert i. induction ps as [|s ps IH]; intros i; [done|].
  rewrite fmap_cons. simpl. by rewrite IH.
Qed.

(** The loop of [mask_spans] with a [str] token, when the cursor never
    becomes negative: the pieces are those of the specification. *)
Lemma mask_loop_strs (t token : str) merged (ps : list str) cur :
  0 ≤ cur → Forall (λ x : Z * Z, 0 ≤ x.2) merged →
  ∃ ps' cur',
    mask_loop t (VStr token) merged (VStr <$> ps) cur = (VStr <$> ps', cur')
    ∧ 0 ≤ cur'
    ∧ concat ps' ++ chars_from t cur'
      = concat ps ++ replace_spans t (λ _, token) cur merged.
Proof.
  intros Hcur Hm. revert ps cur Hcur.
  induction Hm as [|[s e] merged He Hm IH]; intros ps cur Hcur.
  { by exists ps, cur. }
  simpl in He. cbn [mask_loop replace_spans fst snd].
  set (ps1 := (if cur <? s then ps ++ [slice t cur (Some s)] else ps) ++ [token]).
  destruct (IH ps1 e He) as (ps' & cur' & Hloop & Hcur' & Hcat).
  exists ps', cur'. split; [|split; [done|]].
  - rewrite <- Hloop. f_equal. unfold ps1.
    destruct (cur <? s); by rewrite !fmap_app.
  - rewrite Hcat. unfold ps1. rewrite concat_app. simpl.
    rewrite app_nil_r. destruct (Z.ltb_spec cur s).
    + rewrite concat_app. simpl. rewrite app_nil_r, slice_between by done.
      by rewrite <- !app_assoc.
    + rewrite chars_between_empty by done. by rewrite <- app_assoc.
Qed.

Lemma merge_running_ends cur l :
  0 ≤ cur.2 → Forall (λ x : Z * Z, 0 ≤ x.2) l →
  Forall (λ x : Z * Z, 0 ≤ x.2) (merge_running cur l).
Proof.
  intros Hc Hl. revert cur Hc.
  induction Hl as [|x l Hx Hl IH]; intros cur Hc; simpl.
  - by constructor.
  - destruct (x.1 <=? cur.2); [apply IH; simpl; lia|].
    constructor; [done|by apply IH].
Qed.

(** When the valid spans end at non-negative offsets, so do the merged
    ones. *)
Lemma merge_spans_ends spans :
  Forall (λ x, valid_span x → 0 ≤ x.2) spans →
  Forall (λ x : Z * Z, 0 ≤ x.2) (_merge_spans spans).
Proof.
  intros Hs. rewrite merge_spans_spec. unfold merge_spec.
  assert (Forall (λ x : Z * Z, 0 ≤ x.2)
            (merge_sort span_le (filter valid_span spans))) as Hv.
  { rewrite merge_sort_Permutation. apply Forall_forall.
    intros x [Hx Hin]%list_elem_of_filter.
    rewrite Forall_forall in Hs. by apply Hs. }
  destruct (merge_sort span_le (filter valid_span spans)) as [|x l]; [done|].
  inversion_clear Hv. by apply merge_running_ends.
Qed.

(** [mask_spans] with a [str] token refines the specification's masked
    text, for spans whose valid members end at a non-negative offset. *)
Lemma mask_spans_masked_text (t token : str) spans :
  Forall (λ x, valid_span x → 0 ≤ x.2) spans →
  mask_spans t spans (VStr token)
  = Ok (masked_text t token (_merge_spans spans)).
Proof.
  intros Hs. pose proof (merge_spans_ends _ Hs) as Hm.
  unfold mask_spans, masked_text.
  destruct (_merge_spans spans) as [|x merged] eqn:Heq.
  { simpl. by rewrite chars_from_drop. }
  destruct (mask_loop_strs t token (x :: merged) [] 0 ltac:(done) Hm)
    as (ps' & cur' & Hloop & Hcur' & Hcat).
  change (VStr <$> []) with (@nil value) in Hloop. rewrite Hloop.
  change (concat [] ++ ?r) with r in Hcat. rewrite <- Hcat.
  destruct (Z.ltb_spec cur' (Z.of_nat (length t))).
  - change [VStr (slice t cur' None)] with (VStr <$> [slice t cur' None]).
    rewrite <- fmap_app. unfold str_join. rewrite str_join_from_strs, concat_app. simpl.
    by rewrite app_nil_r, slice_from.
  - unfold str_join. rewrite str_join_from_strs.
    rewrite chars_from_drop, drop_ge by lia. by rewrite app_nil_r.
Qed.

(** With no valid span the text is returned as it is, whatever the
    token. *)
Lemma mask_spans_no_valid t spans mask_token :
  Forall (λ x, ¬ valid_span x) spans → mask_spans t spans mask_token = Ok t.
Proof.
  intros Hs. unfold mask_spans. rewrite merge_spans_spec. unfold merge_spec.
  replace (filter valid_span spans) with (@nil (Z * Z)); [done|].
  induction Hs as [|x l Hx Hl IH]; [done|].
  rewrite filter_cons. by destruct (decide (valid_span x)).
Qed.

(** Putting back the characters every span covers gives the text: the
    masked text differs from the text by the tokens that stand for the
    covered characters, and by nothing else. *)
Lemma replace_spans_covered_from (t : str) pos merged :
  separated merged →
  match merged with [] => True | x :: _ => pos ≤ x.1 end →
  replace_spans t (λ x, chars_between t x.1 x.2) pos merged = chars_from t pos.
Proof.
  revert pos. induction merged as [|x merged IH]; intros pos Hsep Hpos; [done|].
  destruct Hsep as (Hx & Hnext & Hsep). unfold valid_span in Hx.
  cbn [replace_spans]. rewrite IH by (done || (destruct merged; [done|lia])).
  rewrite (chars_between_from t x.1 x.2) by lia.
  by apply chars_between_from.
Qed.

Lemma replace_spans_covered (t : str) merged :
  separated merged →
  replace_spans t (λ x, chars_between t x.1 x.2) 0 merged = t.
Proof.
  intros Hsep. destruct merged as [|x merged].
  { simpl. by rewrite chars_from_drop. }
  destruct (decide (0 ≤ x.1)).
  - rewrite replace_spans_covered_from by done. by rewrite chars_from_drop.
  - transitivity (replace_spans t (λ x, chars_between t x.1 x.2) x.1 (x :: merged)).
    { cbn [replace_spans].
      by rewrite (chars_between_empty t 0 x.1),
           (chars_between_empty t x.1 x.1) by lia. }
    rewrite replace_spans_covered_from by done.
    rewrite chars_from_drop. by replace (Z.to_nat x.1) with 0%nat by lia.
Qed.

(** C1 (amended): [_merge_spans] is the specification's merge (invalid
    spans discarded, the rest sorted and merged into the running span); its
    result is ordered, disjoint and non-adjacent, covers the positions the
    given spans cover, and no list of spans with that coverage is shorter.
    The masked text is the text with the token in place of the characters
    each merged span covers, provided the valid spans end at non-negative
    offsets; with no valid span the text is returned as it is. The spans
    [(0,3), (2,5), (10,12)] merge to [(0,5), (10,12)], and masking puts the
    token in place of [0,5) and of [10,12). *)
Theorem merge_and_mask_spans (t token : str) (spans : list (Z * Z)) :
  let merged := _merge_spans spans in
  merged = merge_spec spans
  ∧ separated merged
  ∧ (∀ p, covered p merged ↔ covered p spans)
  ∧ (∀ L, (∀ p, covered p L ↔ covered p spans) →
       (length merged ≤ length L)%nat)
  ∧ replace_spans t (λ x, chars_between t x.1 x.2) 0 merged = t
  ∧ (Forall (λ x, valid_span x → 0 ≤ x.2) spans →
     mask_spans t spans (VStr token) = Ok (masked_text t token merged))
  ∧ (Forall (λ x, ¬ valid_span x) spans →
     ∀ mask_token, mask_spans t spans mask_token = Ok t)
  ∧ _merge_spans [(0, 3); (2, 5); (10, 12)] = [(0, 5); (10, 12)]
  ∧ mask_spans t [(0, 3); (2, 5); (10, 12)] (VStr token)
    = Ok (token ++ take 5 (drop 5 t) ++ token ++ drop 12 t).
Proof.
  intros merged. unfold merged.
  split; [apply merge_spans_spec|].
  split; [apply merge_spans_separated|].
  split; [intros p; apply merge_spans_covered|].
  split; [apply merge_spans_minimal|].
  split; [apply replace_spans_covered, merge_spans_separated|].
  split; [apply mask_spans_masked_text|].
  split; [intros Hs tok; by apply mask_spans_no_valid|].
  split; [by vm_compute|].
  rewrite mask_spans_masked_text
    by (repeat constructor; unfold valid_span; simpl; lia).
  replace (_merge_spans [(0, 3); (2, 5); (10, 12)]) with [(0, 5); (10, 12)]
    by (by vm_compute).
  unfold masked_text. cbn [replace_spans fst snd].
  rewrite !chars_between_take_drop, chars_from_drop.
  change (Z.to_nat (0 - Z.max 0 0)) with 0%nat.
  change (Z.to_nat (10 - Z.max 5 0)) with 5%nat.
  change (Z.to_nat 5) with 5%nat. change (Z.to_nat 12) with 12%nat.
  by rewrite take_0.
Qed.

(** The masked text of the specification's example, on a text of
    seventeen characters. *)
Lemma merge_and_mask_example :
  mask_spans (py "hello world, this") [(0, 3); (2, 5); (10, 12)]
    (VStr (py "<PII>"))
  = Ok (py "<PII> worl<PII> this").
Proof.
  exact (proj2 (proj2 (proj2 (proj2 (proj2 (proj2 (proj2 (proj2
    (merge_and_mask_spans (py "hello world, this") (py "<PII>") []))))))))).
Defined.

(** C1, as it is stated for every collection of integer spans, fails on
    a span that ends at a negative offset: the cursor becomes negative and
    the slice that follows counts from the end of the text, so characters
    that no span covers are lost. *)
Lemma mask_spans_negative_span :
  mask_spans (py "hello") [(-5, -2)] (VStr (py "<PII>")) = Ok (py "<PII>lo")
  ∧ masked_text (py "hello") (py "<PII>") (_merge_spans [(-5, -2)])
    = py "<PII>hello"
  ∧ mask_spans (py "hello") [(-5, -2)] (VStr (py "<PII>"))
    ≠ Ok (masked_text (py "hello") (py "<PII>") (_merge_spans [(-5, -2)])).
Proof. split; [|split]; by vm_compute. Qed.

(** ** [normalize_text] *)

(** A text in which whitespace occurs only as single spaces between other
    characters: what [_WS_RE.sub(" ", t)] leaves. *)
Fixpoint single_spaced (t : str) : Prop :=
  match t with
  | [] => True
  | c :: rest =>
      (isspace c = true →
       c = 32%N ∧ match rest with [] => True | c' :: _ => isspace c' = false end)
      ∧ single_spaced rest
  end.

Lemma isspace_space : isspace 32 = true.
Proof. done. Qed.

Lemma ws_sub_single_spaced t : single_spaced (ws_sub t).
Proof.
  induction t as [|c t IH]; [done|]. simpl.
  destruct (isspace c) eqn:Hc.
  - destruct t as [|c' t]; [by simpl; split; [split|]|].
    destruct (isspace c') eqn:Hc'; [done|]. split; [|done].
    intros _. split; [done|]. simpl. by rewrite Hc'.
  - split; [|done]. intros Hc2. simpl in Hc2. congruence.
Qed.

Lemma ws_sub_fixed t : single_spaced t → ws_sub t = t.
Proof.
  induction t as [|c t IH]; [done|]. intros [Hc Ht]. simpl.
  rewrite IH by done. destruct (isspace c); [|done].
  destruct (Hc eq_refl) as [-> Hnext].
  destruct t as [|c' t]; [done|]. by rewrite Hnext.
Qed.

Lemma single_spaced_app t1 t2 : single_spaced (t1 ++ t2) → single_spaced t1.
Proof.
  induction t1 as [|c t1 IH]; [done|]. simpl. intros [Hc Ht]. split; [|by apply IH].
  intros Hsp. destruct (Hc Hsp) as [-> Hnext]. split; [done|].
  by destruct t1.
Qed.

Lemma single_spaced_suffix t1 t2 : single_spaced (t1 ++ t2) → single_spaced t2.
Proof. induction t1 as [|c t1 IH]; [done|]. simpl. intros [_ ?]. by apply IH. Qed.

(** [lstrip] removes a prefix of whitespace and leaves a text that does not
    start with whitespace. *)
Lemma lstrip_spec t :
  ∃ ws, t = ws ++ lstrip t ∧ Forall (λ c, isspace c = true) ws
        ∧ match lstrip t with [] => True | c :: _ => isspace c = false end.
Proof.
  induction t as [|c t (ws & Ht & Hws & Hhd)]; [by exists []|].
  simpl. destruct (isspace c) eqn:Hc.
  - exists (c :: ws). split; [by rewrite <- app_comm_cons, <- Ht|].
    split; [by constructor|done].
  - by exists [].
Qed.

Lemma lstrip_fixed t :
  match t with [] => True | c :: _ => isspace c = false end → lstrip t = t.
Proof. destruct t as [|c t]; [done|]. simpl. by intros ->. Qed.

(** [rstrip] removes a suffix of whitespace and leaves a text that does not
    end with whitespace. *)
Lemma rstrip_spec t :
  ∃ ws, t = rstrip t ++ ws ∧ Forall (λ c, isspace c = true) ws
        ∧ match last (rstrip t) with None => True | Some c => isspace c = false end.
Proof.
  unfold rstrip. destruct (lstrip_spec (reverse t)) as (ws & Ht & Hws & Hhd).
  exists (reverse ws). split; [|split].
  - rewrite <- reverse_app, <- Ht. by rewrite reverse_involutive.
  - by apply Forall_reverse.
  - rewrite last_reverse. by destruct (lstrip (reverse t)).
Qed.

Lemma rstrip_fixed t :
  match last t with None => True | Some c => isspace c = false end →
  rstrip t = t.
Proof.
  intros Hl. unfold rstrip. rewrite lstrip_fixed; [apply reverse_involutive|].
  rewrite <- (reverse_involutive t), last_reverse in Hl.
  by destruct (reverse t).
Qed.

(** What [strip] returns after [ws_sub]: single-spaced, with no whitespace
    at either end. *)
Definition collapsed (r : str) : Prop :=
  single_spaced r
  ∧ match r with [] => True | c :: _ => isspace c = false end
  ∧ match last r with None => True | Some c => isspace c = false end.

Lemma strip_ws_sub_collapsed t : collapsed (strip (ws_sub t)).
Proof.
  unfold strip.
  destruct (lstrip_spec (ws_sub t)) as (ws1 & H1 & _ & Hhd).
  destruct (rstrip_spec (lstrip (ws_sub t))) as (ws2 & H2 & _ & Hlast).
  pose proof (ws_sub_single_spaced t) as Hs.
  rewrite H1 in Hs. apply single_spaced_suffix in Hs.
  rewrite H2 in Hs, Hhd. apply single_spaced_app in Hs.
  split; [done|]. split; [|done].
  by destruct (rstrip (lstrip (ws_sub t))).
Qed.

Lemma collapsed_fixed r : collapsed r → strip (ws_sub r) = r.
Proof.
  intros (Hs & Hhd & Hlast). rewrite ws_sub_fixed by done.
  unfold strip. rewrite lstrip_fixed by done. by apply rstrip_fixed.
Qed.

Lemma remove_nul_fixed t : Forall (λ c, c ≠ 0%N) t → remove_nul t = t.
Proof.
  unfold remove_nul. induction 1 as [|c t Hc Ht IH]; [done|].
  rewrite filter_cons, IH. by destruct (decide (c ≠ 0%N)).
Qed.

Lemma remove_nul_no_nul t : Forall (λ c, c ≠ 0%N) (remove_nul t).
Proof. apply Forall_forall. by intros c [? _]%list_elem_of_filter. Qed.

Lemma ws_sub_no_nul t : Forall (λ c, c ≠ 0%N) t → Forall (λ c, c ≠ 0%N) (ws_sub t).
Proof.
  induction 1 as [|c t Hc Ht IH]; [done|]. simpl.
  destruct (isspace c).
  - destruct t as [|c' t]; [by repeat constructor|].
    destruct (isspace c'); [done|]. by constructor.
  - by constructor.
Qed.

Lemma strip_no_nul t : Forall (λ c, c ≠ 0%N) t → Forall (λ c, c ≠ 0%N) (strip t).
Proof.
  intros Ht. unfold strip.
  destruct (lstrip_spec t) as (ws1 & H1 & _).
  destruct (rstrip_spec (lstrip t)) as (ws2 & H2 & _).
  rewrite H1, H2 in Ht.
  by apply Forall_app in Ht as [_ [? _]%Forall_app].
Qed.

Section normalize_text.
Context `{Externals}.

(** The text [normalize_text] returns has no NUL, and is collapsed when
    whitespace collapsing is on. *)
Lemma normalize_text_result text form collapse r :
  normalize_text text form collapse = Ok r →
  Forall (λ c, c ≠ 0%N) r ∧ (truthy collapse = true → collapsed r).
Proof.
  unfold normalize_text. destruct text as [t|]; [|by intros [= <-]].
  destruct (unicode_step form t) as [t1|e]; [|done]. simpl.
  intros [= <-]. destruct (truthy collapse).
  - split; [|intros _; apply strip_ws_sub_collapsed].
    apply strip_no_nul, ws_sub_no_nul, remove_nul_no_nul.
  - split; [apply remove_nul_no_nul|done].
Qed.

(** The second and third statements of [normalize_text] change nothing in
    a text that [normalize_text] returned. *)
Lemma normalize_text_again text form collapse r :
  normalize_text text form collapse = Ok r →
  unicode_step form r = Ok r →
  normalize_text (Some r) form collapse = Ok r.
Proof.
  intros [Hnul Hcol]%normalize_text_result Hstep.
  unfold normalize_text. rewrite Hstep. simpl.
  rewrite remove_nul_fixed by done.
  destruct (truthy collapse); [|done].
  by rewrite collapsed_fixed by auto.
Qed.

End normalize_text.

Section normalize_twice.
Context `{Externals}.

Lemma unicode_step_skipped form t :
  unicode_form_skipped form = true → unicode_step form t = Ok t.
Proof.
  unfold unicode_form_skipped, unicode_step.
  destruct form as [|b|z|x|s|l|d]; try (by intros ->%negb_true_iff).
  cbn [truthy]. destruct (bool_decide (s = [])); [done|]. simpl. by intros ->.
Qed.

(** C7 (amended): applying [normalize_text] to its own result returns that
    result whenever the Unicode normalisation leaves the result as it is;
    that is so, for every text and both settings of whitespace collapsing,
    when the form is unset or ["none"] in any case, and then the first
    application returns a text. *)
Theorem normalize_text_idempotent (text : option str) (form collapse : value) :
  (∀ r, normalize_text text form collapse = Ok r →
        unicode_step form r = Ok r →
        normalize_text (Some r) form collapse = Ok r)
  ∧ (unicode_form_skipped form = true →
     ∃ r, normalize_text text form collapse = Ok r
          ∧ normalize_text (Some r) form collapse = Ok r).
Proof.
  split; [intros r; apply normalize_text_again|].
  intros Hskip.
  assert (∃ r, normalize_text text form collapse = Ok r) as [r Hr].
  { unfold normalize_text. destruct text as [t|]; [|by eexists].
    rewrite unicode_step_skipped by done. by eexists. }
  exists r. split; [done|].
  eapply normalize_text_again; [done|]. by apply unicode_step_skipped.
Qed.

End normalize_twice.

(** Normalising twice under NFC, on a text that is in normal form once its
    NULs are removed: U+0020 U+0065 U+0301 U+0000 U+0020 U+0020 U+0078
    gives U+00E9 U+0020 U+0078 both times. *)
Lemma normalize_text_idempotent_example :
  normalize_text (H:=sample_env) (Some [32; 101; 769; 0; 32; 32; 120]%N)
    (VStr (py "NFC")) (VBool true) = Ok [233; 32; 120]%N
  ∧ normalize_text (H:=sample_env) (Some [233; 32; 120]%N)
      (VStr (py "NFC")) (VBool true) = Ok [233; 32; 120]%N.
Proof.
  split; [reflexivity|].
  exact (proj1 (normalize_text_idempotent (H:=sample_env)
                  (Some [32; 101; 769; 0; 32; 32; 120]%N)
                  (VStr (py "NFC")) (VBool true))
           [233; 32; 120]%N eq_refl eq_refl).
Defined.

(** C7, as it is stated for every form, fails under NFC: U+0000 between
    U+0065 and U+0301 keeps the normalisation from composing them, the NUL
    is removed after it, and the second application composes the pair. *)
Lemma normalize_text_not_idempotent :
  normalize_text (H:=sample_env) (Some [101; 0; 769]%N)
    (VStr (py "NFC")) (VBool true) = Ok [101; 769]%N
  ∧ normalize_text (H:=sample_env) (Some [101; 769]%N)
      (VStr (py "NFC")) (VBool true) = Ok [233]%N
  ∧ ¬ (∀ (E : Externals) t form collapse r,
         normalize_text (H:=E) (Some t) form collapse = Ok r →
         normalize_text (H:=E) (Some r) form collapse = Ok r).
Proof.
  split; [reflexivity|]. split; [reflexivity|].
  intros Hidem.
  specialize (Hidem sample_env [101; 0; 769]%N (VStr (py "NFC")) (VBool true)
                [101; 769]%N eq_refl).
  discriminate Hidem.
Qed.

(** ** [ProcessingPipeline.process_doc] *)

Lemma metadata_of_set k v extra_md d :
  metadata_of (set_metadata k v extra_md d).1 (set_metadata k v extra_md d).2
  = <[k := v]> (metadata_of extra_md d).
Proof. unfold set_metadata, metadata_of. by destruct d as [?????? []]. Qed.

(** Setting a key of the metadata leaves the other fields of the document
    as they are. *)
Lemma set_metadata_fields k v extra_md d :
  let d' := (set_metadata k v extra_md d).2 in
  doc_id d' = doc_id d ∧ doc_text d' = doc_text d
  ∧ doc_source d' = doc_source d ∧ doc_created d' = doc_created d
  ∧ doc_added d' = doc_added d ∧ doc_version d' = doc_version d.
Proof. unfold set_metadata. by destruct d as [?????? []]. Qed.

Section process_doc.
Context `{Externals}.

(** The normalisation changes the text only. *)
Lemma normalize_doc_fields p d d1 :
  normalize_doc p d = Ok d1 →
  doc_id d1 = doc_id d ∧ doc_source d1 = doc_source d
  ∧ doc_created d1 = doc_created d ∧ doc_added d1 = doc_added d
  ∧ doc_version d1 = doc_version d ∧ doc_metadata d1 = doc_metadata d.
Proof.
  unfold normalize_doc. destruct (truthy _); [|by intros [= <-]].
  destruct (normalize_text _ _ _) as [t|e]; [|done].
  by intros [= <-].
Qed.

(** [process_doc] when processing is enabled: the normalisation, then the
    masking when the toolkit is enabled. *)
Lemma process_doc_enabled self extra_md d p :
  _get_processing_cfg (self_cfg self) = Ok (VDict p) →
  truthy (dict_get p (py "enabled") (VBool false)) = true →
  process_doc self extra_md d =
    d1 ← normalize_doc p d;
    if truthy (dict_get (dolma_cfg p) (py "enabled") (VBool false)) then
      mask_doc self (dolma_cfg p) extra_md d1
    else Ok (self, extra_md, d1).
Proof.
  intros Hp Hen. unfold process_doc. rewrite Hp, bind_Ok.
  cbn [method_get]. rewrite bind_Ok, Hen. done.
Qed.

(** [process_doc] when processing is not enabled returns the document. *)
Lemma process_doc_disabled self extra_md d p :
  _get_processing_cfg (self_cfg self) = Ok (VDict p) →
  truthy (dict_get p (py "enabled") (VBool false)) = false →
  process_doc self extra_md d = Ok (self, extra_md, d).
Proof.
  intros Hp Hen. unfold process_doc. rewrite Hp, bind_Ok.
  cbn [method_get]. by rewrite bind_Ok, Hen.
Qed.

(** C6: when processing and the toolkit are enabled and the tagging and
    masking step raises an exception [e] (an [Exception]), [process_doc]
    returns the document normally: its text is the one it had before the
    masking attempt (the normalised text), its metadata has
    [dolma_toolkit_error] set to [str(e)], and nothing else has changed. *)
Theorem process_doc_masking_error self extra_md d p d1 cache e :
  _get_processing_cfg (self_cfg self) = Ok (VDict p) →
  truthy (dict_get p (py "enabled") (VBool false)) = true →
  normalize_doc p d = Ok d1 →
  truthy (dict_get (dolma_cfg p) (py "enabled") (VBool false)) = true →
  pii_try (_masker_cache self) (dolma_cfg p) d1 = (cache, Err e) →
  isinstance_Exception e = true →
  ∃ self' md' d',
    process_doc self extra_md d = Ok (self', md', d')
    ∧ doc_text d' = doc_text d1
    ∧ metadata_of md' d'
      = <[py "dolma_toolkit_error" := VStr (exn_str e)]> (metadata_of extra_md d)
    ∧ doc_id d' = doc_id d ∧ doc_source d' = doc_source d
    ∧ doc_created d' = doc_created d ∧ doc_added d' = doc_added d
    ∧ doc_version d' = doc_version d.
Proof.
  intros Hp Hen Hnorm Hdt Htry Hexn.
  rewrite (process_doc_enabled _ _ _ _ Hp Hen), Hnorm, bind_Ok, Hdt.
  unfold mask_doc. rewrite Htry, Hexn.
  pose proof (metadata_of_set (py "dolma_toolkit_error") (VStr (exn_str e))
                extra_md d1) as Hmd.
  pose proof (set_metadata_fields (py "dolma_toolkit_error")
                (VStr (exn_str e)) extra_md d1) as Hf.
  destruct (set_metadata _ _ extra_md d1) as [md1 d2]. simpl in Hmd, Hf.
  destruct (normalize_doc_fields _ _ _ Hnorm) as (?&?&?&?&?&Hm).
  destruct Hf as (?&?&?&?&?&?).
  eexists _, md1, d2. split; [done|]. split; [done|]. split.
  { rewrite Hmd. unfold metadata_of. by rewrite Hm. }
  repeat split; congruence.
Qed.

End process_doc.

(** A document processed with a tagger name the registry refuses: the
    exception is recorded and the text is the normalised one. *)
Lemma process_doc_masking_error_example :
  ∃ self' md' d',
    process_doc (H:=sample_env) (new_ProcessingPipeline (sample_cfg (py "missing")))
      ∅ (sample_doc (py "call  555")) = Ok (self', md', d')
    ∧ doc_text d' = py "call 555"
    ∧ metadata_of md' d'
      = <[py "dolma_toolkit_error" := VStr (py "unknown tagger")]> ∅
    ∧ doc_id d' = py "doc-1" ∧ doc_source d' = py "ds"
    ∧ doc_created d' = VStr [] ∧ doc_added d' = VStr []
    ∧ doc_version d' = VNone.
Proof.
  apply (process_doc_masking_error (H:=sample_env)
           (new_ProcessingPipeline (sample_cfg (py "missing"))) ∅
           (sample_doc (py "call  555")) (sample_processing (py "missing"))
           (sample_doc (py "call 555")) ∅
           (Raise (OtherException "TaggerNotFound") (py "unknown tagger")));
    by vm_compute.
Defined.

Section masking_step.
Context `{Externals}.

(** With a [str] token the loop of [mask_spans] collects strings only,
    and the join raises nothing, whatever the spans. *)
Lemma mask_loop_all_strs (t token : str) merged : ∀ (ps : list str) cur,
  ∃ ps' cur', mask_loop t (VStr token) merged (VStr <$> ps) cur = (VStr <$> ps', cur').
Proof.
  induction merged as [|[s e] merged IH]; intros ps cur; [by exists ps, cur|].
  cbn [mask_loop].
  destruct (IH ((if cur <? s then ps ++ [slice t cur (Some s)] else ps) ++ [token]) e)
    as (ps' & cur' & Hloop).
  exists ps', cur'. rewrite <- Hloop. f_equal.
  destruct (cur <? s); by rewrite !fmap_app.
Qed.

Lemma mask_spans_str_token (t token : str) spans :
  ∃ r, mask_spans t spans (VStr token) = Ok r.
Proof.
  unfold mask_spans. destruct (_merge_spans spans) as [|x merged]; [by eexists|].
  destruct (mask_loop_all_strs t token (x :: merged) [] 0) as (ps & cur & Hloop).
  change (VStr <$> []) with (@nil value) in Hloop. rewrite Hloop.
  unfold str_join. destruct (cur <? _).
  - change ((VStr <$> ps) ++ [VStr (slice t cur None)])
      with ((VStr <$> ps) ++ (VStr <$> [slice t cur None])).
    rewrite <- fmap_app, str_join_from_strs. by eexists.
  - rewrite str_join_from_strs. by eexists.
Qed.

(** C8: when processing and the toolkit are enabled, the tagger returns a
    non-empty list of spans and the configured mask token is a string,
    [process_doc] sets [pii_masked] to true and [pii_span_count] to the
    length of that list, the raw one, and the text of the document is what
    [mask_spans] makes of the normalised text: for spans that are
    character offsets, that text with the token in place of the characters
    each merged span covers. *)
Theorem process_doc_masks self extra_md d p d1 masker cache spans token :
  _get_processing_cfg (self_cfg self) = Ok (VDict p) →
  truthy (dict_get p (py "enabled") (VBool false)) = true →
  normalize_doc p d = Ok d1 →
  truthy (dict_get (dolma_cfg p) (py "enabled") (VBool false)) = true →
  get_masker (_masker_cache self)
    (dict_get (dolma_cfg p) (py "pii_tagger") (VStr (py "pii_regex_v2")))
  = Ok (masker, cache) →
  find_pii_spans masker (doc_id d1) (doc_text d1) (doc_source d1) = Ok spans →
  spans ≠ [] →
  dict_get (dolma_cfg p) (py "mask_token") (VStr (py "<PII>")) = VStr token →
  ∃ self' md' d',
    process_doc self extra_md d = Ok (self', md', d')
    ∧ metadata_of md' d' !! py "pii_masked" = Some (VBool true)
    ∧ metadata_of md' d' !! py "pii_span_count"
      = Some (VInt (Z.of_nat (length spans)))
    ∧ mask_spans (doc_text d1) spans (VStr token) = Ok (doc_text d')
    ∧ (Forall (λ x, valid_span x → 0 ≤ x.2) spans →
       doc_text d' = masked_text (doc_text d1) token (_merge_spans spans)).
Proof.
  intros Hp Hen Hnorm Hdt Hmasker Hfind Hne Htok.
  destruct (mask_spans_str_token (doc_text d1) token spans) as [t' Hmask].
  rewrite (process_doc_enabled _ _ _ _ Hp Hen), Hnorm, bind_Ok, Hdt.
  unfold mask_doc, pii_try. rewrite Hmasker, Hfind, bind_Ok, Htok.
  destruct spans as [|x spans]; [done|]. rewrite Hmask, bind_Ok.
  set (n := Z.of_nat _).
  pose proof (metadata_of_set (py "pii_masked") (VBool true) extra_md
                (with_text d1 t')) as Hmd1.
  pose proof (set_metadata_fields (py "pii_masked") (VBool true) extra_md
                (with_text d1 t')) as Hf1.
  destruct (set_metadata _ _ extra_md _) as [md1 d3]. simpl in Hmd1, Hf1.
  pose proof (metadata_of_set (py "pii_span_count") (VInt n) md1 d3) as Hmd2.
  pose proof (set_metadata_fields (py "pii_span_count") (VInt n) md1 d3) as Hf2.
  destruct (set_metadata _ _ md1 d3) as [md2 d4]. simpl in Hmd2, Hf2.
  destruct Hf1 as (_ & Ht1 & _), Hf2 as (_ & Ht2 & _).
  eexists _, md2, d4. split; [done|].
  assert (doc_text d4 = t') as -> by congruence.
  rewrite Hmd2, Hmd1. split; [|split; [|split; [done|]]].
  - rewrite lookup_insert_ne by done. apply lookup_insert_eq.
  - apply lookup_insert_eq.
  - intros Hoff. rewrite mask_spans_masked_text in Hmask by done.
    by injection Hmask.
Qed.

End masking_step.

(** A document with three digits, processed by the sample tagger, which
    returns one span per digit: three raw spans, merged to one. *)
Lemma process_doc_masks_example :
  ∃ self' md' d',
    process_doc (H:=sample_env)
      (new_ProcessingPipeline (sample_cfg (py "pii_regex_v2")))
      ∅ (sample_doc (py "call   555 now")) = Ok (self', md', d')
    ∧ metadata_of md' d' !! py "pii_masked" = Some (VBool true)
    ∧ metadata_of md' d' !! py "pii_span_count" = Some (VInt 3)
    ∧ mask_spans (py "call 555 now") [(5, 6); (6, 7); (7, 8)] (VStr (py "<PII>"))
      = Ok (doc_text d')
    ∧ doc_text d' = py "call <PII> now".
Proof.
  pose proof (process_doc_masks (H:=sample_env)
                (new_ProcessingPipeline (sample_cfg (py "pii_regex_v2"))) ∅
                (sample_doc (py "call   555 now"))
                (sample_processing (py "pii_regex_v2"))
                (sample_doc (py "call 555 now"))
                {| tagger_name := VStr (py "pii_regex_v2");
                   tagger_tag := sample_tagger |}
                (<[Some (inr (py "pii_regex_v2")) :=
                     {| tagger_name := VStr (py "pii_regex_v2");
                        tagger_tag := sample_tagger |}]> ∅)
                [(5, 6); (6, 7); (7, 8)] (py "<PII>")
                ltac:(by vm_compute) ltac:(by vm_compute) ltac:(by vm_compute)
                ltac:(by vm_compute) ltac:(reflexivity) ltac:(by vm_compute)
                ltac:(done) ltac:(by vm_compute)) as Hex.
  destruct Hex as (self' & md' & d' & Hdoc & Hmasked & Hcount & Hmask & Htext).
  exists self', md', d'. split; [exact Hdoc|]. split; [exact Hmasked|].
  split; [exact Hcount|]. split; [exact Hmask|].
  rewrite Htext; [by vm_compute|].
  repeat constructor; unfold valid_span; simpl; lia.
Defined.

(** ** [process_stream] *)

Section process_stream.
Context `{Externals}.

(** [process_doc] changes the text and the metadata only, and keeps the
    configuration of the pipeline. *)
Lemma process_doc_fields self extra_md d self' md' d' :
  process_doc self extra_md d = Ok (self', md', d') →
  self_cfg self' = self_cfg self
  ∧ doc_id d' = doc_id d ∧ doc_source d' = doc_source d
  ∧ doc_created d' = doc_created d ∧ doc_added d' = doc_added d
  ∧ doc_version d' = doc_version d.
Proof.
  unfold process_doc.
  destruct (_get_processing_cfg _) as [pcfg|]; [|done]. rewrite bind_Ok.
  destruct (method_get pcfg _ _) as [en|]; [|done]. rewrite bind_Ok.
  destruct (negb (truthy en)); [by intros [= <- <- <-]|].
  destruct (normalize_doc _ d) as [d1|] eqn:Hnorm; [|done]. rewrite bind_Ok.
  destruct (normalize_doc_fields _ _ _ Hnorm) as (?&?&?&?&?&?).
  destruct (truthy _); [|intros [= <- <- <-]; by repeat split].
  unfold mask_doc. destruct (pii_try _ _ d1) as [cache [[[t n]|]|e]].
  - pose proof (set_metadata_fields (py "pii_masked") (VBool true) extra_md
                  (with_text d1 t)) as Hf1.
    destruct (set_metadata _ _ extra_md _) as [md1 d3].
    pose proof (set_metadata_fields (py "pii_span_count") (VInt n) md1 d3) as Hf2.
    destruct (set_metadata _ _ md1 d3) as [md2 d4]. simpl in Hf1, Hf2.
    intros [= <- <- <-]. simpl. intuition congruence.
  - intros [= <- <- <-]. by repeat split.
  - destruct (isinstance_Exception e); [|done].
    pose proof (set_metadata_fields (py "dolma_toolkit_error")
                  (VStr (exn_str e)) extra_md d1) as Hf.
    destruct (set_metadata _ _ extra_md d1) as [md1 d2]. simpl in Hf.
    intros [= <- <- <-]. simpl. intuition congruence.
Qed.

End process_stream.

Lemma shard_files_app e1 e2 : shard_files (e1 ++ e2) = shard_files e1 ++ shard_files e2.
Proof. unfold shard_files. apply bind_app. Qed.

Lemma shard_objects_app e1 e2 :
  shard_objects (e1 ++ e2) = shard_objects e1 ++ shard_objects e2.
Proof. unfold shard_objects. apply bind_app. Qed.

Section stream_loop.
Context `{Externals} `{Sinks}.
Context (dataset_name : str) (shard_size : Z) (cfg : value) (dcfg : dict).
Context (local_subdir s3_subdir : str).
Context (mode : value) (local_dir : str) (bucket s3_prefix : value).
Hypothesis Hstorage : storage_configured cfg mode local_dir bucket s3_prefix.

#[local] Abbreviation step :=
  (stream_step dataset_name shard_size cfg dcfg local_subdir s3_subdir).
#[local] Abbreviation loop :=
  (stream_loop dataset_name shard_size cfg dcfg local_subdir s3_subdir).
#[local] Abbreviation events :=
  (shard_events mode local_dir local_subdir bucket s3_prefix s3_subdir).
#[local] Abbreviation of_record := (doc_of_record dataset_name dcfg).

(** A call of [save_records] that returns has handed the records to the
    sinks of the storage mode, the file before the object. *)
Lemma save_records_returns records (m : value) local_path (b : value) s3_key
    written u :
  save_records records m local_path b s3_key = (written, Ok u) →
  written
  = (if eq_str m (py "local") || eq_str m (py "both")
     then [LocalFile local_path records] else [])
    ++ (if eq_str m (py "s3") || eq_str m (py "both")
        then [S3Object b s3_key records] else []).
Proof.
  unfold save_records.
  destruct (eq_str m (py "local") || eq_str m (py "both"));
    destruct (eq_str m (py "s3") || eq_str m (py "both"));
    try destruct (save_jsonl_local_raises _ _);
    try destruct (upload_jsonl_to_s3_raises _ _ _);
    simpl; try done; by intros [= <-].
Qed.

Lemma shard_arguments_ok i :
  shard_arguments cfg local_subdir s3_subdir i
  = Ok (mode, path_join local_dir [local_subdir; shard_name i], bucket,
        py_str s3_prefix ++ py "/" ++ s3_subdir ++ py "/" ++ shard_name i).
Proof.
  destruct Hstorage as (storage & aws & H1 & H2 & H3 & H4 & H5 & H6).
  unfold shard_arguments.
  rewrite H1, bind_Ok, H2, bind_Ok, H3, bind_Ok. cbn [os_path_join].
  by rewrite bind_Ok, H4, bind_Ok, H5, bind_Ok, H6, bind_Ok.
Qed.

Lemma save_shard_returns st out u :
  save_shard cfg local_subdir s3_subdir st = (out, Ok u) →
  out = sinks st ++ events (shard_id st) (snapshot (extra_md st) <$> buffer st).
Proof.
  unfold save_shard. rewrite shard_arguments_ok.
  destruct (save_records _ _ _ _ _) as [written r] eqn:Hsave.
  intros [= <- ->]. by apply save_records_returns in Hsave as ->.
Qed.

Lemma snapshot_of_record md r d : of_record r d → of_record r (snapshot md d).
Proof. intros (md0 & d0 & ?). by exists md0, d0. Qed.

(** One turn of the loop that raises nothing: the document of the record
    joins the buffer, and the buffer is written when it has reached the
    shard size. *)
Lemma stream_step_returns st r st' :
  step st r = (st', None) →
  total st' = total st + 1
  ∧ ∃ d, of_record r d
    ∧ if bool_decide (shard_size ≤ Z.of_nat (length (buffer st) + 1)) then
        buffer st' = [] ∧ shard_id st' = shard_id st + 1
        ∧ sinks st' = sinks st
            ++ events (shard_id st)
                 (snapshot (extra_md st') <$> (buffer st ++ [d]))
      else
        buffer st' = buffer st ++ [d] ∧ shard_id st' = shard_id st
        ∧ sinks st' = sinks st.
Proof.
  unfold stream_step.
  destruct (_build_doc dataset_name r dcfg (extra_md st)) as [d|] eqn:Hbuild;
    [|done].
  destruct (process_doc (pipe st) (extra_md st) d) as [[[pipe' md'] d']|] eqn:Hout;
    [|done].
  destruct (process_doc_fields _ _ _ _ _ _ Hout) as (Hc & Hid & Hsrc & Hcr & Had & Hv).
  assert (of_record r d') as Hrec.
  { exists (extra_md st), d. repeat split; done. }
  cbn [buffer]. rewrite length_app. cbn [length].
  destruct (bool_decide _) eqn:Hfull.
  - destruct (save_shard _ _ _ _) as [out [u|e]] eqn:Hsave; [|done].
    apply save_shard_returns in Hsave. intros [= <-].
    cbn [buffer shard_id total pipe extra_md sinks] in *.
    split; [done|]. by exists d'.
  - intros [= <-]. cbn [buffer shard_id total pipe extra_md sinks].
    split; [done|]. by exists d'.
Qed.

Lemma stream_loop_app st l1 l2 :
  loop st (l1 ++ l2) =
    match loop st l1 with
    | (st', None) => loop st' l2
    | r => r
    end.
Proof.
  revert st. induction l1 as [|r l1 IH]; intros st; [done|]. simpl.
  destruct (step st r) as [st1 [e|]]; [done|apply IH].
Qed.

Lemma stream_loop_app_returns st l1 l2 st' :
  loop st (l1 ++ l2) = (st', None) →
  ∃ st1, loop st l1 = (st1, None) ∧ loop st1 l2 = (st', None).
Proof.
  rewrite stream_loop_app. destruct (loop st l1) as [st1 [e|]]; [done|].
  intros Hloop. by exists st1.
Qed.

(** While the buffer stays below the shard size nothing is written: the
    documents of the records join the buffer. *)
Lemma stream_loop_fill rs : ∀ st st',
  loop st rs = (st', None) →
  Z.of_nat (length (buffer st) + length rs) < shard_size →
  ∃ docs,
    buffer st' = buffer st ++ docs
    ∧ Forall2 of_record rs docs
    ∧ shard_id st' = shard_id st
    ∧ total st' = total st + Z.of_nat (length rs)
    ∧ sinks st' = sinks st.
Proof.
  induction rs as [|r rs IH]; intros st st' Hloop Hlen.
  { simpl in Hloop. injection Hloop as <-. exists [].
    rewrite app_nil_r. simpl. repeat split; [done|lia]. }
  simpl in Hloop. destruct (step st r) as [st1 [e|]] eqn:Hstep; [done|].
  destruct (stream_step_returns st r st1 Hstep) as (Htot & d & Hd & Hcase).
  rewrite bool_decide_eq_false_2 in Hcase by (simpl in Hlen; lia).
  destruct Hcase as (Hbuf & Hsid & Hsinks).
  destruct (IH st1 st' Hloop) as (docs & Hbuf' & Hdocs & Hsid' & Htot' & Hsinks').
  { rewrite Hbuf, length_app. simpl in *. lia. }
  exists (d :: docs).
  split; [by rewrite Hbuf', Hbuf, <- app_assoc|]. split; [by constructor|].
  simpl length. repeat split; [congruence|lia|congruence].
Qed.

(** From an empty buffer, as many records as the shard size make one
    shard: it is written when the last of them has been processed, under
    the current shard number, and the buffer is empty again. *)
Lemma stream_loop_full rs st st' :
  loop st rs = (st', None) → buffer st = [] →
  Z.of_nat (length rs) = shard_size → 1 ≤ shard_size →
  ∃ docs,
    buffer st' = []
    ∧ Forall2 of_record rs docs
    ∧ shard_id st' = shard_id st + 1
    ∧ total st' = total st + shard_size
    ∧ sinks st' = sinks st ++ events (shard_id st) docs.
Proof.
  intros Hloop Hbuf Hlen Hsize.
  destruct rs as [|r0 rs0] using rev_ind; [simpl in Hlen; lia|]. clear IHrs0.
  rewrite length_app in Hlen. simpl in Hlen.
  apply stream_loop_app_returns in Hloop as (st1 & Hloop1 & Hloop2).
  destruct (stream_loop_fill rs0 st st1 Hloop1)
    as (docs & Hbuf1 & Hdocs & Hsid1 & Htot1 & Hsinks1).
  { rewrite Hbuf. simpl. lia. }
  simpl in Hloop2. destruct (step st1 r0) as [st2 [e|]] eqn:Hstep; [done|].
  injection Hloop2 as ->.
  destruct (stream_step_returns st1 r0 st' Hstep) as (Htot' & d & Hd & Hcase).
  rewrite Hbuf in Hbuf1. simpl in Hbuf1.
  pose proof (Forall2_length _ _ _ Hdocs) as Hlen'.
  rewrite bool_decide_eq_true_2 in Hcase by (rewrite Hbuf1; lia).
  destruct Hcase as (Hbuf' & Hsid' & Hsinks').
  exists (snapshot (extra_md st') <$> (docs ++ [d])).
  split; [done|]. split.
  { rewrite fmap_app. apply Forall2_app.
    - apply Forall2_fmap_r. eapply Forall2_impl; [exact Hdocs|].
      intros. by apply snapshot_of_record.
    - repeat constructor. by apply snapshot_of_record. }
  repeat split; [lia|lia|].
  by rewrite Hsinks', Hsinks1, Hsid1, Hbuf1.
Qed.

(** From an empty buffer, the loop writes one shard for every full
    [shard_size] records, numbered from the current shard number on, and
    keeps the remaining records in the buffer. *)
Lemma stream_loop_shards m : ∀ rs st st',
  (length rs ≤ m)%nat → loop st rs = (st', None) → buffer st = [] →
  1 ≤ shard_size →
  ∃ shards,
    Z.of_nat (length (buffer st')) = Z.of_nat (length rs) mod shard_size
    ∧ shard_id st' = shard_id st + Z.of_nat (length shards)
    ∧ Z.of_nat (length shards) = Z.of_nat (length rs) / shard_size
    ∧ total st' = total st + Z.of_nat (length rs)
    ∧ sinks st'
      = sinks st
        ++ concat (imap (λ i docs, events (shard_id st + Z.of_nat i) docs) shards)
    ∧ Forall (λ docs, Z.of_nat (length docs) = shard_size) shards.
Proof.
  induction m as [|m IH]; intros rs st st' Hm Hloop Hbuf Hsize.
  - destruct rs; [|simpl in Hm; lia]. simpl in Hloop. injection Hloop as <-.
    exists []. simpl.
    rewrite Hbuf, app_nil_r, Z.mod_0_l, Z.div_0_l by lia.
    repeat split; (done || lia).
  - destruct (decide (Z.of_nat (length rs) < shard_size)) as [Hlt|Hge].
    + destruct (stream_loop_fill rs st st' Hloop)
        as (docs & Hbuf' & Hdocs & Hsid & Htot & Hsinks).
      { rewrite Hbuf. simpl. lia. }
      exists []. simpl. rewrite Hbuf', Hbuf, app_nil_r. simpl.
      rewrite <- (Forall2_length _ _ _ Hdocs).
      rewrite Z.mod_small, Z.div_small by lia.
      repeat split; (done || lia).
    + set (k := Z.to_nat shard_size).
      rewrite <- (take_drop k rs) in Hloop.
      apply stream_loop_app_returns in Hloop as (st1 & Hloop1 & Hloop2).
      destruct (stream_loop_full (take k rs) st st1 Hloop1 Hbuf)
        as (docs & Hbuf1 & Hdocs & Hsid1 & Htot1 & Hsinks1);
        [rewrite length_take; lia|done|].
      destruct (IH (drop k rs) st1 st') as
        (shards & Hbuf' & Hsid & Hdiv & Htot & Hsinks & Hall);
        [rewrite length_drop; lia|done..|].
      exists (docs :: shards).
      rewrite length_drop in Hbuf', Hdiv, Htot.
      replace (Z.of_nat (length rs))
        with (Z.of_nat (length rs - k) + 1 * shard_size) at 1 2 by lia.
      rewrite Z_mod_plus_full, Z_div_plus_full by lia.
      split; [done|]. simpl length.
      split; [lia|]. split; [lia|]. split; [lia|].
      split.
      * rewrite Hsinks, Hsinks1, imap_cons, <- app_assoc. simpl.
        rewrite Z.add_0_r. do 3 f_equal. apply imap_ext. intros i x _.
        simpl. f_equal. lia.
      * constructor; [|done].
        rewrite <- (Forall2_length _ _ _ Hdocs), length_take. lia.
Qed.

Lemma shard_files_events i docs :
  eq_str mode (py "local") || eq_str mode (py "both") = true →
  shard_files (events i docs)
  = [(path_join local_dir [local_subdir; shard_name i], docs)].
Proof.
  intros Hm. unfold shard_events, shard_written. rewrite Hm.
  by destruct (eq_str mode (py "s3") || eq_str mode (py "both")).
Qed.

Lemma shard_objects_events i docs :
  eq_str mode (py "s3") || eq_str mode (py "both") = true →
  shard_objects (events i docs)
  = [(bucket, py_str s3_prefix ++ py "/" ++ s3_subdir ++ py "/" ++ shard_name i,
      docs)].
Proof.
  intros Hm. unfold shard_events, shard_written. rewrite Hm.
  by destruct (eq_str mode (py "local") || eq_str mode (py "both")).
Qed.

Lemma shard_files_concat (f : nat → list doc → list sink_event) shards :
  (∀ i docs, length (shard_files (f i docs)) = 1%nat) →
  length (shard_files (concat (imap f shards))) = length shards.
Proof.
  revert f. induction shards as [|docs shards IH]; intros f Hf; [done|].
  rewrite imap_cons. simpl. unfold shard_files in *.
  rewrite bind_app, length_app, Hf, IH by (intros; apply Hf). done.
Qed.

Lemma shard_objects_concat (f : nat → list doc → list sink_event) shards :
  (∀ i docs, length (shard_objects (f i docs)) = 1%nat) →
  length (shard_objects (concat (imap f shards))) = length shards.
Proof.
  revert f. induction shards as [|docs shards IH]; intros f Hf; [done|].
  rewrite imap_cons. simpl. unfold shard_objects in *.
  rewrite bind_app, length_app, Hf, IH by (intros; apply Hf). done.
Qed.

(** A call of [process_stream] that returns: the metadata was built, the
    loop came to the end of the stream, and the buffer that remained, if
    any, was written. *)
Lemma process_stream_returns run_md rs evs n count :
  process_stream dataset_name rs shard_size cfg dcfg run_md
    local_subdir s3_subdir = (evs, Ok (n, count)) →
  ∃ md st,
    build_extra_md cfg dcfg run_md = Ok md
    ∧ loop {| buffer := []; shard_id := 0; total := 0;
              pipe := new_ProcessingPipeline cfg;
              extra_md := md; sinks := [] |} rs = (st, None)
    ∧ n = total st ∧ count = shard_id st + 1
    ∧ (buffer st = [] ∧ evs = sinks st
       ∨ buffer st ≠ []
         ∧ ∃ u, save_shard cfg local_subdir s3_subdir st = (evs, Ok u)).
Proof.
  unfold process_stream. destruct (build_extra_md _ _ _) as [md|]; [|done].
  destruct (stream_loop _ _ _ _ _ _ _ _) as [st [e|]] eqn:Hloop; [done|].
  destruct (buffer st) as [|d ds] eqn:Hb.
  - intros [= <- <- <-]. exists md, st. repeat split; try done. by left.
  - destruct (save_shard _ _ _ _) as [out [u|e]] eqn:Hsave; [|done].
    intros [= <- <- <-]. exists md, st. repeat split; try done.
    right. split; [by rewrite Hb|by exists u].
Qed.

(** What [process_stream] has written when it returns, and what it
    returns: the shards are numbered from 0, there is one for every full
    [shard_size] documents and one for the documents that remain, and the
    second component of the result is the number of full shards plus
    one. *)
Lemma process_stream_shards run_md rs evs n count :
  process_stream dataset_name rs shard_size cfg dcfg run_md
    local_subdir s3_subdir = (evs, Ok (n, count)) →
  1 ≤ shard_size →
  n = Z.of_nat (length rs)
  ∧ count = Z.of_nat (length rs) / shard_size + 1
  ∧ ∃ shards,
      evs = concat (imap (λ i docs, events (Z.of_nat i) docs) shards)
      ∧ Z.of_nat (length shards) = shards_for (Z.of_nat (length rs)) shard_size.
Proof.
  intros Hps Hsize.
  destruct (process_stream_returns _ _ _ _ _ Hps)
    as (md & st' & Hmd & Hloop & -> & -> & Hend).
  destruct (stream_loop_shards (length rs) rs _ st' (le_n _) Hloop)
    as (shards & Hbuf & Hsid & Hdiv & Htot & Hsinks & Hall);
    [done..|].
  simpl in Hsid, Htot, Hsinks.
  rewrite (imap_ext _ (λ i docs, events (Z.of_nat i) docs)) in Hsinks by done.
  rewrite Htot, Hsid, Hdiv. split; [done|]. split; [done|].
  unfold shards_for.
  destruct Hend as [[Hb ->]|[Hb [u Hsave]]].
  - exists shards. split; [done|].
    rewrite Hb in Hbuf. simpl in Hbuf. rewrite <- Hbuf. simpl. lia.
  - apply save_shard_returns in Hsave as ->.
    exists (shards ++ [snapshot (extra_md st') <$> buffer st']). split.
    + rewrite Hsinks, imap_app, concat_app. simpl.
      by rewrite app_nil_r, Nat.add_0_r, Hsid, Hdiv.
    + rewrite length_app. simpl length.
      destruct (Z.eqb_spec (Z.of_nat (length rs) mod shard_size) 0) as [Hz|];
        [|lia].
      rewrite Hz in Hbuf. destruct (buffer st'); [done|simpl in Hbuf; lia].
Qed.

(** A stream of exactly [shard_size] records: one shard, number 0. *)
Lemma process_stream_one_shard run_md rs evs n count :
  process_stream dataset_name rs shard_size cfg dcfg run_md
    local_subdir s3_subdir = (evs, Ok (n, count)) →
  Z.of_nat (length rs) = shard_size → 1 ≤ shard_size →
  n = shard_size
  ∧ ∃ docs, evs = events 0 docs ∧ Forall2 of_record rs docs.
Proof.
  intros Hps Hlen Hsize.
  destruct (process_stream_returns _ _ _ _ _ Hps)
    as (md & st' & Hmd & Hloop & -> & -> & Hend).
  destruct (stream_loop_full rs _ st' Hloop)
    as (docs & Hbuf & Hdocs & Hsid & Htot & Hsinks); [done..|].
  destruct Hend as [[_ ->]|[Hb _]]; [|done].
  split; [by rewrite Htot|]. exists docs. by rewrite Hsinks.
Qed.

(** A stream of [shard_size] records and fewer than [shard_size] more:
    two shards, numbers 0 and 1, the second with the records that
    remain. *)
Lemma process_stream_two_shards run_md rs evs n count :
  process_stream dataset_name rs shard_size cfg dcfg run_md
    local_subdir s3_subdir = (evs, Ok (n, count)) →
  shard_size < Z.of_nat (length rs) < 2 * shard_size → 1 ≤ shard_size →
  n = Z.of_nat (length rs)
  ∧ ∃ docs0 docs1,
      evs = events 0 docs0 ++ events 1 docs1
      ∧ Forall2 of_record (take (Z.to_nat shard_size) rs) docs0
      ∧ Forall2 of_record (drop (Z.to_nat shard_size) rs) docs1.
Proof.
  intros Hps Hlen Hsize.
  destruct (process_stream_returns _ _ _ _ _ Hps)
    as (md & st' & Hmd & Hloop & -> & -> & Hend).
  set (k := Z.to_nat shard_size).
  rewrite <- (take_drop k rs) in Hloop.
  apply stream_loop_app_returns in Hloop as (st1 & Hloop1 & Hloop2).
  destruct (stream_loop_full (take k rs) _ st1 Hloop1)
    as (docs0 & Hbuf1 & Hdocs0 & Hsid1 & Htot1 & Hsinks1);
    [done|rewrite length_take; lia|done|].
  destruct (stream_loop_fill (drop k rs) st1 st' Hloop2)
    as (docs1 & Hbuf2 & Hdocs1 & Hsid2 & Htot2 & Hsinks2).
  { rewrite Hbuf1, length_drop. simpl. lia. }
  rewrite Hbuf1 in Hbuf2. simpl in Hbuf2.
  assert (docs1 ≠ []) as Hne.
  { intros ->. apply Forall2_length in Hdocs1.
    rewrite length_drop in Hdocs1. simpl in Hdocs1. lia. }
  split.
  { rewrite Htot2, Htot1, length_drop. simpl. lia. }
  destruct Hend as [[Hb _]|[_ [u Hsave]]]; [congruence|].
  apply save_shard_returns in Hsave as ->.
  exists docs0, (snapshot (extra_md st') <$> docs1).
  rewrite Hbuf2, Hsinks2, Hsinks1, Hsid2, Hsid1. simpl.
  split; [done|]. split; [done|].
  apply Forall2_fmap_r. eapply Forall2_impl; [exact Hdocs1|].
  intros. by apply snapshot_of_record.
Qed.

End stream_loop.

(** A shard size below one is as good as one: the buffer is written after
    every document. *)
Lemma stream_loop_small_shard_size `{Externals} `{Sinks} (dataset_name : str)
    (shard_size : Z) (cfg : value) (dcfg : dict) (local_subdir s3_subdir : str)
    (rs : list dict) : ∀ st,
  shard_size ≤ 1 →
  stream_loop dataset_name shard_size cfg dcfg local_subdir s3_subdir st rs
  = stream_loop dataset_name 1 cfg dcfg local_subdir s3_subdir st rs.
Proof.
  intros st Hsize. revert st.
  induction rs as [|r rs IH]; intros st; [done|]. simpl.
  assert (stream_step dataset_name shard_size cfg dcfg local_subdir s3_subdir st r
          = stream_step dataset_name 1 cfg dcfg local_subdir s3_subdir st r)
    as ->.
  { unfold stream_step.
    destruct (_build_doc _ _ _ _) as [d|]; [|done].
    destruct (process_doc _ _ _) as [[[pipe' md'] d']|]; [|done].
    cbn [buffer]. rewrite length_app. cbn [length].
    by rewrite !bool_decide_eq_true_2 by lia. }
  destruct (stream_step _ 1 _ _ _ _ _ _) as [st1 [e|]]; [done|apply IH].
Qed.

Lemma process_stream_max_shard_size `{Externals} `{Sinks} (dataset_name : str)
    (rs : list dict) (shard_size : Z) (cfg : value) (dcfg run_md : dict)
    (local_subdir s3_subdir : str) :
  process_stream dataset_name rs shard_size cfg dcfg run_md
    local_subdir s3_subdir
  = process_stream dataset_name rs (Z.max 1 shard_size) cfg dcfg run_md
      local_subdir s3_subdir.
Proof.
  destruct (decide (1 ≤ shard_size)) as [Hsize|Hsize].
  - by rewrite Z.max_r by done.
  - rewrite Z.max_l by lia. unfold process_stream.
    destruct (build_extra_md _ _ _) as [md|]; [|done].
    by rewrite stream_loop_small_shard_size by lia.
Qed.

Section stream_progress.
Context `{Externals} `{Sinks}.
Context (dataset_name : str) (shard_size : Z) (cfg : value) (dcfg : dict).
Context (local_subdir s3_subdir : str).
Hypothesis Hsave : ∀ st,
  ∃ out u, save_shard cfg local_subdir s3_subdir st = (out, Ok u).

(** When no document raises and no shard fails to be written, the loop
    comes to the end of the stream and [process_stream] returns. *)
Lemma stream_loop_progress rs : ∀ st,
  documents_ok dataset_name dcfg (pipe st) (extra_md st) rs →
  ∃ st',
    stream_loop dataset_name shard_size cfg dcfg local_subdir s3_subdir st rs
    = (st', None).
Proof.
  induction rs as [|r rs IH]; intros st Hok; [by exists st|].
  destruct Hok as (d & pipe' & md' & d' & Hbuild & Hdoc & Hrest).
  simpl. unfold stream_step. rewrite Hbuild, Hdoc.
  destruct (bool_decide _).
  - match goal with
    | |- context [save_shard _ _ _ ?s] => destruct (Hsave s) as (out & u & ->)
    end.
    by apply IH.
  - by apply IH.
Qed.

Lemma process_stream_progress run_md rs md :
  build_extra_md cfg dcfg run_md = Ok md →
  documents_ok dataset_name dcfg (new_ProcessingPipeline cfg) md rs →
  ∃ evs n count,
    process_stream dataset_name rs shard_size cfg dcfg run_md
      local_subdir s3_subdir = (evs, Ok (n, count)).
Proof.
  intros Hmd Hok. unfold process_stream. rewrite Hmd.
  match goal with
  | |- context [stream_loop _ _ _ _ _ _ ?s rs] =>
      destruct (stream_loop_progress rs s Hok) as (st' & ->)
  end.
  destruct (buffer st'); [by eexists _, _, _|].
  destruct (Hsave st') as (out & u & ->). by eexists _, _, _.
Qed.

End stream_progress.

(** Sinks that raise nothing write every shard of a configuration that
    names them. *)
Lemma save_shard_progress `{Externals} `{Sinks} (cfg : value)
    (local_subdir s3_subdir : str) (mode : value) (local_dir : str)
    (bucket s3_prefix : value) (st : stream_state) :
  storage_configured cfg mode local_dir bucket s3_prefix →
  (∀ records path, save_jsonl_local_raises records path = None) →
  (∀ records b key, upload_jsonl_to_s3_raises records b key = None) →
  ∃ out u, save_shard cfg local_subdir s3_subdir st = (out, Ok u).
Proof.
  intros Hstorage Hlocal Hs3. unfold save_shard.
  rewrite (shard_arguments_ok cfg local_subdir s3_subdir mode local_dir bucket
             s3_prefix Hstorage).
  unfold save_records. rewrite Hlocal, Hs3.
  destruct (eq_str mode (py "local") || eq_str mode (py "both"));
    destruct (eq_str mode (py "s3") || eq_str mode (py "both"));
    by eexists _, _.
Qed.

(** C2: the second component of the result of [process_stream] is the
    number of shards the sinks have received only when a partial shard
    remains at the end of the stream; when the number of documents is a
    multiple of the shard size (zero included) it is one more than the
    number of shards written. A shard size below one counts as one. *)
Theorem process_stream_shard_count `{Externals} `{Sinks}
    (dataset_name : str) (rs : list dict) (shard_size : Z) (cfg : value)
    (dcfg run_md : dict) (local_subdir s3_subdir : str) (mode : value)
    (local_dir : str) (bucket s3_prefix : value)
    (evs : list sink_event) (n count : Z) :
  storage_configured cfg mode local_dir bucket s3_prefix →
  process_stream dataset_name rs shard_size cfg dcfg run_md
    local_subdir s3_subdir = (evs, Ok (n, count)) →
  let size := Z.max 1 shard_size in
  let written := shards_for (Z.of_nat (length rs)) size in
  n = Z.of_nat (length rs)
  ∧ count = written + (if Z.of_nat (length rs) mod size =? 0 then 1 else 0)
  ∧ (eq_str mode (py "local") || eq_str mode (py "both") = true →
     Z.of_nat (length (shard_files evs)) = written)
  ∧ (eq_str mode (py "s3") || eq_str mode (py "both") = true →
     Z.of_nat (length (shard_objects evs)) = written).
Proof.
  intros Hstorage Hps size written.
  rewrite process_stream_max_shard_size in Hps. fold size in Hps.
  destruct (process_stream_shards dataset_name size cfg dcfg local_subdir
              s3_subdir mode local_dir bucket s3_prefix Hstorage run_md rs
              evs n count Hps ltac:(lia))
    as (-> & -> & shards & Hevs & Hlen).
  split; [done|]. split; [|split].
  - unfold written, shards_for. destruct (_ =? 0); lia.
  - intros Hm. unfold written. rewrite <- Hlen, Hevs. f_equal.
    apply shard_files_concat. intros i docs.
    by rewrite (shard_files_events local_subdir s3_subdir mode).
  - intros Hm. unfold written. rewrite <- Hlen, Hevs. f_equal.
    apply shard_objects_concat. intros i docs.
    by rewrite (shard_objects_events local_subdir s3_subdir mode).
Qed.

(** C5: with a shard size of 10,000, a stream of exactly 10,000 records is
    written as one shard, [part-00000.jsonl], which holds the documents of
    all the records; a stream of 10,001 records is written as two shards,
    [part-00000.jsonl] with the documents of the first 10,000 records and
    [part-00001.jsonl] with the document of the last one. Under the
    storage modes [local] and [both] these are the files written. *)
Theorem process_stream_sharding_boundaries `{Externals} `{Sinks}
    (dataset_name : str) (rs : list dict) (cfg : value) (dcfg run_md : dict)
    (local_subdir s3_subdir : str) (mode : value) (local_dir : str)
    (bucket s3_prefix : value) (evs : list sink_event) (n count : Z) :
  storage_configured cfg mode local_dir bucket s3_prefix →
  process_stream dataset_name rs 10000 cfg dcfg run_md local_subdir s3_subdir
  = (evs, Ok (n, count)) →
  let shard :=
    shard_written mode local_dir local_subdir bucket s3_prefix s3_subdir in
  let file name := path_join local_dir [local_subdir; name] in
  (Z.of_nat (length rs) = 10000 →
   ∃ docs,
     evs = shard (py "part-00000.jsonl") docs
     ∧ Forall2 (doc_of_record dataset_name dcfg) rs docs
     ∧ Z.of_nat (length docs) = 10000
     ∧ n = 10000
     ∧ (eq_str mode (py "local") || eq_str mode (py "both") = true →
        shard_files evs = [(file (py "part-00000.jsonl"), docs)]))
  ∧ (Z.of_nat (length rs) = 10001 →
     ∃ docs0 docs1,
       evs = shard (py "part-00000.jsonl") docs0
             ++ shard (py "part-00001.jsonl") docs1
       ∧ Forall2 (doc_of_record dataset_name dcfg)
           (take (Z.to_nat 10000) rs) docs0
       ∧ Forall2 (doc_of_record dataset_name dcfg)
           (drop (Z.to_nat 10000) rs) docs1
       ∧ Z.of_nat (length docs0) = 10000 ∧ Z.of_nat (length docs1) = 1
       ∧ n = 10001
       ∧ (eq_str mode (py "local") || eq_str mode (py "both") = true →
          shard_files evs = [(file (py "part-00000.jsonl"), docs0);
                             (file (py "part-00001.jsonl"), docs1)])).
Proof.
  intros Hstorage Hps shard file. split; intros Hlen.
  - destruct (process_stream_one_shard dataset_name 10000 cfg dcfg
                local_subdir s3_subdir mode local_dir bucket s3_prefix
                Hstorage run_md rs evs n count Hps Hlen ltac:(lia))
      as (-> & docs & -> & Hdocs).
    exists docs. split; [done|]. split; [done|].
    split; [apply Forall2_length in Hdocs; lia|]. split; [done|].
    intros Hm.
    exact (shard_files_events local_subdir s3_subdir mode local_dir bucket
             s3_prefix 0 docs Hm).
  - destruct (process_stream_two_shards dataset_name 10000 cfg dcfg
                local_subdir s3_subdir mode local_dir bucket s3_prefix
                Hstorage run_md rs evs n count Hps ltac:(lia) ltac:(lia))
      as (-> & docs0 & docs1 & -> & Hdocs0 & Hdocs1).
    exists docs0, docs1.
    split; [done|]. split; [done|]. split; [done|].
    pose proof (Forall2_length _ _ _ Hdocs0) as Hl0.
    pose proof (Forall2_length _ _ _ Hdocs1) as Hl1.
    rewrite length_take in Hl0. rewrite length_drop in Hl1.
    split; [lia|]. split; [lia|]. split; [done|].
    intros Hm. rewrite shard_files_app.
    rewrite (shard_files_events local_subdir s3_subdir mode local_dir bucket
               s3_prefix 0 docs0 Hm).
    by rewrite (shard_files_events local_subdir s3_subdir mode local_dir bucket
                  s3_prefix 1 docs1 Hm).
Qed.

(** The sample configurations name their sinks. *)
Lemma sample_storage_configured :
  storage_configured (VDict sample_storage) (VStr (py "local")) (py "out")
    (VStr (py "bucket")) (VStr (py "corpus")).
Proof. do 2 eexists. repeat split; reflexivity. Defined.

Lemma sample_cfg_storage_configured (tagger : str) :
  storage_configured (sample_cfg tagger) (VStr (py "local")) (py "out")
    (VStr (py "bucket")) (VStr (py "corpus")).
Proof. do 2 eexists. repeat split; reflexivity. Defined.

(** Without an enabled [processing] block no document raises. *)
Lemma documents_ok_disabled `{Externals} (dataset_name : str) (cfg : value)
    (dcfg p : dict) (field : str) (rs : list dict) : ∀ cache md,
  _get_processing_cfg cfg = Ok (VDict p) →
  truthy (dict_get p (py "enabled") (VBool false)) = false →
  dict_get dcfg (py "text_field") (VStr (py "text")) = VStr field →
  documents_ok dataset_name dcfg {| self_cfg := cfg; _masker_cache := cache |}
    md rs.
Proof.
  intros cache md Hp Hen Hf. induction rs as [|r rs IH]; [done|].
  destruct (build_doc_text dataset_name r dcfg md field Hf) as (d & Hd & _).
  exists d, {| self_cfg := cfg; _masker_cache := cache |}, md, d.
  split; [done|]. split; [|done].
  by apply (process_doc_disabled _ _ _ p).
Defined.

Lemma sample_documents_ok (rs : list dict) :
  documents_ok (H:=sample_env) (py "ds") ∅
    (new_ProcessingPipeline (VDict sample_storage)) ∅ rs.
Proof.
  apply (documents_ok_disabled (H:=sample_env) _ _ _ ∅ (py "text"));
    reflexivity.
Defined.

(** Ten thousand records with a shard size of 10,000: one local file,
    [out/wiki/part-00000.jsonl], with ten thousand documents. *)
Lemma process_stream_sharding_example :
  ∃ docs,
    (process_stream (H:=sample_env) (H0:=sample_sinks) (py "ds")
       (replicate (Z.to_nat 10000) {[py "text" := VStr (py "x")]}) 10000
       (VDict sample_storage) ∅ ∅ (py "wiki") (py "wiki")).1
    = [LocalFile (py "out/wiki/part-00000.jsonl") docs]
    ∧ Z.of_nat (length docs) = 10000.
Proof.
  assert (build_extra_md (VDict sample_storage) ∅ ∅ = Ok ∅) as Hmd
    by reflexivity.
  assert (Z.of_nat (length (replicate (Z.to_nat 10000)
                              ({[py "text" := VStr (py "x")]} : dict)))
          = 10000) as Hlen0 by (vm_compute; reflexivity).
  pose proof (process_stream_progress (H:=sample_env) (H0:=sample_sinks)
                (py "ds") 10000 (VDict sample_storage) ∅ (py "wiki") (py "wiki")
                (λ st, save_shard_progress (H:=sample_env) (H0:=sample_sinks)
                         _ _ _ _ _ _ _ st sample_storage_configured
                         (λ _ _, eq_refl) (λ _ _ _, eq_refl))
                ∅ (replicate (Z.to_nat 10000) {[py "text" := VStr (py "x")]}) ∅
                Hmd (sample_documents_ok _)) as Hrun.
  destruct Hrun as (evs & n & count & Hrun).
  pose proof (proj1 (process_stream_sharding_boundaries (H:=sample_env)
                       (H0:=sample_sinks) (py "ds")
                       (replicate (Z.to_nat 10000) {[py "text" := VStr (py "x")]})
                       (VDict sample_storage) ∅ ∅ (py "wiki") (py "wiki")
                       (VStr (py "local")) (py "out") (VStr (py "bucket"))
                       (VStr (py "corpus")) evs n count
                       sample_storage_configured Hrun)
                Hlen0) as Hex.
  destruct Hex as (docs & Hout & _ & Hlen & _).
  exists docs. rewrite Hrun. split; [exact Hout|exact Hlen].
Defined.

(** Two records with a shard size of 2, the masking step enabled: one
    file is written and the result counts two shards. *)
Lemma process_stream_shard_count_example :
  ∃ evs,
    process_stream (H:=sample_env) (H0:=sample_sinks) (py "ds")
      [{[py "text" := VStr (py "call 555")]}; {[py "text" := VStr (py "b")]}] 2
      (sample_cfg (py "pii_regex_v2")) ∅ ∅ (py "wiki") (py "wiki")
    = (evs, Ok (2, 2))
    ∧ Z.of_nat (length (shard_files evs)) = 1.
Proof.
  set (out := process_stream (H:=sample_env) (H0:=sample_sinks) (py "ds")
      [{[py "text" := VStr (py "call 555")]}; {[py "text" := VStr (py "b")]}] 2
      (sample_cfg (py "pii_regex_v2")) ∅ ∅ (py "wiki") (py "wiki")).
  assert (out = (out.1, Ok (2, 2))) as Hrun by (vm_compute; reflexivity).
  pose proof (process_stream_shard_count (H:=sample_env) (H0:=sample_sinks)
                (py "ds") _ 2 (sample_cfg (py "pii_regex_v2")) ∅ ∅ (py "wiki")
                (py "wiki") (VStr (py "local")) (py "out") (VStr (py "bucket"))
                (VStr (py "corpus")) out.1 2 2
                (sample_cfg_storage_configured _) Hrun) as Hex.
  destruct Hex as (_ & _ & Hfiles & _).
  exists out.1. split; [exact Hrun|]. exact (Hfiles eq_refl).
Defined.

(** An empty stream: nothing is written and the result counts one
    shard. *)
Lemma process_stream_empty_stream `{Externals} `{Sinks} (dataset_name : str)
    (shard_size : Z) (cfg : value) (dcfg run_md : dict)
    (local_subdir s3_subdir : str) (md : dict) :
  build_extra_md cfg dcfg run_md = Ok md →
  process_stream dataset_name [] shard_size cfg dcfg run_md local_subdir
    s3_subdir = ([], Ok (0, 1)).
Proof. intros Hmd. unfold process_stream. by rewrite Hmd. Qed.

(** ** The metadata of the documents *)

(** The metadata [process_stream] builds is the merge of the
    specification. *)
Lemma build_extra_md_spec (cfg : value) (dcfg run_md md : dict) :
  build_extra_md cfg dcfg run_md = Ok md →
  ∀ k, md !! k
       = spec_metadata (metadata_block (processing_block cfg))
           (metadata_block (VDict dcfg)) run_md k.
Proof.
  unfold build_extra_md, _get_processing_cfg.
  set (dataset_md := dict_or_empty (dict_get dcfg (py "metadata") VNone)).
  assert (metadata_block (VDict dcfg) = dataset_md) as ->.
  { unfold dataset_md, metadata_block, dict_get.
    by destruct (dcfg !! py "metadata") as [[]|]. }
  destruct (method_get (py_or cfg (VDict ∅)) (py "processing") VNone)
    as [p|] eqn:Hp; [|done].
  rewrite !bind_Ok.
  destruct (method_get (py_or p (VDict ∅)) (py "metadata") VNone) as [g|] eqn:Hg;
    [|done].
  rewrite bind_Ok.
  assert (metadata_block (processing_block cfg) = dict_or_empty g) as ->.
  { unfold py_or in Hp.
    destruct (truthy cfg) eqn:Hcfg.
    - destruct cfg as [| | | | | |c]; try done.
      cbn [method_get] in Hp. injection Hp as <-.
      unfold processing_block, dict_get in *.
      destruct (c !! py "processing") as [p|]; simpl in *.
      + unfold py_or in Hg. destruct (truthy p) eqn:Htp.
        * destruct p as [| | | | | |m]; try done.
          cbn [method_get] in Hg. injection Hg as <-.
          unfold metadata_block, dict_get.
          by destruct (m !! py "metadata") as [[]|].
        * cbn [method_get] in Hg. injection Hg as <-.
          destruct p as [| | | | | |m]; try done.
          cbn [truthy] in Htp. apply negb_false_iff, bool_decide_eq_true in Htp.
          by subst m.
      + by injection Hg as <-.
    - cbn [method_get] in Hp. injection Hp as <-.
      cbn in Hg. injection Hg as <-.
      destruct cfg as [| | | | | |c]; try done.
      cbn [truthy] in Hcfg. apply negb_false_iff, bool_decide_eq_true in Hcfg.
      by subst c. }
  set (global_md := dict_or_empty g).
  assert (∀ j, (dataset_md ∪ global_md) !! j
               = match dataset_md !! j with
                 | Some v => Some v
                 | None => global_md !! j
                 end) as Hunion.
  { intros j. rewrite lookup_union.
    by destruct (dataset_md !! j), (global_md !! j). }
  unfold spec_metadata. cbn [truthy].
  destruct (bool_decide (run_md = ∅)) eqn:Hrun; cbn [negb].
  - intros [= <-] k. rewrite andb_false_r. apply Hunion.
  - intros Hmd k. rewrite andb_true_r, <- !Hunion. revert Hmd.
    destruct ((dataset_md ∪ global_md) !! py "run") as [[| | | | | |existing]|]
      eqn:Hex;
      intros [= <-];
      (destruct (bool_decide (k = py "run")) eqn:Hk;
       [apply bool_decide_eq_true in Hk as ->; by rewrite lookup_insert_eq
       |apply bool_decide_eq_false in Hk; by rewrite lookup_insert_ne by done]).
Qed.

(** C9: the metadata [process_stream] builds is the merge of the
    specification: the global metadata, then the metadata of the data set,
    then the run metadata under [run]; every document is built with it.
    But the documents of a stream are built with the one mapping, so what
    [process_doc] sets for one document is written with every document:
    with the global metadata [{a: 1}], a document of the text [plain],
    which holds no digit, is written with [pii_masked] and
    [pii_span_count] of the document before it. *)
Theorem process_stream_metadata :
  (∀ (cfg : value) (dcfg run_md md : dict),
     build_extra_md cfg dcfg run_md = Ok md →
     ∀ k, md !! k
          = spec_metadata (metadata_block (processing_block cfg))
              (metadata_block (VDict dcfg)) run_md k)
  ∧ (∀ (E : Externals) (dataset_name : str) (r dcfg md : dict) (d : doc),
       _build_doc (H:=E) dataset_name r dcfg md = Ok d → metadata_of md d = md)
  ∧ build_extra_md example_global_cfg example_dataset_cfg example_run_md
    = Ok (<[py "a" := VInt 1]>
            (<[py "b" := VInt 2]>
               (<[py "c" := VInt 3]>
                  {[py "run" := VDict {[py "run_id" := VStr (py "X")]}]})))
  ∧ build_extra_md sample_cfg_with_metadata ∅ ∅ = Ok {[py "a" := VInt 1]}
  ∧ process_stream (H:=sample_env) (H0:=sample_sinks) (py "ds")
      [<[py "id" := VStr (py "1")]> {[py "text" := VStr (py "call 555")]};
       <[py "id" := VStr (py "2")]> {[py "text" := VStr (py "plain")]}]
      10000 sample_cfg_with_metadata ∅ ∅ (py "wiki") (py "wiki")
    = ([LocalFile (py "out/wiki/part-00000.jsonl")
          [Doc (py "1") (py "call <PII>") (py "ds") (VStr []) (VStr []) VNone
             (MdOwn (<[py "pii_span_count" := VInt 3]>
                       (<[py "pii_masked" := VBool true]>
                          {[py "a" := VInt 1]})));
           Doc (py "2") (py "plain") (py "ds") (VStr []) (VStr []) VNone
             (MdOwn (<[py "pii_span_count" := VInt 3]>
                       (<[py "pii_masked" := VBool true]>
                          {[py "a" := VInt 1]})))]],
       Ok (2, 1)).
Proof.
  split; [exact build_extra_md_spec|].
  split.
  { intros E dataset_name r dcfg md d. unfold _build_doc.
    destruct (dict_get_value r _ _) as [raw|]; [|done]. rewrite bind_Ok.
    intros [= <-]. unfold metadata_of. cbn [doc_metadata truthy].
    destruct (bool_decide (md = ∅)) eqn:Hmd; [|done].
    by apply bool_decide_eq_true in Hmd as ->. }
  split; [vm_compute; reflexivity|].
  split; vm_compute; reflexivity.
Qed.

(** ** [ensure_vendor_dolma_on_path] *)

(** X1: a second call of [ensure_vendor_dolma_on_path] changes nothing and
    returns what the first one returned; a call adds no entry twice, keeps
    the entries of [sys.path] in their order behind the one it adds, and
    the path it returns is on [sys.path]. *)
Theorem ensure_vendor_dolma_on_path_again `{VendorTree}
    (repo_root : option str) (sys_path : list str) :
  let out := ensure_vendor_dolma_on_path repo_root sys_path in
  ensure_vendor_dolma_on_path repo_root out.1 = out
  ∧ (NoDup sys_path → NoDup out.1)
  ∧ sys_path `suffix_of` out.1
  ∧ (∀ c, out.2 = Some c → c ∈ out.1).
Proof.
  unfold ensure_vendor_dolma_on_path.
  set (c := vendor_candidate repo_root).
  destruct (path_exists c && path_is_dir c) eqn:Hdir; simpl;
    [|repeat split; [done|done|by intros]].
  destruct (bool_decide (c ∈ sys_path)) eqn:Hin; simpl.
  - rewrite Hin. apply bool_decide_eq_true in Hin.
    repeat split; [done|done|]. by intros ? [= <-].
  - apply bool_decide_eq_false in Hin.
    rewrite bool_decide_eq_true_2 by left.
    repeat split.
    + intros Hnd. by constructor.
    + by apply suffix_cons_r.
    + intros ? [= <-]. left.
Qed.

(** ** The text of a shard *)

Lemma split_on_no_sep sep t : sep ∉ t → split_on sep t = [t].
Proof.
  induction t as [|c t IH]; [done|]. intros Hn. simpl.
  apply not_elem_of_cons in Hn as [Hc Ht].
  rewrite (proj2 (N.eqb_neq c sep)) by done. by rewrite IH.
Qed.

Lemma split_on_app sep a b :
  sep ∉ a → split_on sep (a ++ sep :: b) = a :: split_on sep b.
Proof.
  induction a as [|c a IH]; intros Hn; simpl.
  - by rewrite N.eqb_refl.
  - apply not_elem_of_cons in Hn as [Hc Ha].
    rewrite (proj2 (N.eqb_neq c sep)) by done. by rewrite IH.
Qed.

Lemma sep_join_cons sep x y rest :
  sep_join sep (x :: y :: rest) = x ++ sep ++ sep_join sep (y :: rest).
Proof. done. Qed.

Section jsonl.
Context {A : Type} (json_dumps : A → str).

Lemma save_jsonl_local_lines records :
  (∀ r, 10%N ∉ json_dumps r) →
  split_on 10 (save_jsonl_local json_dumps records)
  = (json_dumps <$> records) ++ [[]].
Proof.
  intros Hnl. induction records as [|r rs IH]; [done|].
  unfold save_jsonl_local in *. rewrite fmap_cons. simpl concat.
  rewrite <- app_assoc. simpl. rewrite split_on_app by apply Hnl.
  by rewrite IH.
Qed.

Lemma upload_jsonl_to_s3_lines records :
  (∀ r, 10%N ∉ json_dumps r) → records ≠ [] →
  split_on 10 (upload_jsonl_to_s3 json_dumps records) = json_dumps <$> records.
Proof.
  intros Hnl. unfold upload_jsonl_to_s3.
  induction records as [|r rs IH]; [done|]. intros _.
  destruct rs as [|r' rs]; [apply split_on_no_sep, Hnl|].
  change (sep_join [10%N] (json_dumps <$> r :: r' :: rs))
    with (json_dumps r ++ 10%N :: sep_join [10%N] (json_dumps <$> r' :: rs)).
  rewrite split_on_app by apply Hnl. by rewrite IH.
Qed.

(** X2: the text of a local shard is the text of the same shard on S3
    followed by a newline, and both are empty for a shard of no record. *)
Theorem jsonl_local_and_s3_text records :
  save_jsonl_local json_dumps records
  = upload_jsonl_to_s3 json_dumps records
    ++ (match records with [] => [] | _ => [10%N] end).
Proof.
  unfold save_jsonl_local, upload_jsonl_to_s3.
  induction records as [|r rs IH]; [done|].
  rewrite fmap_cons. simpl concat. rewrite IH.
  destruct rs as [|r' rs]; [by rewrite app_nil_r|].
  change (sep_join [10%N] (json_dumps <$> r :: r' :: rs))
    with (json_dumps r ++ [10%N] ++ sep_join [10%N] (json_dumps <$> r' :: rs)).
  by rewrite <- !app_assoc.
Qed.

(** X3: when [json.dumps] writes no newline, a shard of at least one record
    holds one line for each record, in order: the lines of the S3 body are
    the records' texts, and the local file has the same lines and ends
    with a newline. *)
Theorem jsonl_one_line_per_record records :
  (∀ r, 10%N ∉ json_dumps r) → records ≠ [] →
  split_on 10 (upload_jsonl_to_s3 json_dumps records) = json_dumps <$> records
  ∧ split_on 10 (save_jsonl_local json_dumps records)
    = (json_dumps <$> records) ++ [[]].
Proof.
  intros Hnl Hne. split.
  - by apply upload_jsonl_to_s3_lines.
  - by apply save_jsonl_local_lines.
Qed.

End jsonl.

(** A shard of the two records [true] and [false]: two lines. *)
Lemma jsonl_one_line_per_record_example :
  split_on 10 (upload_jsonl_to_s3 sample_json_dumps [true; false])
  = [py "true"; py "false"]
  ∧ split_on 10 (save_jsonl_local sample_json_dumps [true; false])
    = [py "true"; py "false"; []].
Proof.
  apply (jsonl_one_line_per_record sample_json_dumps [true; false]); [|done].
  intros []; apply (bool_decide_unpack _); by vm_compute.
Defined.

(** ** The overrides of [run_download] *)

Lemma split_on_nonempty sep t : split_on sep t ≠ [].
Proof.
  destruct t as [|c t]; [done|]. simpl.
  destruct (c =? sep)%N; [done|]. by destruct (split_on sep t).
Qed.

Lemma setitem_Ok cur k x cur' :
  setitem cur k x = Ok cur' ↔ ∃ d, cur = VDict d ∧ cur' = VDict (<[k := x]> d).
Proof.
  split.
  - destruct cur; try done. intros [= <-]. by eexists.
  - by intros (d & -> & ->).
Qed.

Lemma getitem_Ok cur k v :
  getitem cur k = Ok v ↔ ∃ d, cur = VDict d ∧ d !! k = Some v.
Proof.
  split.
  - destruct cur as [| | | | | |d]; try done. simpl.
    destruct (d !! k) eqn:Hk; [|done]. intros [= <-]. by eexists.
  - intros (d & -> & Hk). simpl. by rewrite Hk.
Qed.

Lemma set_dotted_cons cur p q rest x :
  set_dotted cur (p :: q :: rest) x =
    child ← getitem cur p;
    child' ← set_dotted child (q :: rest) x;
    setitem cur p child'.
Proof. done. Qed.

(** What an override sets is what the subscripts of its key read. *)
Lemma set_dotted_get parts : ∀ cur x cur',
  parts ≠ [] → set_dotted cur parts x = Ok cur' → get_dotted cur' parts = Ok x.
Proof.
  induction parts as [|p rest IH]; [done|]. intros cur x cur' _.
  destruct rest as [|q rest].
  - simpl. intros (d & -> & ->)%setitem_Ok. simpl.
    by rewrite lookup_insert_eq.
  - rewrite set_dotted_cons.
    destruct (getitem cur p) as [child|] eqn:Hget; [|done]. rewrite bind_Ok.
    destruct (set_dotted child (q :: rest) x) as [child'|] eqn:Hset; [|done].
    rewrite bind_Ok. intros (d & -> & ->)%setitem_Ok.
    cbn [get_dotted getitem]. rewrite lookup_insert_eq, bind_Ok.
    by apply (IH child).
Qed.

(** An override leaves what lies off its path as it was. *)
Lemma set_dotted_frame parts : ∀ cur x cur' l k k' r r',
  set_dotted cur parts x = Ok cur' →
  parts = l ++ k :: r → k ≠ k' →
  get_dotted cur' (l ++ k' :: r') = get_dotted cur (l ++ k' :: r').
Proof.
  induction parts as [|p rest IH]; intros cur x cur' l k k' r r' Hset Hparts Hk.
  { by destruct l. }
  destruct rest as [|q rest].
  - destruct l as [|? l]; [|by destruct l]. simplify_eq/=.
    apply setitem_Ok in Hset as (d & -> & ->). simpl.
    by rewrite lookup_insert_ne.
  - rewrite set_dotted_cons in Hset.
    destruct (getitem cur p) as [child|] eqn:Hget; [|done].
    rewrite bind_Ok in Hset.
    destruct (set_dotted child (q :: rest) x) as [child'|] eqn:Hset'; [|done].
    rewrite bind_Ok in Hset. apply setitem_Ok in Hset as (d & -> & ->).
    apply getitem_Ok in Hget as (d0 & [= <-] & Hp).
    destruct l as [|? l]; simplify_eq/=.
    + by rewrite lookup_insert_ne.
    + rewrite lookup_insert_eq, Hp, !bind_Ok. by eapply IH.
Qed.

Lemma py_no_dot (s : string) :
  bool_decide (46%N ∉ py s) = true → 46%N ∉ py s.
Proof. apply bool_decide_eq_true. Qed.

(** ** The loaded configuration and its aliases *)

Fixpoint node_size (o : node) : nat :=
  match o with
  | NList l => S (sum_list_with node_size l)
  | NDict _ m => S (map_fold (λ _ c acc, node_size c + acc)%nat 0%nat m)
  | _ => 1%nat
  end.

Lemma node_size_child id m p c :
  m !! p = Some c → (node_size c < node_size (NDict id m))%nat.
Proof.
  intros Hp. cbn [node_size].
  rewrite (map_fold_delete_L _ _ p c m) by (intros; lia || done). lia.
Qed.

(** Induction on nodes, with the hypothesis for every element of a list
    and every entry of a mapping. *)
Lemma node_ind' (P : node → Prop) :
  P NNone → (∀ b, P (NBool b)) → (∀ z, P (NInt z)) → (∀ x, P (NFloat x)) →
  (∀ s, P (NStr s)) →
  (∀ l, Forall P l → P (NList l)) →
  (∀ id m, map_Forall (λ _, P) m → P (NDict id m)) →
  ∀ o, P o.
Proof.
  intros HNone HBool HInt HFloat HStr HList HDict o.
  remember (node_size o) as n eqn:Hn. revert o Hn.
  induction n as [n IH] using lt_wf_ind. intros o ->.
  destruct o as [| | | | |l|id m]; auto.
  - apply HList, Forall_forall. intros c Hc. apply (IH (node_size c)); [|done].
    cbn [node_size]. pose proof (sum_list_with_in c node_size l Hc). lia.
  - apply HDict. intros p c Hp. apply (IH (node_size c)); [|done].
    by eapply node_size_child.
Qed.

(** The identities below a mapping. *)
Definition child_ids (m : gmap str node) : list N :=
  map_to_list m ≫= λ kv, node_ids kv.2.

Lemma node_ids_dict id m : node_ids (NDict id m) = id :: child_ids m.
Proof.
  cbn [node_ids]. f_equal. rewrite map_fold_foldr. unfold child_ids.
  induction (map_to_list m) as [|[k c] l IH]; [done|].
  simpl. by rewrite IH.
Qed.

Lemma child_ids_lookup m p c :
  m !! p = Some c → child_ids m ≡ₚ node_ids c ++ child_ids (delete p m).
Proof.
  intros Hp. unfold child_ids. by rewrite <- (map_to_list_delete m p c Hp).
Qed.

Lemma child_ids_insert m p x :
  child_ids (<[p := x]> m) ≡ₚ node_ids x ++ child_ids (delete p m).
Proof.
  unfold child_ids. rewrite <- insert_delete_eq.
  by rewrite map_to_list_insert by apply lookup_delete_eq.
Qed.

Lemma child_ids_delete m p : child_ids (delete p m) ⊆+ child_ids m.
Proof.
  unfold child_ids. apply bind_submseteq, map_to_list_submseteq, delete_subseteq.
Qed.

Lemma child_ids_elem m i :
  i ∈ child_ids m ↔ ∃ p c, m !! p = Some c ∧ i ∈ node_ids c.
Proof.
  unfold child_ids. rewrite list_elem_of_bind. split.
  - intros ([p c] & Hi & Hpc%elem_of_map_to_list). by exists p, c.
  - intros (p & c & Hp & Hi). exists (p, c). by rewrite elem_of_map_to_list.
Qed.

Lemma submseteq_NoDup {A} (l k : list A) : l ⊆+ k → NoDup k → NoDup l.
Proof.
  intros [k' Hk]%submseteq_Permutation. rewrite Hk.
  by intros (? & _ & _)%NoDup_app.
Qed.

(** In a configuration without shared mappings, the entries of a mapping
    have no identity in common, and none is that of the mapping. *)
Lemma unshared_child id m p c :
  NoDup (node_ids (NDict id m)) → m !! p = Some c →
  NoDup (node_ids c)
  ∧ (id ∉ node_ids c)
  ∧ ∀ i q c', i ∈ node_ids c → m !! q = Some c' → q ≠ p → i ∉ node_ids c'.
Proof.
  rewrite node_ids_dict. intros [Hid Hnd]%NoDup_cons Hp.
  rewrite (child_ids_lookup m p c Hp) in Hid, Hnd.
  apply NoDup_app in Hnd as (Hc & Hdisj & _).
  split; [done|]. split; [set_solver|].
  intros i q c' Hi Hq Hne Hi'. apply (Hdisj i Hi).
  apply child_ids_elem. exists q, c'. by rewrite lookup_delete_ne.
Qed.

(** An assignment to a mapping object leaves a node that does not hold
    the object as it is. *)
Lemma assign_fresh id k x o : id ∉ node_ids o → assign id k x o = o.
Proof.
  induction o as [| | | | |l IH|j m IH] using node_ind'; try done.
  - cbn [node_ids assign]. intros Hid. f_equal.
    induction IH as [|c l Hc _ IHl]; [done|].
    rewrite bind_cons, not_elem_of_app in Hid. destruct Hid as [Hi1 Hi2].
    rewrite fmap_cons. by rewrite Hc, IHl by done.
  - rewrite node_ids_dict. intros [Hj Hid]%not_elem_of_cons. cbn [assign].
    rewrite bool_decide_eq_false_2 by done. f_equal.
    apply map_eq. intros q. rewrite lookup_fmap.
    destruct (m !! q) as [c|] eqn:Hq; [|done]. simpl. f_equal.
    apply (IH q c Hq). intros Hi. apply Hid, child_ids_elem. by exists q, c.
Qed.

Lemma node_getitem_Ok cur p c :
  node_getitem cur p = Ok c ↔ ∃ id m, cur = NDict id m ∧ m !! p = Some c.
Proof.
  split.
  - destruct cur as [| | | | | |id m]; try done. simpl.
    destruct (m !! p) eqn:Hp; [|done]. intros [= <-]. by eexists _, _.
  - intros (id & m & -> & Hp). simpl. by rewrite Hp.
Qed.

Lemma node_getitem_value cur k :
  getitem (node_value cur) k = (c ← node_getitem cur k; Ok (node_value c)).
Proof.
  destruct cur as [| | | | | |id m]; try done. simpl. rewrite lookup_fmap.
  by destruct (m !! k).
Qed.

Lemma walk_value ps : ∀ cur,
  get_dotted (node_value cur) ps = (c ← walk cur ps; Ok (node_value c)).
Proof.
  induction ps as [|p ps IH]; intros cur; [done|]. cbn [get_dotted walk].
  rewrite node_getitem_value.
  destruct (node_getitem cur p) as [c|]; [|done]. rewrite !bind_Ok. apply IH.
Qed.

(** The mapping a walk reaches is one of the mappings of the node it
    starts from. *)
Lemma walk_ids ps : ∀ cur i mt,
  walk cur ps = Ok (NDict i mt) → i ∈ node_ids cur.
Proof.
  induction ps as [|p ps IH]; intros cur i mt.
  { intros [= ->]. rewrite node_ids_dict. by left. }
  cbn [walk]. destruct (node_getitem cur p) as [c|] eqn:Hget; [|done].
  rewrite bind_Ok. intros Hwalk.
  apply node_getitem_Ok in Hget as (id & m & -> & Hp).
  rewrite node_ids_dict. right. apply child_ids_elem.
  exists p, c. split; [done|]. by eapply IH.
Qed.

(** Without shared mappings, an assignment below an entry of a mapping
    changes that entry only. *)
Lemma assign_child id m p c i k x :
  NoDup (node_ids (NDict id m)) → m !! p = Some c → i ∈ node_ids c →
  assign i k x (NDict id m) = NDict id (<[p := assign i k x c]> m).
Proof.
  intros Hnd Hp Hi.
  destruct (unshared_child id m p c Hnd Hp) as (_ & Hid & Hdisj).
  cbn [assign]. rewrite bool_decide_eq_false_2 by (by intros ->).
  f_equal. apply map_eq. intros q. rewrite lookup_fmap.
  destruct (decide (q = p)) as [->|Hne].
  - by rewrite Hp, lookup_insert_eq.
  - rewrite lookup_insert_ne by done.
    destruct (m !! q) as [c'|] eqn:Hq; [|done]. simpl. f_equal.
    apply assign_fresh. by eapply Hdisj.
Qed.

Lemma set_dotted_snoc cur p rest k x :
  set_dotted cur (p :: rest ++ [k]) x =
    child ← getitem cur p;
    child' ← set_dotted child (rest ++ [k]) x;
    setitem cur p child'.
Proof. by destruct rest. Qed.

(** Without shared mappings, the assignment in place is the update of the
    tree along the path. *)
Lemma set_dotted_assign ps : ∀ cur k x,
  NoDup (node_ids cur) →
  set_dotted (node_value cur) (ps ++ [k]) (node_value x)
  = (t ← walk cur ps; r ← node_setitem cur t k x; Ok (node_value r)).
Proof.
  induction ps as [|p ps IH]; intros cur k x Hnd.
  - cbn [app set_dotted walk]. rewrite bind_Ok.
    destruct cur as [| | | | | |id m]; try done.
    cbn [node_setitem assign node_value setitem].
    rewrite bool_decide_eq_true_2 by done. rewrite bind_Ok.
    cbn [node_value]. by rewrite fmap_insert.
  - rewrite <- app_comm_cons, set_dotted_snoc. cbn [walk].
    rewrite node_getitem_value.
    destruct (node_getitem cur p) as [c|] eqn:Hget; [|done]. rewrite !bind_Ok.
    apply node_getitem_Ok in Hget as (id & m & -> & Hp).
    destruct (unshared_child id m p c Hnd Hp) as (Hc & Hid & Hdisj).
    rewrite (IH c k x Hc).
    destruct (walk c ps) as [t|] eqn:Hwalk; [|done]. rewrite !bind_Ok.
    destruct t as [| | | | | |i mt]; try done.
    cbn [node_setitem]. rewrite !bind_Ok.
    rewrite (assign_child id m p c i k x Hnd Hp) by (by eapply walk_ids).
    cbn [node_value setitem]. by rewrite fmap_insert.
Qed.

(** An assignment of a value without mappings adds no identity. *)
Lemma assign_ids ps : ∀ cur i mt k x,
  NoDup (node_ids cur) → node_ids x = [] → walk cur ps = Ok (NDict i mt) →
  node_ids (assign i k x cur) ⊆+ node_ids cur.
Proof.
  induction ps as [|p ps IH]; intros cur i mt k x Hnd Hx.
  - intros [= ->]. cbn [assign]. rewrite bool_decide_eq_true_2 by done.
    rewrite !node_ids_dict. apply submseteq_skip.
    rewrite child_ids_insert, Hx. apply child_ids_delete.
  - cbn [walk]. destruct (node_getitem cur p) as [c|] eqn:Hget; [|done].
    rewrite bind_Ok. intros Hwalk.
    apply node_getitem_Ok in Hget as (id & m & -> & Hp).
    destruct (unshared_child id m p c Hnd Hp) as (Hc & Hid & Hdisj).
    rewrite (assign_child id m p c i k x Hnd Hp) by (by eapply walk_ids).
    rewrite !node_ids_dict. apply submseteq_skip.
    rewrite child_ids_insert, (child_ids_lookup m p c Hp).
    apply submseteq_skips_r. by eapply IH.
Qed.

Lemma split_on_removelast sep t :
  split_on sep t
  = removelast (split_on sep t) ++ [List.last (split_on sep t) []].
Proof. apply app_removelast_last, split_on_nonempty. Qed.

(** Without shared mappings, an override is the update of the tree along
    its path, and it shares no mapping either. *)
Lemma apply_override_value cfg dotted_key x :
  NoDup (node_ids cfg) →
  set_dotted (node_value cfg) (split_on 46 dotted_key) (node_value x)
  = (cfg' ← apply_override cfg dotted_key x; Ok (node_value cfg')).
Proof.
  intros Hnd. rewrite split_on_removelast at 1.
  rewrite set_dotted_assign by done. unfold apply_override.
  by destruct (walk cfg _).
Qed.

Lemma apply_override_unshared cfg dotted_key x cfg' :
  NoDup (node_ids cfg) → node_ids x = [] →
  apply_override cfg dotted_key x = Ok cfg' → NoDup (node_ids cfg').
Proof.
  intros Hnd Hx. unfold apply_override.
  destruct (walk cfg _) as [t|] eqn:Hwalk; [|done]. rewrite bind_Ok.
  destruct t as [| | | | | |i mt]; try done. intros [= <-].
  eapply submseteq_NoDup; [|exact Hnd]. by eapply assign_ids.
Qed.

Lemma apply_overrides_value overrides : ∀ cfg,
  NoDup (node_ids cfg) →
  Forall (λ o : str * node, node_ids o.2 = []) overrides →
  tree_overrides (node_value cfg) overrides
  = (cfg' ← apply_overrides cfg overrides; Ok (node_value cfg')).
Proof.
  induction overrides as [|[key x] overrides IH]; intros cfg Hnd Hall; [done|].
  apply Forall_cons in Hall as [Hx Hall]. cbn [tree_overrides apply_overrides].
  rewrite apply_override_value by done.
  destruct (apply_override cfg key x) as [cfg1|] eqn:Hone; [|done].
  rewrite !bind_Ok. apply IH; [|done].
  by eapply apply_override_unshared.
Qed.

(** X4: on a configuration in which no mapping is shared, an override
    [a.b.c = x] that is applied makes [cfg[a][b][c]] read [x], and changes
    no entry off that path. *)
Theorem override_round_trip (cfg : node) (dotted_key : str) (x cfg' : node) :
  unshared cfg →
  apply_override cfg dotted_key x = Ok cfg' →
  get_dotted (node_value cfg') (split_on 46 dotted_key) = Ok (node_value x)
  ∧ ∀ l k k' r r',
      split_on 46 dotted_key = l ++ k :: r → k ≠ k' →
      get_dotted (node_value cfg') (l ++ k' :: r')
      = get_dotted (node_value cfg) (l ++ k' :: r').
Proof.
  intros Hnd Hov.
  pose proof (apply_override_value cfg dotted_key x Hnd) as Hset.
  rewrite Hov, bind_Ok in Hset. split.
  - eapply set_dotted_get; [apply split_on_nonempty|done].
  - intros. by eapply set_dotted_frame.
Qed.

(** The sample configuration as it is loaded shares no mapping. *)
Lemma sample_loaded_unshared : unshared sample_loaded.
Proof.
  apply (bool_decide_unpack (NoDup (node_ids sample_loaded))).
  vm_compute. exact I.
Defined.

(** The override [storage.mode = both] on the sample configuration. *)
Lemma override_round_trip_example :
  ∃ cfg',
    apply_override sample_loaded (py "storage.mode") (NStr (py "both")) = Ok cfg'
    ∧ get_dotted (node_value cfg') [py "storage"; py "mode"]
      = Ok (VStr (py "both"))
    ∧ get_dotted (node_value cfg') [py "storage"; py "local_dir"]
      = Ok (VStr (py "out")).
Proof.
  destruct (apply_override sample_loaded (py "storage.mode") (NStr (py "both")))
    as [cfg'|] eqn:Hov; [|by vm_compute in Hov].
  pose proof (override_round_trip sample_loaded (py "storage.mode")
                (NStr (py "both")) cfg' sample_loaded_unshared Hov) as Hex.
  destruct Hex as [Hget Hframe].
  exists cfg'. split; [done|]. split; [exact Hget|].
  exact (Hframe [py "storage"] (py "mode") (py "local_dir") [] [] eq_refl
           ltac:(done)).
Defined.

(** X28: a mapping that occurs at two places of the configuration (an
    alias of the YAML file) is one object: an override of an entry under
    one of the places shows under the other too. *)
Theorem override_alias (id i : N) (m ma : gmap str node) (a b k : str)
    (x cfg' : node) :
  46%N ∉ a → 46%N ∉ k → id ≠ i →
  m !! a = Some (NDict i ma) → m !! b = Some (NDict i ma) →
  apply_override (NDict id m) (a ++ 46%N :: k) x = Ok cfg' →
  get_dotted (node_value cfg') [a; k] = Ok (node_value x)
  ∧ get_dotted (node_value cfg') [b; k] = Ok (node_value x).
Proof.
  intros Ha Hk Hid Hma Hmb. unfold apply_override.
  rewrite split_on_app, (split_on_no_sep _ k) by done.
  cbn [removelast List.last walk node_getitem]. rewrite Hma, !bind_Ok.
  cbn [node_setitem assign]. rewrite bool_decide_eq_false_2 by done.
  intros [= <-]. cbn [node_value get_dotted getitem].
  rewrite !lookup_fmap, Hma, Hmb. cbn [fmap option_fmap option_map assign].
  rewrite bool_decide_eq_true_2 by done. cbn [node_value]. rewrite !bind_Ok.
  cbn [getitem]. by rewrite lookup_fmap, lookup_insert_eq.
Qed.

(** [defaults: &d {mode: local}] and [storage: *d]: the override
    [storage.mode = both] changes [defaults.mode] too. *)
Lemma override_alias_example :
  ∃ cfg',
    apply_override sample_aliased (py "storage.mode") (NStr (py "both")) = Ok cfg'
    ∧ get_dotted (node_value sample_aliased) [py "defaults"; py "mode"]
      = Ok (VStr (py "local"))
    ∧ get_dotted (node_value cfg') [py "defaults"; py "mode"]
      = Ok (VStr (py "both")).
Proof.
  destruct (apply_override sample_aliased (py "storage.mode") (NStr (py "both")))
    as [cfg'|] eqn:Hov; [|by vm_compute in Hov].
  exists cfg'. split; [done|]. split; [reflexivity|].
  exact (proj2 (override_alias 0 1 sample_aliased_entries sample_defaults
                  (py "storage") (py "defaults") (py "mode")
                  (NStr (py "both")) cfg' ltac:(by apply py_no_dot)
                  ltac:(by apply py_no_dot) ltac:(done) eq_refl eq_refl Hov)).
Defined.

(** X5: an override is applied exactly when the keys before the last lead,
    from the configuration, to a mapping; the last key need not be there,
    the ones before it are never created. *)
Theorem override_applies (cfg : value) (dotted_key : str) (x : value) :
  (∃ cfg', set_dotted cfg (split_on 46 dotted_key) x = Ok cfg')
  ↔ ∃ d, get_dotted cfg (removelast (split_on 46 dotted_key)) = Ok (VDict d).
Proof.
  pose proof (split_on_nonempty 46 dotted_key) as Hne. revert cfg Hne.
  induction (split_on 46 dotted_key) as [|p rest IH]; [done|]. intros cfg _.
  destruct rest as [|q rest].
  - simpl. split.
    + intros (cfg' & (d & -> & _)%setitem_Ok). by exists d.
    + intros (d & [= ->]). by eexists.
  - rewrite set_dotted_cons.
    change (removelast (p :: q :: rest)) with (p :: removelast (q :: rest)).
    cbn [get_dotted].
    destruct (getitem cfg p) as [child|] eqn:Hget.
    2:{ split; [by intros [? ?]|by intros [? ?]]. }
    rewrite !bind_Ok. rewrite <- (IH child) by done.
    apply getitem_Ok in Hget as (d0 & -> & Hp).
    split.
    + intros (cfg' & Hset).
      destruct (set_dotted child (q :: rest) x) as [child'|]; [|done].
      by eexists.
    + intros (child' & ->). rewrite bind_Ok. by eexists.
Qed.

(** ** The overrides of the command line *)

Lemma flag_insert_lookup arg k m :
  flag_insert arg k m !! k = flag_value arg (m !! k).
Proof. destruct arg as [[|c s]|]; simpl; by rewrite ?lookup_insert_eq. Qed.

Lemma flag_insert_lookup_ne arg k j m :
  k ≠ j → flag_insert arg k m !! j = m !! j.
Proof. intros. destruct arg as [[|c s]|]; simpl; by rewrite ?lookup_insert_ne. Qed.

Lemma tree_overrides_app cfg l1 l2 :
  tree_overrides cfg (l1 ++ l2) = cfg' ← tree_overrides cfg l1; tree_overrides cfg' l2.
Proof.
  revert cfg. induction l1 as [|[k x] l1 IH]; intros cfg; [done|]. simpl.
  destruct (set_dotted cfg (split_on 46 k) (node_value x)); [apply IH|done].
Qed.

Lemma flag_override_top d key arg :
  46%N ∉ key →
  tree_overrides (VDict d) (flag_override key arg)
  = Ok (VDict (flag_insert arg key d)).
Proof.
  intros Hkey. destruct arg as [[|c s]|]; [done| |done].
  unfold flag_override. cbn [truthy]. rewrite bool_decide_eq_false_2 by done.
  cbn [negb tree_overrides]. by rewrite split_on_no_sep.
Qed.

Lemma flag_override_block d blk key m arg :
  46%N ∉ blk → 46%N ∉ key → d !! blk = Some (VDict m) →
  tree_overrides (VDict d) (flag_override (blk ++ 46%N :: key) arg)
  = Ok (VDict (<[blk := VDict (flag_insert arg key m)]> d)).
Proof.
  intros Hblk Hkey Hm.
  destruct arg as [[|c s]|]; simpl; try by rewrite insert_id.
  rewrite split_on_app, split_on_no_sep by done.
  cbn [set_dotted getitem]. by rewrite Hm.
Qed.

(** The overrides of the command line hold strings, no mapping. *)
Lemma flag_override_scalar key arg :
  Forall (λ o : str * node, node_ids o.2 = []) (flag_override key arg).
Proof.
  destruct arg as [s|]; simpl; [|done]. destruct (negb _); by repeat constructor.
Qed.

Lemma cli_overrides_scalar mode storage s3_bucket region :
  Forall (λ o : str * node, node_ids o.2 = [])
    (cli_overrides mode storage s3_bucket region).
Proof. unfold cli_overrides. rewrite !Forall_app. auto using flag_override_scalar. Qed.

(** The overrides of the command line on the value of a configuration
    with the two blocks [storage] and [aws]. *)
Lemma tree_cli_overrides (d st aws : dict)
    (mode storage s3_bucket region : option str) :
  d !! py "storage" = Some (VDict st) →
  d !! py "aws" = Some (VDict aws) →
  ∃ d' st' aws',
    tree_overrides (VDict d) (cli_overrides mode storage s3_bucket region)
    = Ok (VDict d')
    ∧ d' !! py "mode" = flag_value mode (d !! py "mode")
    ∧ d' !! py "storage" = Some (VDict st')
    ∧ st' !! py "mode" = flag_value storage (st !! py "mode")
    ∧ d' !! py "aws" = Some (VDict aws')
    ∧ aws' !! py "s3_bucket" = flag_value s3_bucket (aws !! py "s3_bucket")
    ∧ aws' !! py "region" = flag_value region (aws !! py "region")
    ∧ (∀ k, k ≠ py "mode" → k ≠ py "storage" → k ≠ py "aws" → d' !! k = d !! k)
    ∧ (∀ k, k ≠ py "mode" → st' !! k = st !! k)
    ∧ (∀ k, k ≠ py "s3_bucket" → k ≠ py "region" → aws' !! k = aws !! k).
Proof.
  intros Hst Haws. unfold cli_overrides.
  set (st' := flag_insert storage (py "mode") st).
  set (aws1 := flag_insert s3_bucket (py "s3_bucket") aws).
  set (aws' := flag_insert region (py "region") aws1).
  set (d1 := flag_insert mode (py "mode") d).
  set (d2 := <[py "storage" := VDict st']> d1).
  set (d3 := <[py "aws" := VDict aws1]> d2).
  exists (<[py "aws" := VDict aws']> d3), st', aws'.
  split.
  { change (py "storage.mode") with (py "storage" ++ 46%N :: py "mode").
    change (py "aws.s3_bucket") with (py "aws" ++ 46%N :: py "s3_bucket").
    change (py "aws.region") with (py "aws" ++ 46%N :: py "region").
    rewrite tree_overrides_app, flag_override_top by by apply py_no_dot.
    rewrite bind_Ok. fold d1.
    rewrite tree_overrides_app.
    rewrite (flag_override_block d1 (py "storage") (py "mode") st);
      [|by apply py_no_dot..|].
    2:{ unfold d1. by rewrite flag_insert_lookup_ne. }
    rewrite bind_Ok. fold st' d2.
    rewrite tree_overrides_app.
    rewrite (flag_override_block d2 (py "aws") (py "s3_bucket") aws);
      [|by apply py_no_dot..|].
    2:{ unfold d2, d1. rewrite lookup_insert_ne by done.
        by rewrite flag_insert_lookup_ne. }
    rewrite bind_Ok. fold aws1 d3.
    rewrite (flag_override_block d3 (py "aws") (py "region") aws1);
      [|by apply py_no_dot..|].
    2:{ unfold d3. by rewrite lookup_insert_eq. }
    done. }
  split.
  { unfold d3, d2, d1. rewrite !lookup_insert_ne by done.
    apply flag_insert_lookup. }
  split.
  { unfold d3, d2. rewrite !lookup_insert_ne by done.
    by rewrite lookup_insert_eq. }
  split; [apply flag_insert_lookup|].
  split; [by rewrite lookup_insert_eq|].
  split.
  { unfold aws', aws1. rewrite flag_insert_lookup_ne by done.
    apply flag_insert_lookup. }
  split.
  { unfold aws', aws1. rewrite flag_insert_lookup.
    by rewrite flag_insert_lookup_ne. }
  split.
  { intros k ? ? ?. unfold d3, d2, d1.
    rewrite !lookup_insert_ne by done. by rewrite flag_insert_lookup_ne. }
  split.
  { intros k ?. unfold st'. by rewrite flag_insert_lookup_ne. }
  intros k ? ?. unfold aws', aws1.
  by rewrite !flag_insert_lookup_ne.
Qed.

(** X6: the overrides of the command line, applied to a loaded
    configuration that has the two blocks [storage] and [aws] and shares
    no mapping: each flag given with a non-empty argument sets its entry,
    and no other entry changes. *)
Theorem cli_overrides_applied (id id_st id_aws : N) (m st aws : gmap str node)
    (mode storage s3_bucket region : option str) :
  unshared (NDict id m) →
  m !! py "storage" = Some (NDict id_st st) →
  m !! py "aws" = Some (NDict id_aws aws) →
  let d : dict := node_value <$> m in
  let vst : dict := node_value <$> st in
  let vaws : dict := node_value <$> aws in
  ∃ cfg' d' st' aws',
    apply_overrides (NDict id m) (cli_overrides mode storage s3_bucket region)
    = Ok cfg'
    ∧ node_value cfg' = VDict d'
    ∧ d' !! py "mode" = flag_value mode (d !! py "mode")
    ∧ d' !! py "storage" = Some (VDict st')
    ∧ st' !! py "mode" = flag_value storage (vst !! py "mode")
    ∧ d' !! py "aws" = Some (VDict aws')
    ∧ aws' !! py "s3_bucket" = flag_value s3_bucket (vaws !! py "s3_bucket")
    ∧ aws' !! py "region" = flag_value region (vaws !! py "region")
    ∧ (∀ k, k ≠ py "mode" → k ≠ py "storage" → k ≠ py "aws" → d' !! k = d !! k)
    ∧ (∀ k, k ≠ py "mode" → st' !! k = vst !! k)
    ∧ (∀ k, k ≠ py "s3_bucket" → k ≠ py "region" → aws' !! k = vaws !! k).
Proof.
  intros Hnd Hst Haws d vst vaws.
  destruct (tree_cli_overrides d vst vaws mode storage s3_bucket region)
    as (d' & st' & aws' & Htree & Hrest).
  { unfold d. by rewrite lookup_fmap, Hst. }
  { unfold d. by rewrite lookup_fmap, Haws. }
  pose proof (apply_overrides_value
                (cli_overrides mode storage s3_bucket region) (NDict id m) Hnd
                (cli_overrides_scalar _ _ _ _)) as Hval.
  cbn [node_value] in Hval. fold d in Hval. rewrite Htree in Hval.
  destruct (apply_overrides _ _) as [cfg'|]; [|done].
  rewrite bind_Ok in Hval. injection Hval as Hval.
  by exists cfg', d', st', aws'.
Qed.

(** [--storage both] with an empty [--s3-bucket] argument, on the sample
    configuration: the storage mode is the one of the flag. *)
Lemma cli_overrides_applied_example :
  ∃ cfg' d' st',
    apply_overrides sample_loaded
      (cli_overrides None (Some (py "both")) (Some []) None) = Ok cfg'
    ∧ node_value cfg' = VDict d'
    ∧ d' !! py "storage" = Some (VDict st')
    ∧ st' !! py "mode" = Some (VStr (py "both")).
Proof.
  pose proof (cli_overrides_applied 0 1 2 _ _ _ None (Some (py "both"))
                (Some []) None sample_loaded_unshared eq_refl eq_refl) as Hex.
  destruct Hex as (cfg' & d' & st' & aws' & Happ & Hv & _ & Hs & Hm & _).
  exists cfg', d', st'. split; [exact Happ|]. split; [exact Hv|].
  split; [exact Hs|]. rewrite Hm. reflexivity.
Defined.

(** ** The mode of a run *)

Lemma tree_overrides_frame overrides : ∀ cfg cfg' k,
  tree_overrides cfg overrides = Ok cfg' →
  Forall (λ o : str * node, ∃ p rest, split_on 46 o.1 = p :: rest ∧ p ≠ k)
    overrides →
  getitem cfg' k = getitem cfg k.
Proof.
  induction overrides as [|[key x] overrides IH]; intros cfg cfg' k.
  { by intros [= <-]. }
  simpl.
  destruct (set_dotted cfg (split_on 46 key) (node_value x)) as [cfg1|] eqn:Hset;
    [|done].
  rewrite bind_Ok. intros Happ [(p & rest & Hsplit & Hp) Hall]%Forall_cons.
  rewrite (IH cfg1 cfg' k Happ Hall). simpl in Hsplit.
  pose proof (set_dotted_frame _ _ _ _ [] p k rest [] Hset Hsplit Hp) as Hf.
  simpl in Hf. by destruct (getitem cfg1 k), (getitem cfg k); simplify_eq/=.
Qed.

Lemma flag_override_first key arg k :
  (∃ p rest, split_on 46 key = p :: rest ∧ p ≠ k) →
  Forall (λ o : str * node, ∃ p rest, split_on 46 o.1 = p :: rest ∧ p ≠ k)
    (flag_override key arg).
Proof.
  intros Hkey. destruct arg as [[|c s]|]; repeat constructor. done.
Qed.

(** X7: on a configuration that shares no mapping, a mode given on the
    command line is the mode of the run, whatever the configuration file
    says and whatever the other flags are; with [--mode full],
    [apply_limit] then returns every stream whole. *)
Theorem run_download_mode_flag `{Externals} (loaded : result node)
    (config_path : str) (c : N) (m : str) (storage s3_bucket region : option str)
    (run_id now : str) (wrapper_version cfg' : value) (run_md : dict)
    (mode : value) :
  match loaded with Ok cfg => unshared cfg | Err _ => True end →
  run_download_config true loaded config_path
    (cli_overrides (Some (c :: m)) storage s3_bucket region)
    run_id now wrapper_version = Ok (cfg', run_md, mode) →
  mode = VStr (c :: m)
  ∧ (c :: m = py "full" →
     ∀ (A : Type) (dataset : list A) (limit_cfg : value),
       apply_limit dataset limit_cfg mode = Ok dataset).
Proof.
  intros Hnd. unfold run_download_config. cbn [negb].
  destruct loaded as [cfg|]; [|done]. rewrite bind_Ok.
  pose proof (apply_overrides_value
                (cli_overrides (Some (c :: m)) storage s3_bucket region) cfg Hnd
                (cli_overrides_scalar _ _ _ _)) as Happ.
  destruct (apply_overrides cfg _) as [cfg1|]; [|done]. rewrite !bind_Ok in *.
  cbn zeta.
  destruct (_build_run_metadata _ _ _ _ _) as [md|]; [|done]. rewrite bind_Ok.
  destruct (getitem (node_value cfg1) (py "mode")) as [v|] eqn:Hmode; [|done].
  rewrite bind_Ok. intros [= <- <- <-].
  assert (v = VStr (c :: m)) as ->.
  { unfold cli_overrides in Happ. rewrite tree_overrides_app in Happ.
    destruct (tree_overrides (node_value cfg)
                (flag_override (py "mode") (Some (c :: m))))
      as [cfg0|] eqn:H0; [|done].
    rewrite bind_Ok in Happ.
    assert (getitem cfg0 (py "mode") = Ok (VStr (c :: m))) as Hm0.
    { revert H0. unfold flag_override. cbn [truthy].
      rewrite bool_decide_eq_false_2 by done. cbn [negb tree_overrides].
      destruct (set_dotted (node_value cfg) (split_on 46 (py "mode"))
                  (node_value (NStr (c :: m))))
        as [cfg2|] eqn:Hset; [|done].
      rewrite bind_Ok. intros [= ->].
      change (split_on 46 (py "mode")) with [py "mode"] in Hset.
      apply (set_dotted_get [py "mode"]) in Hset; [|done].
      cbn [get_dotted] in Hset.
      by destruct (getitem cfg0 (py "mode")); simplify_eq/=. }
    rewrite (tree_overrides_frame _ cfg0 (node_value cfg1) (py "mode") Happ)
      in Hmode.
    - congruence.
    - rewrite !Forall_app. repeat split; apply flag_override_first;
        by eexists _, _. }
  split; [done|]. intros -> A dataset limit_cfg.
  unfold apply_limit. by rewrite eq_str_refl.
Qed.

(** [--mode full] over the sample configuration, which has no mode of its
    own and no run metadata. *)
Lemma run_download_mode_flag_example :
  run_download_config true (Ok sample_loaded) (py "config.yml")
    (cli_overrides (Some (py "full")) None None None)
    (py "id-1") (py "2024-01-01T00:00:00+00:00") (VStr (py "0.1.0"))
  = Ok (VDict (<[py "mode" := VStr (py "full")]> sample_storage), ∅,
        VStr (py "full"))
  ∧ apply_limit (H:=sample_env) [1; 2; 3] VNone (VStr (py "full"))
    = Ok [1; 2; 3].
Proof.
  assert (run_download_config true (Ok sample_loaded) (py "config.yml")
            (cli_overrides (Some (py "full")) None None None)
            (py "id-1") (py "2024-01-01T00:00:00+00:00") (VStr (py "0.1.0"))
          = Ok (VDict (<[py "mode" := VStr (py "full")]> sample_storage), ∅,
                VStr (py "full"))) as Hrun by (vm_compute; reflexivity).
  split; [exact Hrun|].
  exact (proj2 (run_download_mode_flag (H:=sample_env) (Ok sample_loaded)
                  _ _ _ None None None _ _ _ _ _ _ sample_loaded_unshared Hrun)
           eq_refl Z [1; 2; 3] VNone).
Defined.

(** ** [_build_run_metadata] *)

Lemma hashable_items_Ok l s : hashable_items l = Ok s → s = l.
Proof.
  revert s. induction l as [|v l IH]; intros s; [by intros [= <-]|]. simpl.
  destruct (hashable_items l) as [r|]; [|by destruct v].
  specialize (IH r eq_refl) as ->. by destruct v; intros [= <-].
Qed.

Lemma existsb_eq_str l k : existsb (λ v, eq_str v k) l = true ↔ VStr k ∈ l.
Proof.
  rewrite existsb_exists. split.
  - intros (v & Hv%list_elem_of_In & ->%eq_str_true). done.
  - intros Hk. exists (VStr k). split; [by apply list_elem_of_In|apply eq_str_refl].
Qed.

Lemma keep_include include inc k :
  include_set include = Ok inc →
  keep inc k = true ↔ ∀ l, include = VList l → VStr k ∈ l.
Proof.
  destruct include as [| | | | |l|]; try (intros [= <-]; by split).
  simpl. destruct (hashable_items l) as [s|] eqn:Hs; [|done].
  apply hashable_items_Ok in Hs as ->. intros [= <-]. simpl.
  rewrite existsb_eq_str. split; [by intros ? ? [= <-]|auto].
Qed.

Lemma lookup_cond_insert (b : bool) (k j : str) (v : value) (m : dict) :
  is_Some ((if b then <[k := v]> m else m) !! j)
  ↔ (b = true ∧ j = k) ∨ is_Some (m !! j).
Proof.
  destruct b.
  - rewrite lookup_insert_is_Some. split.
    + intros [->|[_ ?]]; auto.
    + intros [[_ ->]|?]; [by left|]. destruct (decide (k = j)); auto.
  - split; [auto|]. by intros [[? _]|?].
Qed.

Lemma bind_cond_insert (b : bool) (k : str) (r : result value) (m md : dict) :
  (if b then v ← r; Ok (<[k := v]> m) else Ok m) = Ok md →
  ∃ v, md = if b then <[k := v]> m else m.
Proof.
  destruct b; [|intros [= <-]; by exists VNone].
  destruct r as [v|]; [|done]. intros [= <-]. by exists v.
Qed.

(** X8: when run metadata is enabled, the mapping [_build_run_metadata]
    returns has exactly the keys it knows that the [include] list names,
    and all eight of them when [include] is not a list. *)
Theorem build_run_metadata_keys (run_id now : str) (wrapper_version cfg : value)
    (config_path : str) (p runcfg md : dict) :
  _get_processing_cfg cfg = Ok (VDict p) →
  dict_get p (py "run_metadata") VNone = VDict runcfg →
  truthy (dict_get runcfg (py "enabled") (VBool false)) = true →
  _build_run_metadata run_id now wrapper_version cfg config_path = Ok md →
  ∀ k, is_Some (md !! k)
       ↔ k ∈ run_metadata_keys
         ∧ ∀ l, dict_get runcfg (py "include") VNone = VList l → VStr k ∈ l.
Proof.
  intros Hp Hrun Hen. unfold _build_run_metadata.
  rewrite Hp, bind_Ok. cbn [method_get]. rewrite bind_Ok, Hrun.
  cbn [dict_or_empty]. rewrite Hen.
  assert (truthy (VDict runcfg) = true) as ->.
  { cbn [truthy]. apply negb_true_iff, bool_decide_eq_false. intros ->.
    unfold dict_get in Hen. by rewrite lookup_empty in Hen. }
  cbn [negb orb].
  destruct (include_set _) as [inc|] eqn:Hinc; [|done]. rewrite bind_Ok.
  pose proof (λ k, keep_include _ _ k Hinc) as Hkeep. clear Hinc.
  set (include := dict_get runcfg (py "include") VNone) in *.
  destruct (if keep inc (py "mode") then _ else _) as [md4|] eqn:H4; [|done].
  apply bind_cond_insert in H4 as [v4 ->]. rewrite bind_Ok.
  destruct (if keep inc (py "storage_mode") then _ else _) as [md5|] eqn:H5; [|done].
  apply bind_cond_insert in H5 as [v5 ->]. rewrite bind_Ok.
  destruct (if keep inc (py "s3_bucket") then _ else _) as [md6|] eqn:H6; [|done].
  apply bind_cond_insert in H6 as [v6 ->]. rewrite bind_Ok.
  destruct (if keep inc (py "s3_prefix") then _ else _) as [md7|] eqn:H7; [|done].
  apply bind_cond_insert in H7 as [v7 ->]. rewrite bind_Ok.
  intros [= <-] k.
  rewrite !lookup_cond_insert, lookup_empty.
  unfold run_metadata_keys. rewrite !elem_of_cons, elem_of_nil.
  rewrite <- Hkeep. split.
  - intros Hk. repeat (destruct Hk as [[Hb ->]|Hk]; [by auto 10|]).
    by destruct Hk.
  - intros [Hk Hb]. repeat (destruct Hk as [->|Hk]; [by auto 10|]). done.
Qed.

(** Run metadata enabled with [include: [run_id, storage_mode]]: the two
    keys are there, and [mode] is there exactly when it is known and
    included. *)
Lemma build_run_metadata_keys_example :
  _build_run_metadata (py "id-1") (py "2024-01-01T00:00:00+00:00")
    (VStr (py "0.1.0")) (VDict sample_run_cfg) (py "config.yml")
  = Ok (<[py "storage_mode" := VStr (py "local")]>
          {[py "run_id" := VStr (py "id-1")]})
  ∧ (is_Some ((<[py "storage_mode" := VStr (py "local")]>
                 ({[py "run_id" := VStr (py "id-1")]} : dict)) !! py "mode")
     ↔ py "mode" ∈ run_metadata_keys
       ∧ ∀ l, dict_get sample_run_metadata (py "include") VNone = VList l →
              VStr (py "mode") ∈ l).
Proof.
  assert (_build_run_metadata (py "id-1") (py "2024-01-01T00:00:00+00:00")
            (VStr (py "0.1.0")) (VDict sample_run_cfg) (py "config.yml")
          = Ok (<[py "storage_mode" := VStr (py "local")]>
                  {[py "run_id" := VStr (py "id-1")]})) as Hrun
    by reflexivity.
  split; [exact Hrun|].
  assert (_get_processing_cfg (VDict sample_run_cfg)
          = Ok (VDict {[py "run_metadata" := VDict sample_run_metadata]})) as Hp
    by reflexivity.
  assert (dict_get ({[py "run_metadata" := VDict sample_run_metadata]} : dict)
            (py "run_metadata") VNone = VDict sample_run_metadata) as Hr
    by reflexivity.
  assert (truthy (dict_get sample_run_metadata (py "enabled") (VBool false))
          = true) as Hen by reflexivity.
  exact (build_run_metadata_keys _ _ _ _ _ _ _ _ Hp Hr Hen Hrun (py "mode")).
Defined.

Lemma cond_insert_lookup_eq (b : bool) (k : str) (v : value) (m : dict) :
  m !! k = None →
  cond_insert b k v m !! k = if b then Some v else None.
Proof. intros Hm. destruct b; [apply lookup_insert_eq|done]. Qed.

Lemma cond_insert_lookup_ne (b : bool) (k j : str) (v : value) (m : dict) :
  k ≠ j → cond_insert b k v m !! j = m !! j.
Proof. intros. destruct b; [by apply lookup_insert_ne|done]. Qed.

Lemma block_get_configured cfg block key (v : value) b :
  getitem cfg block = Ok b → getitem b key = Ok v →
  block_get cfg block key = Ok v.
Proof.
  intros (d & -> & Hb)%getitem_Ok (m & -> & Hk)%getitem_Ok.
  unfold block_get. cbn [method_get]. rewrite bind_Ok.
  unfold dict_get at 1. rewrite Hb.
  change (default VNone (Some (VDict m))) with (VDict m).
  rewrite py_or_truthy.
  - cbn [method_get]. unfold dict_get. by rewrite Hk.
  - cbn [truthy]. apply negb_true_iff, bool_decide_eq_false. intros ->.
    by rewrite lookup_empty in Hk.
Qed.

(** X9: with run metadata enabled and the sinks configured, the mapping
    [_build_run_metadata] returns holds, under each key that is kept, the
    identifier and the time of the run, the path and the mode of the
    configuration, and the storage mode, the bucket and the prefix that
    [process_stream] hands to [save_records]. *)
Theorem build_run_metadata_values (run_id now : str)
    (wrapper_version : value) (d : dict) (config_path : str)
    (p runcfg : dict) (inc : option (list value))
    (mode : value) (local_dir : str) (bucket s3_prefix : value) :
  _get_processing_cfg (VDict d) = Ok (VDict p) →
  dict_get p (py "run_metadata") VNone = VDict runcfg →
  truthy (dict_get runcfg (py "enabled") (VBool false)) = true →
  include_set (dict_get runcfg (py "include") VNone) = Ok inc →
  storage_configured (VDict d) mode local_dir bucket s3_prefix →
  ∃ md,
    _build_run_metadata run_id now wrapper_version (VDict d) config_path = Ok md
    ∧ ∀ k v,
        (k, v) ∈ [(py "run_id", VStr run_id); (py "run_started_at", VStr now);
                  (py "config_path", VStr config_path);
                  (py "mode", dict_get d (py "mode") VNone);
                  (py "storage_mode", mode); (py "s3_bucket", bucket);
                  (py "s3_prefix", s3_prefix);
                  (py "wrapper_version", wrapper_version)] →
        md !! k = if keep inc k then Some v else None.
Proof.
  intros Hp Hrun Hen Hinc (storage & aws & H1 & H2 & _ & H4 & H5 & H6).
  unfold _build_run_metadata.
  rewrite Hp, bind_Ok. cbn [method_get]. rewrite bind_Ok, Hrun.
  cbn [dict_or_empty]. rewrite Hen.
  assert (truthy (VDict runcfg) = true) as ->.
  { cbn [truthy]. apply negb_true_iff, bool_decide_eq_false. intros ->.
    unfold dict_get in Hen. by rewrite lookup_empty in Hen. }
  cbn [negb orb]. rewrite Hinc, bind_Ok.
  rewrite (block_get_configured _ _ _ mode storage H1 H2).
  rewrite (block_get_configured _ _ _ bucket aws H4 H5).
  rewrite (block_get_configured _ _ _ s3_prefix aws H4 H6).
  rewrite !bind_Ok.
  exists (cond_insert (keep inc (py "wrapper_version")) (py "wrapper_version")
            wrapper_version
         (cond_insert (keep inc (py "s3_prefix")) (py "s3_prefix") s3_prefix
         (cond_insert (keep inc (py "s3_bucket")) (py "s3_bucket") bucket
         (cond_insert (keep inc (py "storage_mode")) (py "storage_mode") mode
         (cond_insert (keep inc (py "mode")) (py "mode")
            (dict_get d (py "mode") VNone)
         (cond_insert (keep inc (py "config_path")) (py "config_path")
            (VStr config_path)
         (cond_insert (keep inc (py "run_started_at")) (py "run_started_at")
            (VStr now)
         (cond_insert (keep inc (py "run_id")) (py "run_id") (VStr run_id)
            ∅)))))))).
  split.
  { unfold cond_insert.
    by destruct (keep inc (py "mode")), (keep inc (py "storage_mode")),
      (keep inc (py "s3_bucket")), (keep inc (py "s3_prefix")). }
  intros k v Hkv. rewrite !elem_of_cons, elem_of_nil in Hkv.
  destruct Hkv as [Hkv|[Hkv|[Hkv|[Hkv|[Hkv|[Hkv|[Hkv|[Hkv|[]]]]]]]]];
    injection Hkv as -> ->;
    rewrite ?cond_insert_lookup_ne by done;
    rewrite cond_insert_lookup_eq; [done| |done| |done| |done| |done| |done| |done| |done|];
    by rewrite ?cond_insert_lookup_ne by done.
Qed.

(** The same configuration: the storage mode is recorded, the bucket is
    not. *)
Lemma build_run_metadata_values_example :
  ∃ md,
    _build_run_metadata (py "id-1") (py "2024-01-01T00:00:00+00:00")
      (VStr (py "0.1.0")) (VDict sample_run_cfg) (py "config.yml") = Ok md
    ∧ md !! py "storage_mode" = Some (VStr (py "local"))
    ∧ md !! py "s3_bucket" = None.
Proof.
  assert (_get_processing_cfg (VDict sample_run_cfg)
          = Ok (VDict {[py "run_metadata" := VDict sample_run_metadata]})) as Hp
    by reflexivity.
  assert (dict_get ({[py "run_metadata" := VDict sample_run_metadata]} : dict)
            (py "run_metadata") VNone = VDict sample_run_metadata) as Hr
    by reflexivity.
  assert (truthy (dict_get sample_run_metadata (py "enabled") (VBool false))
          = true) as Hen by reflexivity.
  assert (include_set (dict_get sample_run_metadata (py "include") VNone)
          = Ok (Some [VStr (py "run_id"); VStr (py "storage_mode")])) as Hinc
    by reflexivity.
  assert (storage_configured (VDict sample_run_cfg) (VStr (py "local"))
            (py "out") (VStr (py "bucket")) (VStr (py "corpus"))) as Hst.
  { do 2 eexists. repeat split; by vm_compute. }
  pose proof (build_run_metadata_values (py "id-1")
                (py "2024-01-01T00:00:00+00:00") (VStr (py "0.1.0"))
                sample_run_cfg (py "config.yml") _ _ _ _ _ _ _
                Hp Hr Hen Hinc Hst) as Hex.
  destruct Hex as (md & Hmd & Hvals).
  exists md. split; [exact Hmd|]. split.
  - apply (Hvals (py "storage_mode") (VStr (py "local"))).
    do 4 apply list_elem_of_further. apply list_elem_of_here.
  - apply (Hvals (py "s3_bucket") (VStr (py "bucket"))).
    do 5 apply list_elem_of_further. apply list_elem_of_here.
Defined.

(** ** [apply_limit], once more *)

Lemma islice_prefix {A} (dataset : list A) stop out :
  islice dataset stop = Ok out → out `prefix_of` dataset.
Proof.
  destruct stop as [|b|n| | | |]; simpl; try done.
  - by intros [= <-].
  - intros [= <-]. apply prefix_take.
  - destruct (bool_decide _); [|by destruct (bool_decide _)].
    intros [= <-]. apply prefix_take.
Qed.

(** X10: whatever the limit and the mode, the items [apply_limit] returns
    are the first items of the stream, in order. *)
Theorem apply_limit_prefix `{Externals} {A} (dataset : list A)
    (limit_cfg mode : value) (out : list A) :
  apply_limit dataset limit_cfg mode = Ok out → out `prefix_of` dataset.
Proof.
  unfold apply_limit. destruct (eq_str mode _); [by intros [= <-]|].
  destruct (getitem limit_cfg (py "type")) as [ty|]; [|done]. rewrite bind_Ok.
  destruct (eq_str ty (py "none")); [by intros [= <-]|].
  destruct (eq_str ty (py "rows")).
  { destruct (getitem limit_cfg (py "value")) as [v|]; [|done].
    rewrite bind_Ok. apply islice_prefix. }
  destruct (eq_str ty (py "percent")); [|done].
  destruct (getitem limit_cfg (py "value")) as [v|]; [|done]. rewrite bind_Ok.
  destruct (percent_items v) as [n|]; [|done]. rewrite bind_Ok.
  apply islice_prefix.
Qed.

(** The first two of three rows. *)
Lemma apply_limit_prefix_example :
  apply_limit (H:=sample_env) [1; 2; 3]
    (VDict (<[py "type" := VStr (py "rows")]> {[py "value" := VInt 2]}))
    (VStr (py "test")) = Ok [1; 2]
  ∧ [1; 2] `prefix_of` [1; 2; 3].
Proof.
  assert (apply_limit (H:=sample_env) [1; 2; 3]
            (VDict (<[py "type" := VStr (py "rows")]> {[py "value" := VInt 2]}))
            (VStr (py "test")) = Ok [1; 2]) as Hlim by reflexivity.
  split; [exact Hlim|].
  exact (apply_limit_prefix (H:=sample_env) _ _ _ _ Hlim).
Defined.

(** ** [_merge_spans] and [mask_spans], once more *)

(** X11: the merged spans, and so the masked text, do not depend on the
    order in which the spans are given. *)
Theorem merge_spans_order (t : str) (spans spans' : list (Z * Z))
    (mask_token : value) :
  spans ≡ₚ spans' →
  _merge_spans spans = _merge_spans spans'
  ∧ mask_spans t spans mask_token = mask_spans t spans' mask_token.
Proof.
  intros Hp.
  assert (_merge_spans spans = _merge_spans spans') as Heq.
  { unfold _merge_spans. f_equal.
    apply (Sorted_unique span_le); [apply Sorted_merge_sort, _..|].
    by rewrite !merge_sort_Permutation. }
  split; [done|]. unfold mask_spans. by rewrite Heq.
Qed.

(** Two overlapping spans, given in both orders. *)
Lemma merge_spans_order_example :
  _merge_spans [(2, 5); (0, 3)] = _merge_spans [(0, 3); (2, 5)]
  ∧ mask_spans (py "hello world") [(2, 5); (0, 3)] (VStr (py "<PII>"))
    = mask_spans (py "hello world") [(0, 3); (2, 5)] (VStr (py "<PII>")).
Proof.
  apply (merge_spans_order (py "hello world") [(2, 5); (0, 3)] [(0, 3); (2, 5)]).
  apply perm_swap.
Defined.

Lemma separated_all_valid l : separated l → Forall valid_span l.
Proof.
  induction l as [|x l IH]; [done|]. intros (? & _ & ?). constructor; auto.
Qed.

Lemma separated_Sorted l : separated l → Sorted span_le l.
Proof.
  induction l as [|x l IH]; [constructor|]. intros (Hx & Hy & Hl).
  constructor; [auto|]. destruct l as [|y l]; constructor.
  destruct Hl as (Hvy & _). unfold span_le, valid_span in *. lia.
Qed.

Lemma merge_running_separated_id cur l :
  separated (cur :: l) → merge_running cur l = cur :: l.
Proof.
  revert cur. induction l as [|x l IH]; intros cur; [done|].
  intros (Hc & Hx & Hl). simpl.
  rewrite (proj2 (Z.leb_gt _ _)) by done. by rewrite IH.
Qed.

Lemma filter_all {A} (P : A → Prop) `{!∀ x, Decision (P x)} (l : list A) :
  Forall P l → filter P l = l.
Proof.
  induction 1 as [|x l Hx Hl IH]; [done|]. by rewrite filter_cons_True, IH.
Qed.

Lemma merge_spans_separated_id l : separated l → _merge_spans l = l.
Proof.
  intros Hl. rewrite merge_spans_spec. unfold merge_spec.
  rewrite filter_all by by apply separated_all_valid.
  assert (merge_sort span_le l = l) as ->.
  { apply (Sorted_unique span_le);
      [apply Sorted_merge_sort, _|by apply separated_Sorted
      |apply merge_sort_Permutation]. }
  destruct l as [|x l]; [done|]. by apply merge_running_separated_id.
Qed.

(** X12: merging is idempotent: the merged spans are merged to themselves,
    and masking with them is masking with the spans they come from. *)
Theorem merge_spans_idempotent (t : str) (spans : list (Z * Z))
    (mask_token : value) :
  _merge_spans (_merge_spans spans) = _merge_spans spans
  ∧ mask_spans t (_merge_spans spans) mask_token = mask_spans t spans mask_token.
Proof.
  assert (_merge_spans (_merge_spans spans) = _merge_spans spans) as Heq.
  { apply merge_spans_separated_id, merge_spans_separated. }
  split; [done|]. unfold mask_spans. by rewrite Heq.
Qed.

(** ** [normalize_text], once more *)

Abbreviation visible := (λ c : N, isspace c = false).

Lemma ws_sub_visible t : filter visible (ws_sub t) = filter visible t.
Proof.
  induction t as [|c t IH]; [done|]. simpl.
  destruct (isspace c) eqn:Hc.
  - rewrite (filter_cons_False _ c) by by rewrite Hc.
    destruct t as [|c' t]; [done|].
    destruct (isspace c') eqn:Hc'; [done|].
    by rewrite filter_cons_False, IH.
  - by rewrite !filter_cons_True, IH.
Qed.

Lemma filter_visible_spaces ws :
  Forall (λ c, isspace c = true) ws → filter visible ws = [].
Proof.
  induction 1 as [|c ws Hc Hws IH]; [done|].
  rewrite filter_cons_False; [done|]. simpl. by rewrite Hc.
Qed.

Lemma strip_visible t : filter visible (strip t) = filter visible t.
Proof.
  unfold strip.
  destruct (lstrip_spec t) as (ws1 & H1 & Hws1 & _).
  destruct (rstrip_spec (lstrip t)) as (ws2 & H2 & Hws2 & _).
  rewrite H1 at 2. rewrite H2 at 2.
  rewrite !filter_app, (filter_visible_spaces ws1), (filter_visible_spaces ws2)
    by done.
  by rewrite app_nil_r.
Qed.

Lemma remove_nul_visible t :
  filter visible (remove_nul t) = filter (λ c, isspace c = false ∧ c ≠ 0%N) t.
Proof. unfold remove_nul. by rewrite list_filter_filter. Qed.

Lemma length_ws_sub t : (length (ws_sub t) ≤ length t)%nat.
Proof.
  induction t as [|c t IH]; [done|]. simpl.
  destruct (isspace c); [|simpl; lia].
  destruct t as [|c' t]; [done|]. destruct (isspace c'); simpl in *; lia.
Qed.

Lemma length_strip t : (length (strip t) ≤ length t)%nat.
Proof.
  unfold strip.
  destruct (lstrip_spec t) as (ws1 & H1 & _).
  destruct (rstrip_spec (lstrip t)) as (ws2 & H2 & _).
  rewrite H1 at 2. rewrite H2 at 2. rewrite !length_app. lia.
Qed.

(** X13: beside the Unicode normalisation, [normalize_text] only removes
    NULs and rewrites whitespace: the characters of the result that are
    not whitespace are those of the Unicode-normalised text that are
    neither whitespace nor NUL, in the same order, and the result is no
    longer than that text. *)
Theorem normalize_text_keeps_characters `{Externals} (t t1 r : str)
    (form collapse : value) :
  unicode_step form t = Ok t1 →
  normalize_text (Some t) form collapse = Ok r →
  filter (λ c, isspace c = false) r
  = filter (λ c, isspace c = false ∧ c ≠ 0%N) t1
  ∧ (length r ≤ length t1)%nat.
Proof.
  intros Hstep. unfold normalize_text. rewrite Hstep, bind_Ok.
  intros [= <-].
  assert (length (remove_nul t1) ≤ length t1)%nat as Hlen
    by apply length_filter.
  destruct (truthy collapse).
  - rewrite strip_visible, ws_sub_visible, remove_nul_visible.
    split; [done|].
    pose proof (length_strip (ws_sub (remove_nul t1))).
    pose proof (length_ws_sub (remove_nul t1)). lia.
  - by rewrite remove_nul_visible.
Qed.

(** A text with blanks, a tab, a newline and a NUL, under the form [none]:
    the letters [a] and [b] remain, a space between them. *)
Lemma normalize_text_keeps_characters_example :
  filter (λ c, isspace c = false) [97; 32; 98]%N
  = filter (λ c, isspace c = false ∧ c ≠ 0%N) [32; 97; 9; 32; 0; 98; 10]%N
  ∧ (length [97; 32; 98]%N ≤ length [32; 97; 9; 32; 0; 98; 10]%N)%nat.
Proof.
  apply (normalize_text_keeps_characters (H:=sample_env)
           [32; 97; 9; 32; 0; 98; 10]%N [32; 97; 9; 32; 0; 98; 10]%N
           [97; 32; 98]%N (VStr (py "none")) (VBool true)); by vm_compute.
Defined.

(** ** [stable_id] *)

Lemma hex_digit_char v : 0 ≤ v < 16 → hex_char (hex_digit v).
Proof.
  intros Hv. unfold hex_digit, hex_char.
  destruct (Z.ltb_spec v 10); lia.
Qed.

Lemma hex_word_chars n x : Forall hex_char (hex_word n x).
Proof.
  induction n as [|n IH]; [constructor|]. simpl. constructor; [|done].
  apply hex_digit_char, Z.mod_pos_bound. lia.
Qed.

(** X14: an identifier is forty hexadecimal digits in lower case, whatever
    the parts. *)
Theorem stable_id_format (parts : list (option str)) :
  length (stable_id parts) = 40%nat ∧ Forall hex_char (stable_id parts).
Proof.
  unfold stable_id, sha1_hexdigest.
  destruct (sha1_blocks _ _ _) as [[[[a b] c] d] e].
  split; [by rewrite !length_app, !length_hex_word|].
  rewrite !Forall_app. repeat split; apply hex_word_chars.
Qed.

Lemma utf8_encode_cons c t : utf8_encode (c :: t) = utf8_char c ++ utf8_encode t.
Proof. done. Qed.

Lemma utf8_encode_app t1 t2 :
  utf8_encode (t1 ++ t2) = utf8_encode t1 ++ utf8_encode t2.
Proof. unfold utf8_encode. apply bind_app. Qed.

Lemma utf8_char_surrogate c : surrogate c = true → utf8_char c = [].
Proof.
  unfold surrogate, utf8_char. intros Hs. rewrite Hs.
  apply andb_true_iff in Hs as [H1%N.leb_le H2%N.leb_le].
  by rewrite !(proj2 (N.ltb_ge _ _)) by lia.
Qed.

Lemma utf8_encode_surrogates t :
  utf8_encode (filter (λ c, surrogate c = false) t) = utf8_encode t.
Proof.
  induction t as [|c t IH]; [done|]. rewrite filter_cons.
  destruct (decide (surrogate c = false)) as [Hc|Hc].
  - by rewrite !utf8_encode_cons, IH.
  - rewrite utf8_encode_cons, utf8_char_surrogate, IH; [done|].
    by destruct (surrogate c).
Qed.

Lemma stable_id_bytes_surrogates (parts : list (option str)) :
  stable_id_bytes (fmap (M:=option) (filter (λ c, surrogate c = false)) <$> parts)
  = stable_id_bytes parts.
Proof.
  induction parts as [|[p|] parts IH]; [done|..]; rewrite fmap_cons;
    cbn [fmap option_fmap option_map stable_id_bytes]; [|done].
  by rewrite IH, utf8_encode_surrogates.
Qed.

(** X15: the encoding that [stable_id] hashes loses the surrogates, which it
    ignores, and the boundary of two parts when a part holds a NUL: parts
    that differ in that way only have the same identifier. *)
Theorem stable_id_collisions (parts : list (option str)) (a b : str) :
  stable_id (fmap (M:=option) (filter (λ c, surrogate c = false)) <$> parts)
  = stable_id parts
  ∧ stable_id (Some (a ++ 0%N :: b) :: parts)
    = stable_id (Some a :: Some b :: parts).
Proof.
  unfold stable_id. split; f_equal.
  - apply stable_id_bytes_surrogates.
  - simpl. rewrite utf8_encode_app, utf8_encode_cons, <- !app_assoc. done.
Qed.

Ltac div64 c :=
  pose proof (N.div_mod' c 64);
  pose proof (N.mod_upper_bound c 64 ltac:(done)).

Lemma utf8_char_inj c c' bs bs' :
  plain_char c → plain_char c' →
  utf8_char c ++ bs = utf8_char c' ++ bs' → c = c' ∧ bs = bs'.
Proof.
  unfold plain_char, surrogate, utf8_char. intros [Hc Hs] [Hc' Hs'].
  rewrite Hs, Hs'.
  replace (c / 4096)%N with (c / 64 / 64)%N by by rewrite N.Div0.div_div.
  replace (c / 262144)%N with (c / 64 / 64 / 64)%N by by rewrite !N.Div0.div_div.
  replace (c' / 4096)%N with (c' / 64 / 64)%N by by rewrite N.Div0.div_div.
  replace (c' / 262144)%N with (c' / 64 / 64 / 64)%N by by rewrite !N.Div0.div_div.
  div64 c; div64 (c / 64)%N; div64 (c / 64 / 64)%N.
  div64 c'; div64 (c' / 64)%N; div64 (c' / 64 / 64)%N.
  destruct (N.ltb_spec c 128), (N.ltb_spec c 2048), (N.ltb_spec c 65536),
    (N.ltb_spec c' 128), (N.ltb_spec c' 2048), (N.ltb_spec c' 65536);
    try lia; simpl; intros Heq; simplify_eq; split; (done || lia).
Qed.

Lemma utf8_char_head c :
  plain_char c → ∃ b bs, utf8_char c = b :: bs ∧ b ≠ 0%N.
Proof.
  unfold plain_char, surrogate, utf8_char. intros [Hc Hs]. rewrite Hs.
  destruct (N.ltb_spec c 128), (N.ltb_spec c 2048), (N.ltb_spec c 65536);
    eexists _, _; (split; [reflexivity|]);
    first [lia | by intros [? _]%N.eq_add_0].
Qed.

Lemma utf8_encode_inj p : ∀ q bs bs',
  Forall plain_char p → Forall plain_char q →
  utf8_encode p ++ 0%N :: bs = utf8_encode q ++ 0%N :: bs' →
  p = q ∧ bs = bs'.
Proof.
  induction p as [|c p IH]; intros q bs bs' Hp Hq.
  - destruct q as [|c' q]; [by intros [= <-]|].
    apply Forall_cons in Hq as [(b & r & Hb & Hne)%utf8_char_head _].
    rewrite utf8_encode_cons, Hb. simpl. intros [= <- _]. done.
  - apply Forall_cons in Hp as [Hc Hp]. destruct q as [|c' q].
    + destruct (utf8_char_head c Hc) as (b & r & Hb & Hne).
      rewrite utf8_encode_cons, Hb. simpl. intros [= -> _]. done.
    + apply Forall_cons in Hq as [Hc' Hq].
      rewrite !utf8_encode_cons, <- !app_assoc.
      intros [-> Hrest]%utf8_char_inj; [|done..].
      by apply IH in Hrest as [-> ->].
Qed.

(** X16: on parts whose characters are code points other than NUL and the
    surrogates, the encoding that [stable_id] hashes is injective: two
    lists of such parts get the same bytes only when they are equal. *)
Theorem stable_id_bytes_injective (ps qs : list str) :
  Forall (Forall plain_char) ps → Forall (Forall plain_char) qs →
  stable_id_bytes (Some <$> ps) = stable_id_bytes (Some <$> qs) → ps = qs.
Proof.
  revert qs. induction ps as [|p ps IH]; intros qs Hps Hqs.
  - destruct qs as [|q qs]; [done|]. simpl. intros Heq.
    by destruct (utf8_encode q).
  - destruct qs as [|q qs]; [simpl; intros Heq; by destruct (utf8_encode p)|].
    apply Forall_cons in Hps as [Hp Hps]. apply Forall_cons in Hqs as [Hq Hqs].
    simpl. intros [-> Hrest]%utf8_encode_inj; [|done..].
    f_equal. by apply IH.
Qed.

(** The bytes of the parts [ds] and [a]. *)
Lemma stable_id_bytes_injective_example :
  stable_id_bytes [Some (py "ds"); Some (py "a")] = [100; 115; 0; 97; 0]%N
  ∧ [py "ds"; py "a"] = [[100; 115]; [97]]%N.
Proof.
  split; [reflexivity|].
  apply (stable_id_bytes_injective [py "ds"; py "a"] [[100; 115]; [97]]%N);
    [repeat constructor..|reflexivity].
Defined.

(** ** [ProcessingPipeline.process_doc], once more *)

Section process_doc_more.
Context `{Externals}.

(** X17: an exception of the masking step that is not an [Exception] (a
    [KeyboardInterrupt], say) is not caught: [process_doc] raises it, and
    no document is returned. *)
Theorem process_doc_masking_interrupt self extra_md d p d1 cache e :
  _get_processing_cfg (self_cfg self) = Ok (VDict p) →
  truthy (dict_get p (py "enabled") (VBool false)) = true →
  normalize_doc p d = Ok d1 →
  truthy (dict_get (dolma_cfg p) (py "enabled") (VBool false)) = true →
  pii_try (_masker_cache self) (dolma_cfg p) d1 = (cache, Err e) →
  isinstance_Exception e = false →
  process_doc self extra_md d = Err e.
Proof.
  intros Hp Hen Hnorm Hdt Htry Hexn.
  rewrite (process_doc_enabled _ _ _ _ Hp Hen), Hnorm, bind_Ok, Hdt.
  unfold mask_doc. by rewrite Htry, Hexn.
Qed.

(** X18: when the tagger finds no span, the document comes back with its
    normalised text and its metadata untouched: neither [pii_masked] nor
    [pii_span_count] is set, and the shared metadata is as it was. *)
Theorem process_doc_no_spans self extra_md d p d1 masker cache :
  _get_processing_cfg (self_cfg self) = Ok (VDict p) →
  truthy (dict_get p (py "enabled") (VBool false)) = true →
  normalize_doc p d = Ok d1 →
  truthy (dict_get (dolma_cfg p) (py "enabled") (VBool false)) = true →
  get_masker (_masker_cache self)
    (dict_get (dolma_cfg p) (py "pii_tagger") (VStr (py "pii_regex_v2")))
  = Ok (masker, cache) →
  find_pii_spans masker (doc_id d1) (doc_text d1) (doc_source d1) = Ok [] →
  process_doc self extra_md d
  = Ok ({| self_cfg := self_cfg self; _masker_cache := cache |}, extra_md, d1)
  ∧ metadata_of extra_md d1 = metadata_of extra_md d.
Proof.
  intros Hp Hen Hnorm Hdt Hmasker Hfind.
  rewrite (process_doc_enabled _ _ _ _ Hp Hen), Hnorm, bind_Ok, Hdt.
  unfold mask_doc, pii_try. rewrite Hmasker, Hfind, bind_Ok.
  split; [done|]. unfold metadata_of.
  by destruct (normalize_doc_fields _ _ _ Hnorm) as (_ & _ & _ & _ & _ & ->).
Qed.

End process_doc_more.

(** A registry that is interrupted: [process_doc] raises the interrupt. *)
Lemma process_doc_masking_interrupt_example :
  process_doc (H:=interrupted_env)
    (new_ProcessingPipeline (sample_cfg (py "pii_regex_v2"))) ∅
    (sample_doc (py "call  555"))
  = Err (Raise (NonException "KeyboardInterrupt") []).
Proof.
  apply (process_doc_masking_interrupt (H:=interrupted_env)
           (new_ProcessingPipeline (sample_cfg (py "pii_regex_v2"))) ∅
           (sample_doc (py "call  555")) (sample_processing (py "pii_regex_v2"))
           (sample_doc (py "call 555")) ∅
           (Raise (NonException "KeyboardInterrupt") []));
    by vm_compute.
Defined.

(** A text without a digit: the sample tagger finds nothing. *)
Lemma process_doc_no_spans_example :
  process_doc (H:=sample_env)
    (new_ProcessingPipeline (sample_cfg (py "pii_regex_v2"))) ∅
    (sample_doc (py "call   now"))
  = Ok ({| self_cfg := sample_cfg (py "pii_regex_v2");
           _masker_cache :=
             <[Some (inr (py "pii_regex_v2")) :=
                 {| tagger_name := VStr (py "pii_regex_v2");
                    tagger_tag := sample_tagger |}]> ∅ |},
        ∅, sample_doc (py "call now")).
Proof.
  pose proof (process_doc_no_spans (H:=sample_env)
                (new_ProcessingPipeline (sample_cfg (py "pii_regex_v2"))) ∅
                (sample_doc (py "call   now"))
                (sample_processing (py "pii_regex_v2"))
                (sample_doc (py "call now"))
                {| tagger_name := VStr (py "pii_regex_v2");
                   tagger_tag := sample_tagger |}
                (<[Some (inr (py "pii_regex_v2")) :=
                     {| tagger_name := VStr (py "pii_regex_v2");
                        tagger_tag := sample_tagger |}]> ∅)
                ltac:(by vm_compute) ltac:(by vm_compute) ltac:(by vm_compute)
                ltac:(by vm_compute) ltac:(reflexivity) ltac:(by vm_compute))
    as Hex.
  exact (proj1 Hex).
Defined.

(** X19: a masker that [get_masker] has returned is in the cache it leaves:
    the next lookup of the name returns the same masker and the same
    cache whatever the registry answers then, and the maskers that were in
    the cache stay. *)
Theorem get_masker_cached (E1 E2 : Externals)
    (cache cache' : gmap hashable DolmaToolkitPIIMasker) (name : value)
    (masker : DolmaToolkitPIIMasker) :
  get_masker (H:=E1) cache name = Ok (masker, cache') →
  get_masker (H:=E2) cache' name = Ok (masker, cache')
  ∧ ∀ k m, cache !! k = Some m → cache' !! k = Some m.
Proof.
  unfold get_masker. destruct (hash_key name) as [k|]; [|done].
  rewrite !bind_Ok. destruct (cache !! k) as [m|] eqn:Hk.
  - intros [= <- <-]. by rewrite Hk.
  - destruct (new_DolmaToolkitPIIMasker name) as [m|]; [|done].
    rewrite bind_Ok. intros [= <- <-]. rewrite lookup_insert_eq.
    split; [done|]. intros k' m' Hk'.
    rewrite lookup_insert_ne; [done|]. intros ->. congruence.
Qed.

(** The masker of the sample registry, looked up again where the registry
    is interrupted. *)
Lemma get_masker_cached_example :
  get_masker (H:=interrupted_env)
    (<[Some (inr (py "pii_regex_v2")) :=
         {| tagger_name := VStr (py "pii_regex_v2");
            tagger_tag := sample_tagger |}]> ∅)
    (VStr (py "pii_regex_v2"))
  = Ok ({| tagger_name := VStr (py "pii_regex_v2");
           tagger_tag := sample_tagger |},
        <[Some (inr (py "pii_regex_v2")) :=
            {| tagger_name := VStr (py "pii_regex_v2");
               tagger_tag := sample_tagger |}]> ∅).
Proof.
  exact (proj1 (get_masker_cached sample_env interrupted_env ∅ _
                  (VStr (py "pii_regex_v2")) _ eq_refl)).
Defined.

(** ** A mask token that is not a string *)

Lemma str_join_from_not_str items : ∀ i v,
  v ∈ items → (∀ s, v ≠ VStr s) →
  ∃ e, str_join_from i items = Err e ∧ exn_cls e = TypeError.
Proof.
  induction items as [|x items IH]; intros i v Hv Hns; [by apply elem_of_nil in Hv|].
  apply elem_of_cons in Hv as [->|Hv].
  - destruct x; try (by eexists); by destruct (Hns s).
  - destruct x; try (by eexists). simpl.
    destruct (IH (S i) v Hv Hns) as (e & -> & He). by exists e.
Qed.

Lemma mask_loop_token t tok merged : ∀ out cur,
  tok ∈ out ∨ merged ≠ [] → tok ∈ (mask_loop t tok merged out cur).1.
Proof.
  induction merged as [|[s e] merged IH]; intros out cur Hin.
  - by destruct Hin.
  - simpl. apply IH. left. apply elem_of_app. right. left.
Qed.

Lemma mask_spans_token_not_str t spans tok :
  _merge_spans spans ≠ [] → (∀ s, tok ≠ VStr s) →
  ∃ e, mask_spans t spans tok = Err e ∧ exn_cls e = TypeError.
Proof.
  intros Hne Hns. unfold mask_spans.
  destruct (_merge_spans spans) as [|x merged] eqn:Hm; [done|].
  pose proof (mask_loop_token t tok (x :: merged) [] 0 (or_intror Hne)) as Hin.
  destruct (mask_loop t tok (x :: merged) [] 0) as [out cur]. simpl in Hin.
  apply (str_join_from_not_str _ 0%nat tok); [|done].
  destruct (cur <? _); [|done]. apply elem_of_app. by left.
Qed.

(** X20: when the configured mask token is not a string ([mask_token: null],
    say) and the tagger finds a valid span, the text is not masked: the
    join of the pieces raises [TypeError], which [process_doc] records
    under [dolma_toolkit_error], and the document keeps its normalised
    text. *)
Theorem process_doc_token_not_str `{Externals} self extra_md d p d1 masker
    cache spans tok :
  _get_processing_cfg (self_cfg self) = Ok (VDict p) →
  truthy (dict_get p (py "enabled") (VBool false)) = true →
  normalize_doc p d = Ok d1 →
  truthy (dict_get (dolma_cfg p) (py "enabled") (VBool false)) = true →
  get_masker (_masker_cache self)
    (dict_get (dolma_cfg p) (py "pii_tagger") (VStr (py "pii_regex_v2")))
  = Ok (masker, cache) →
  find_pii_spans masker (doc_id d1) (doc_text d1) (doc_source d1) = Ok spans →
  _merge_spans spans ≠ [] →
  dict_get (dolma_cfg p) (py "mask_token") (VStr (py "<PII>")) = tok →
  (∀ s, tok ≠ VStr s) →
  ∃ self' md' d' e,
    mask_spans (doc_text d1) spans tok = Err e ∧ exn_cls e = TypeError
    ∧ process_doc self extra_md d = Ok (self', md', d')
    ∧ doc_text d' = doc_text d1
    ∧ metadata_of md' d'
      = <[py "dolma_toolkit_error" := VStr (exn_str e)]> (metadata_of extra_md d).
Proof.
  intros Hp Hen Hnorm Hdt Hmasker Hfind Hne Htok Hns.
  destruct (mask_spans_token_not_str (doc_text d1) spans tok Hne Hns)
    as (e & Hmask & He).
  rewrite (process_doc_enabled _ _ _ _ Hp Hen), Hnorm, bind_Ok, Hdt.
  unfold mask_doc, pii_try. rewrite Hmasker, Hfind, bind_Ok, Htok.
  destruct spans as [|x spans]; [done|]. rewrite Hmask, bind_Err.
  assert (isinstance_Exception e = true) as ->.
  { unfold isinstance_Exception. by rewrite He. }
  pose proof (metadata_of_set (py "dolma_toolkit_error") (VStr (exn_str e))
                extra_md d1) as Hmd.
  pose proof (set_metadata_fields (py "dolma_toolkit_error") (VStr (exn_str e))
                extra_md d1) as Hf.
  destruct (set_metadata _ _ extra_md d1) as [md1 d2]. simpl in Hmd, Hf.
  destruct (normalize_doc_fields _ _ _ Hnorm) as (?&?&?&?&?&Hm).
  destruct Hf as (?&?&?).
  eexists _, md1, d2, e. split; [done|]. split; [done|]. split; [done|].
  split; [done|]. rewrite Hmd. unfold metadata_of. by rewrite Hm.
Qed.

(** The mask token [null] and a text with three digits. *)
Lemma process_doc_token_not_str_example :
  ∃ self' md' d' e,
    mask_spans (py "call 555") [(5, 6); (6, 7); (7, 8)] VNone = Err e
    ∧ exn_cls e = TypeError
    ∧ process_doc (H:=sample_env) (new_ProcessingPipeline sample_cfg_null_token)
        ∅ (sample_doc (py "call  555")) = Ok (self', md', d')
    ∧ doc_text d' = py "call 555"
    ∧ metadata_of md' d' = <[py "dolma_toolkit_error" := VStr (exn_str e)]> ∅.
Proof.
  pose proof (process_doc_token_not_str (H:=sample_env)
                (new_ProcessingPipeline sample_cfg_null_token) ∅
                (sample_doc (py "call  555")) sample_processing_null_token
                (sample_doc (py "call 555"))
                {| tagger_name := VStr (py "pii_regex_v2");
                   tagger_tag := sample_tagger |}
                (<[Some (inr (py "pii_regex_v2")) :=
                     {| tagger_name := VStr (py "pii_regex_v2");
                        tagger_tag := sample_tagger |}]> ∅)
                [(5, 6); (6, 7); (7, 8)] VNone
                ltac:(by vm_compute) ltac:(by vm_compute) ltac:(by vm_compute)
                ltac:(by vm_compute) ltac:(reflexivity) ltac:(by vm_compute)
                ltac:(by vm_compute) ltac:(by vm_compute) ltac:(done))
    as Hex.
  exact Hex.
Defined.

(** ** [process_stream], once more *)

(** X21: a shard size below one is not refused: the buffer is written after
    every document, as with a shard size of one. *)
Theorem process_stream_small_shard_size `{Externals} `{Sinks} (dataset_name : str)
    (ds_iter : list dict) (shard_size : Z) (cfg : value) (dcfg run_md : dict)
    (local_subdir s3_subdir : str) :
  shard_size ≤ 1 →
  process_stream dataset_name ds_iter shard_size cfg dcfg run_md
    local_subdir s3_subdir
  = process_stream dataset_name ds_iter 1 cfg dcfg run_md local_subdir s3_subdir.
Proof.
  intros Hsize. unfold process_stream.
  destruct (build_extra_md _ _ _) as [md|]; [|done].
  by rewrite stream_loop_small_shard_size.
Qed.

(** Two records with the shard size 0. *)
Lemma process_stream_small_shard_size_example :
  process_stream (H:=sample_env) (H0:=sample_sinks) (py "ds") sample_records 0
    (VDict sample_storage) ∅ ∅ (py "wiki") (py "wiki")
  = process_stream (H:=sample_env) (H0:=sample_sinks) (py "ds") sample_records 1
      (VDict sample_storage) ∅ ∅ (py "wiki") (py "wiki").
Proof.
  apply (process_stream_small_shard_size (H:=sample_env) (H0:=sample_sinks)).
  done.
Defined.

Section stream_more.
Context `{Externals} `{Sinks}.
Context (dataset_name : str) (shard_size : Z) (cfg : value) (dcfg : dict).
Context (local_subdir s3_subdir : str).
Context (mode : value) (local_dir : str) (bucket s3_prefix : value).
Hypothesis Hstorage : storage_configured cfg mode local_dir bucket s3_prefix.

#[local] Abbreviation step' :=
  (stream_step dataset_name shard_size cfg dcfg local_subdir s3_subdir).
#[local] Abbreviation loop' :=
  (stream_loop dataset_name shard_size cfg dcfg local_subdir s3_subdir).
#[local] Abbreviation events' :=
  (shard_events mode local_dir local_subdir bucket s3_prefix s3_subdir).
#[local] Abbreviation of_record' := (doc_of_record dataset_name dcfg).

(** The documents a sink has received, shard by shard: a projection of
    the events that sees every shard once. *)
Context (received : list sink_event → list (list doc)).
Hypothesis received_app : ∀ e1 e2, received (e1 ++ e2) = received e1 ++ received e2.
Hypothesis received_events : ∀ i docs, received (events' i docs) = [docs].

Lemma stream_loop_received rs : ∀ st st' rs0,
  loop' st rs = (st', None) →
  Forall2 of_record' rs0 (concat (received (sinks st)) ++ buffer st) →
  Forall2 of_record' (rs0 ++ rs) (concat (received (sinks st')) ++ buffer st')
  ∧ total st' = total st + Z.of_nat (length rs).
Proof.
  induction rs as [|r rs IH]; intros st st' rs0 Hloop Hinv.
  { simpl in Hloop. injection Hloop as <-. rewrite app_nil_r. simpl.
    split; [done|lia]. }
  simpl in Hloop. destruct (step' st r) as [st1 [e|]] eqn:Hstep; [done|].
  destruct (stream_step_returns dataset_name shard_size cfg dcfg local_subdir
              s3_subdir mode local_dir bucket s3_prefix Hstorage st r st1 Hstep)
    as (Htot & d & Hd & Hcase).
  destruct (IH st1 st' (rs0 ++ [r]) Hloop) as (Hinv' & Htot').
  { destruct (bool_decide _).
    - destruct Hcase as (-> & _ & ->).
      rewrite received_app, received_events, concat_app, app_nil_r. simpl.
      rewrite app_nil_r.
      apply Forall2_app_inv_r in Hinv as (ra & rb & Ha & Hb & ->).
      rewrite <- !app_assoc. apply Forall2_app; [done|].
      rewrite fmap_app. apply Forall2_app.
      + apply Forall2_fmap_r. eapply Forall2_impl; [exact Hb|].
        intros. by apply snapshot_of_record.
      + repeat constructor. by apply snapshot_of_record.
    - destruct Hcase as (-> & _ & ->). rewrite app_assoc.
      apply Forall2_app; [done|]. by repeat constructor. }
  rewrite <- app_assoc in Hinv'. split; [done|].
  rewrite Htot', Htot. simpl length. lia.
Qed.

Lemma process_stream_received run_md rs evs n count :
  process_stream dataset_name rs shard_size cfg dcfg run_md
    local_subdir s3_subdir = (evs, Ok (n, count)) →
  received [] = [] →
  n = Z.of_nat (length rs)
  ∧ Forall2 of_record' rs (concat (received evs)).
Proof.
  intros Hps Hnil.
  destruct (process_stream_returns _ _ _ _ _ _ _ _ _ _ _ Hps)
    as (md & st' & Hmd & Hloop & -> & -> & Hend).
  destruct (stream_loop_received rs _ st' [] Hloop) as (Hinv & Htot);
    [simpl; rewrite Hnil; constructor|].
  simpl in Hinv, Htot. split; [done|].
  destruct Hend as [[Hb ->]|[Hb [u Hsave]]].
  - by rewrite Hb, app_nil_r in Hinv.
  - apply (save_shard_returns cfg local_subdir s3_subdir mode local_dir bucket
             s3_prefix Hstorage) in Hsave as ->.
    rewrite received_app, received_events, concat_app, concat_cons, concat_nil,
      app_nil_r.
    apply Forall2_app_inv_r in Hinv as (ra & rb & Ha & Hbb & ->).
    apply Forall2_app; [done|].
    apply Forall2_fmap_r. eapply Forall2_impl; [exact Hbb|].
    intros. by apply snapshot_of_record.
Qed.

End stream_more.

(** X22: [process_stream] loses no document: when it returns, the first
    component of the result is the number of records, and the documents
    the local sink has received, shard after shard, are the documents of
    the records of the stream, one for each record and in the order of
    the stream; likewise for the remote sink. *)
Theorem process_stream_every_document `{Externals} `{Sinks} (dataset_name : str)
    (rs : list dict) (shard_size : Z) (cfg : value) (dcfg run_md : dict)
    (local_subdir s3_subdir : str) (mode : value) (local_dir : str)
    (bucket s3_prefix : value) (evs : list sink_event) (n count : Z) :
  storage_configured cfg mode local_dir bucket s3_prefix →
  process_stream dataset_name rs shard_size cfg dcfg run_md
    local_subdir s3_subdir = (evs, Ok (n, count)) →
  (eq_str mode (py "local") || eq_str mode (py "both") = true →
   n = Z.of_nat (length rs)
   ∧ Forall2 (doc_of_record dataset_name dcfg) rs
       (concat ((λ f, f.2) <$> shard_files evs)))
  ∧ (eq_str mode (py "s3") || eq_str mode (py "both") = true →
     n = Z.of_nat (length rs)
     ∧ Forall2 (doc_of_record dataset_name dcfg) rs
         (concat ((λ o, o.2) <$> shard_objects evs))).
Proof.
  intros Hstorage Hps. split; intros Hmode.
  - apply (process_stream_received dataset_name shard_size cfg dcfg
             local_subdir s3_subdir mode local_dir bucket s3_prefix Hstorage
             (λ evs, (λ f, f.2) <$> shard_files evs))
      with (run_md := run_md) (count := count); try done.
    + intros. by rewrite shard_files_app, fmap_app.
    + intros. by rewrite (shard_files_events local_subdir s3_subdir mode).
  - apply (process_stream_received dataset_name shard_size cfg dcfg
             local_subdir s3_subdir mode local_dir bucket s3_prefix Hstorage
             (λ evs, (λ o, o.2) <$> shard_objects evs))
      with (run_md := run_md) (count := count); try done.
    + intros. by rewrite shard_objects_app, fmap_app.
    + intros. by rewrite (shard_objects_events local_subdir s3_subdir mode).
Qed.

(** Two records, one shard for each, the masking step enabled: the local
    sink has the documents of both. *)
Lemma process_stream_every_document_example :
  let out := process_stream (H:=sample_env) (H0:=sample_sinks) (py "ds")
               sample_pii_records 1 (sample_cfg (py "pii_regex_v2")) ∅ ∅
               (py "wiki") (py "wiki") in
  out.2 = Ok (2, 3)
  ∧ Forall2 (doc_of_record (H:=sample_env) (py "ds") ∅) sample_pii_records
      (concat ((λ f, f.2) <$> shard_files out.1)).
Proof.
  intros out.
  assert (out = (out.1, Ok (2, 3))) as Hrun by (vm_compute; reflexivity).
  split; [by rewrite Hrun|].
  pose proof (process_stream_every_document (H:=sample_env) (H0:=sample_sinks)
                (py "ds") sample_pii_records 1 (sample_cfg (py "pii_regex_v2"))
                ∅ ∅ (py "wiki") (py "wiki") (VStr (py "local")) (py "out")
                (VStr (py "bucket")) (VStr (py "corpus")) out.1 2 3
                (sample_cfg_storage_configured _) Hrun) as Hex.
  exact (proj2 (proj1 Hex eq_refl)).
Defined.

Section stream_shards_any.
Context `{Externals}.
Context (local_subdir s3_subdir : str).
Context (mode : value) (local_dir : str) (bucket s3_prefix : value).

Lemma shard_files_imap (k : nat) shards :
  eq_str mode (py "local") || eq_str mode (py "both") = true →
  (λ f, f.2) <$> shard_files
    (concat (imap (λ i docs,
                     shard_events mode local_dir local_subdir bucket
                       s3_prefix s3_subdir (Z.of_nat (k + i)) docs) shards))
  = shards.
Proof.
  intros Hm. revert k. induction shards as [|docs shards IH]; intros k; [done|].
  rewrite imap_cons, concat_cons, shard_files_app, fmap_app.
  rewrite shard_files_events by done. cbn [fmap list_fmap app snd]. f_equal.
  etrans; [|exact (IH (S k))]. do 3 f_equal. apply imap_ext.
  intros i x _. simpl. do 2 f_equal. lia.
Qed.

Lemma shard_objects_imap (k : nat) shards :
  eq_str mode (py "s3") || eq_str mode (py "both") = true →
  (λ o, o.2) <$> shard_objects
    (concat (imap (λ i docs,
                     shard_events mode local_dir local_subdir bucket
                       s3_prefix s3_subdir (Z.of_nat (k + i)) docs) shards))
  = shards.
Proof.
  intros Hm. revert k. induction shards as [|docs shards IH]; intros k; [done|].
  rewrite imap_cons, concat_cons, shard_objects_app, fmap_app.
  rewrite shard_objects_events by done. cbn [fmap list_fmap app snd]. f_equal.
  etrans; [|exact (IH (S k))]. do 3 f_equal. apply imap_ext.
  intros i x _. simpl. do 2 f_equal. lia.
Qed.

Lemma shard_events_unknown_mode (g : nat → Z) shards :
  mode ≠ VStr (py "local") → mode ≠ VStr (py "s3") → mode ≠ VStr (py "both") →
  concat (imap (λ i docs,
                  shard_events mode local_dir local_subdir bucket
                    s3_prefix s3_subdir (g i) docs) shards) = [].
Proof.
  intros Hl Hs Hb. apply eq_str_false in Hl, Hs, Hb.
  revert g. induction shards as [|docs shards IH]; intros g; [done|].
  rewrite imap_cons, concat_cons. unfold shard_events at 1, shard_written.
  rewrite Hl, Hs, Hb. apply (IH (g ∘ S)).
Qed.

End stream_shards_any.

(** X23: with the storage mode [both], when [process_stream] returns, the
    two sinks have received the same shards: as many files as objects,
    with the same documents. *)
Theorem process_stream_both_sinks `{Externals} `{Sinks} (dataset_name : str)
    (rs : list dict) (shard_size : Z) (cfg : value) (dcfg run_md : dict)
    (local_subdir s3_subdir : str) (local_dir : str)
    (bucket s3_prefix : value) (evs : list sink_event) (n count : Z) :
  storage_configured cfg (VStr (py "both")) local_dir bucket s3_prefix →
  process_stream dataset_name rs shard_size cfg dcfg run_md
    local_subdir s3_subdir = (evs, Ok (n, count)) →
  n = Z.of_nat (length rs)
  ∧ (λ f, f.2) <$> shard_files evs = (λ o, o.2) <$> shard_objects evs.
Proof.
  intros Hstorage Hps. rewrite process_stream_max_shard_size in Hps.
  destruct (process_stream_shards dataset_name _ cfg dcfg local_subdir
              s3_subdir _ local_dir bucket s3_prefix Hstorage run_md rs
              evs n count Hps ltac:(lia))
    as (-> & _ & shards & -> & _).
  split; [done|].
  rewrite (shard_files_imap local_subdir s3_subdir _ local_dir bucket s3_prefix 0)
    by done.
  by rewrite (shard_objects_imap local_subdir s3_subdir _ local_dir bucket
                s3_prefix 0) by done.
Qed.

(** The sample configuration with another storage mode names its sinks. *)
Lemma sample_cfg_mode_configured (mode : str) :
  storage_configured (sample_cfg_mode mode) (VStr mode) (py "out")
    (VStr (py "bucket")) (VStr (py "corpus")).
Proof.
  exists (VDict (<[py "mode" := VStr mode]> {[py "local_dir" := VStr (py "out")]})),
    (VDict (<[py "s3_bucket" := VStr (py "bucket")]>
              {[py "s3_prefix" := VStr (py "corpus")]})).
  repeat split; reflexivity.
Defined.

(** Two records under the storage mode [both], the masking step
    enabled. *)
Lemma process_stream_both_sinks_example :
  let out := process_stream (H:=sample_env) (H0:=sample_sinks) (py "ds")
               sample_pii_records 1 (sample_cfg_mode (py "both")) ∅ ∅
               (py "wiki") (py "wiki") in
  out.2 = Ok (2, 3)
  ∧ length (shard_files out.1) = 2%nat
  ∧ (λ f, f.2) <$> shard_files out.1 = (λ o, o.2) <$> shard_objects out.1.
Proof.
  intros out.
  assert (out = (out.1, Ok (2, 3))) as Hrun by (vm_compute; reflexivity).
  split; [by rewrite Hrun|]. split; [vm_compute; reflexivity|].
  exact (proj2 (process_stream_both_sinks (H:=sample_env) (H0:=sample_sinks)
                  (py "ds") sample_pii_records 1 (sample_cfg_mode (py "both"))
                  ∅ ∅ (py "wiki") (py "wiki") (py "out") (VStr (py "bucket"))
                  (VStr (py "corpus")) out.1 2 3
                  (sample_cfg_mode_configured (py "both")) Hrun)).
Defined.

Section stream_both.
Context `{Externals} `{Sinks}.
Context (dataset_name : str) (shard_size : Z) (cfg : value) (dcfg : dict).
Context (local_subdir s3_subdir : str).
Context (local_dir : str) (bucket s3_prefix : value).
Hypothesis Hstorage :
  storage_configured cfg (VStr (py "both")) local_dir bucket s3_prefix.

(** The shards the local sink has, and those the remote sink has. *)
#[local] Abbreviation files := (λ evs, (λ f : str * list doc, f.2) <$> shard_files evs).
#[local] Abbreviation objects :=
  (λ evs, (λ o : value * str * list doc, o.2) <$> shard_objects evs).

(** The two sinks have the same shards, or the local one has one more. *)
Definition sinks_level (evs : list sink_event) : Prop := files evs = objects evs.
Definition local_ahead (evs : list sink_event) : Prop :=
  ∃ docs, files evs = objects evs ++ [docs].

Lemma save_shard_both st out r :
  sinks_level (sinks st) →
  save_shard cfg local_subdir s3_subdir st = (out, r) →
  match r with
  | Ok _ => sinks_level out
  | Err _ => sinks_level out ∨ local_ahead out
  end.
Proof.
  unfold sinks_level, local_ahead. intros Hlevel. unfold save_shard.
  rewrite (shard_arguments_ok cfg local_subdir s3_subdir _ local_dir bucket
             s3_prefix Hstorage).
  unfold save_records.
  change (eq_str (VStr (py "both")) (py "local") || eq_str (VStr (py "both")) (py "both"))
    with true.
  change (eq_str (VStr (py "both")) (py "s3") || eq_str (VStr (py "both")) (py "both"))
    with true.
  cbn iota.
  destruct (save_jsonl_local_raises _ _) as [e1|].
  { intros [= <- <-]. left. by rewrite app_nil_r. }
  destruct (upload_jsonl_to_s3_raises _ _ _) as [e2|]; intros [= <- <-].
  - right. eexists. rewrite shard_files_app, shard_objects_app, !fmap_app.
    rewrite Hlevel. cbn. by rewrite app_nil_r.
  - rewrite shard_files_app, shard_objects_app, !fmap_app. by rewrite Hlevel.
Qed.

Lemma stream_loop_both rs : ∀ st st' o,
  sinks_level (sinks st) →
  stream_loop dataset_name shard_size cfg dcfg local_subdir s3_subdir st rs
  = (st', o) →
  match o with
  | None => sinks_level (sinks st')
  | Some _ => sinks_level (sinks st') ∨ local_ahead (sinks st')
  end.
Proof.
  induction rs as [|r rs IH]; intros st st' o Hlevel.
  { by intros [= <- <-]. }
  simpl. unfold stream_step.
  destruct (_build_doc _ _ _ _) as [d|]; [|intros [= <- <-]; by left].
  destruct (process_doc _ _ _) as [[[pipe' md'] d']|];
    [|intros [= <- <-]; by left].
  destruct (bool_decide _).
  - destruct (save_shard _ _ _ _) as [out [u|e]] eqn:Hsave;
      apply save_shard_both in Hsave; try done.
    + by apply IH.
    + by intros [= <- <-].
  - by apply IH.
Qed.

End stream_both.

(** X29: under the storage mode [both] the file of a shard is written
    before its object is put, and an exception ends the call: whatever
    [process_stream] returns or raises, the remote sink has the shards of
    the local sink, all of them when it returns, and all or all but the
    last when it raises. *)
Theorem process_stream_both_sinks_raise `{Externals} `{Sinks} (dataset_name : str)
    (rs : list dict) (shard_size : Z) (cfg : value) (dcfg run_md : dict)
    (local_subdir s3_subdir : str) (local_dir : str)
    (bucket s3_prefix : value) (evs : list sink_event) (r : result (Z * Z)) :
  storage_configured cfg (VStr (py "both")) local_dir bucket s3_prefix →
  process_stream dataset_name rs shard_size cfg dcfg run_md
    local_subdir s3_subdir = (evs, r) →
  let files := (λ f : str * list doc, f.2) <$> shard_files evs in
  let objects := (λ o : value * str * list doc, o.2) <$> shard_objects evs in
  match r with
  | Ok _ => files = objects
  | Err _ => files = objects ∨ ∃ docs, files = objects ++ [docs]
  end.
Proof.
  intros Hstorage. unfold process_stream.
  destruct (build_extra_md _ _ _) as [md|]; [|intros [= <- <-]; by left].
  destruct (stream_loop _ _ _ _ _ _ _ _) as [st [e|]] eqn:Hloop;
    apply (stream_loop_both dataset_name shard_size cfg dcfg local_subdir
             s3_subdir local_dir bucket s3_prefix Hstorage) in Hloop;
    try done.
  - by intros [= <- <-].
  - destruct (buffer st); [by intros [= <- <-]|].
    destruct (save_shard _ _ _ _) as [out [u|e]] eqn:Hsave;
      apply (save_shard_both cfg local_subdir s3_subdir local_dir bucket
               s3_prefix Hstorage) in Hsave; try done;
      by intros [= <- <-].
Qed.

(** Two records under the storage mode [both], on a machine that cannot
    upload: the file of the first shard is written, and that is all. *)
Lemma process_stream_both_sinks_raise_example :
  let out := process_stream (H:=sample_env) (H0:=offline_sinks) (py "ds")
               sample_pii_records 1 (sample_cfg_mode (py "both")) ∅ ∅
               (py "wiki") (py "wiki") in
  out.2 = Err (Raise (OtherException "FileNotFoundError")
                 (py "[Errno 2] No such file or directory: 'aws'"))
  ∧ length (shard_files out.1) = 1%nat
  ∧ shard_objects out.1 = []
  ∧ ((λ f : str * list doc, f.2) <$> shard_files out.1
     = ((λ o : value * str * list doc, o.2) <$> shard_objects out.1)
     ∨ ∃ docs,
         (λ f : str * list doc, f.2) <$> shard_files out.1
         = ((λ o : value * str * list doc, o.2) <$> shard_objects out.1) ++ [docs]).
Proof.
  intros out.
  assert (out = (out.1, Err (Raise (OtherException "FileNotFoundError")
                               (py "[Errno 2] No such file or directory: 'aws'"))))
    as Hrun by (vm_compute; reflexivity).
  split; [by rewrite Hrun|]. split; [vm_compute; reflexivity|].
  split; [vm_compute; reflexivity|].
  exact (process_stream_both_sinks_raise (H:=sample_env) (H0:=offline_sinks)
           (py "ds") sample_pii_records 1 (sample_cfg_mode (py "both")) ∅ ∅
           (py "wiki") (py "wiki") (py "out") (VStr (py "bucket"))
           (VStr (py "corpus")) out.1 _ (sample_cfg_mode_configured (py "both"))
           Hrun).
Defined.

(** X24: a storage mode other than [local], [s3] and [both] is not refused:
    when no document raises, the stream is processed and counted, and
    nothing is written. *)
Theorem process_stream_unknown_mode `{Externals} `{Sinks} (dataset_name : str)
    (rs : list dict) (shard_size : Z) (cfg : value) (dcfg run_md : dict)
    (local_subdir s3_subdir : str) (mode : value) (local_dir : str)
    (bucket s3_prefix : value) (md : dict) :
  storage_configured cfg mode local_dir bucket s3_prefix →
  build_extra_md cfg dcfg run_md = Ok md →
  documents_ok dataset_name dcfg (new_ProcessingPipeline cfg) md rs →
  mode ≠ VStr (py "local") → mode ≠ VStr (py "s3") → mode ≠ VStr (py "both") →
  ∃ count,
    process_stream dataset_name rs shard_size cfg dcfg run_md
      local_subdir s3_subdir = ([], Ok (Z.of_nat (length rs), count)).
Proof.
  intros Hstorage Hmd Hok Hl Hs Hb.
  destruct (process_stream_progress dataset_name shard_size cfg dcfg
              local_subdir s3_subdir) with (run_md := run_md) (rs := rs) (md := md)
    as (evs & n & count & Hps); [|done..|].
  { intros st. unfold save_shard.
    rewrite (shard_arguments_ok cfg local_subdir s3_subdir mode local_dir bucket
               s3_prefix Hstorage).
    unfold save_records. apply eq_str_false in Hl, Hs, Hb.
    rewrite Hl, Hs, Hb. by eexists _, _. }
  exists count. rewrite Hps. rewrite process_stream_max_shard_size in Hps.
  destruct (process_stream_shards dataset_name _ cfg dcfg local_subdir
              s3_subdir _ local_dir bucket s3_prefix Hstorage run_md rs
              evs n count Hps ltac:(lia))
    as (-> & _ & shards & -> & _).
  by rewrite shard_events_unknown_mode.
Qed.

(** The storage mode [S3], in upper case, the masking step enabled: two
    records counted, nothing written. *)
Lemma process_stream_unknown_mode_example :
  ∃ count,
    process_stream (H:=sample_env) (H0:=sample_sinks) (py "ds")
      sample_pii_records 1 (sample_cfg_mode (py "S3")) ∅ ∅ (py "wiki") (py "wiki")
    = ([], Ok (2, count)).
Proof.
  assert (build_extra_md (sample_cfg_mode (py "S3")) ∅ ∅ = Ok ∅)
    as Hmd by reflexivity.
  assert (documents_ok (H:=sample_env) (py "ds") ∅
            (new_ProcessingPipeline (sample_cfg_mode (py "S3"))) ∅
            sample_pii_records) as Hok.
  { repeat (eexists _, _, _, _; split; [reflexivity|split; [reflexivity|]]).
    exact I. }
  exact (process_stream_unknown_mode (H:=sample_env) (H0:=sample_sinks) (py "ds")
           sample_pii_records 1 (sample_cfg_mode (py "S3")) ∅ ∅ (py "wiki")
           (py "wiki") (VStr (py "S3")) (py "out") (VStr (py "bucket"))
           (VStr (py "corpus")) ∅ (sample_cfg_mode_configured (py "S3")) Hmd Hok
           ltac:(done) ltac:(done) ltac:(done)).
Defined.

Section stream_no_storage.
Context `{Externals} `{Sinks}.
Context (dataset_name : str) (shard_size : Z) (c : dict) (dcfg : dict).
Context (local_subdir s3_subdir : str).
Hypothesis Hmissing : c !! py "storage" = None.

#[local] Abbreviation missing_storage := (Raise KeyError (py "'storage'")).

Lemma save_shard_no_storage st :
  save_shard (VDict c) local_subdir s3_subdir st = (sinks st, Err missing_storage).
Proof.
  unfold save_shard, shard_arguments. cbn [getitem]. by rewrite Hmissing.
Qed.

Lemma stream_loop_no_storage rs : ∀ st,
  documents_ok dataset_name dcfg (pipe st) (extra_md st) rs →
  sinks st = [] →
  ∃ st',
    sinks st' = []
    ∧ (stream_loop dataset_name shard_size (VDict c) dcfg local_subdir
         s3_subdir st rs = (st', Some missing_storage)
       ∨ stream_loop dataset_name shard_size (VDict c) dcfg local_subdir
           s3_subdir st rs = (st', None)
         ∧ length (buffer st') = (length (buffer st) + length rs)%nat
         ∧ total st' = total st + Z.of_nat (length rs)).
Proof.
  induction rs as [|r rs IH]; intros st Hok Hsinks.
  { exists st. split; [done|]. right. simpl. split; [done|]. split; lia. }
  destruct Hok as (d & pipe' & md' & d' & Hbuild & Hdoc & Hrest).
  simpl. unfold stream_step. rewrite Hbuild, Hdoc.
  destruct (bool_decide _).
  - rewrite save_shard_no_storage. eexists. split; [|by left]. done.
  - match goal with
    | |- context [stream_loop _ _ _ _ _ _ ?s rs] => destruct (IH s) as (st' & Hs' & Hcase)
    end; [done|done|].
    exists st'. split; [done|].
    destruct Hcase as [Hloop|(Hloop & Hlen & Htot)]; [by left|right].
    split; [done|]. simpl in Hlen, Htot. rewrite length_app in Hlen.
    simpl in *. split; lia.
Qed.

End stream_no_storage.

(** X25: a configuration without a [storage] block is noticed only when the
    first shard is to be written: an empty stream returns [(0, 1)], and for
    any other stream whose documents raise nothing the documents are built
    and processed, nothing is written and [KeyError] is raised. *)
Theorem process_stream_storage_missing `{Externals} `{Sinks} (dataset_name : str)
    (rs : list dict) (shard_size : Z) (c dcfg run_md : dict)
    (local_subdir s3_subdir : str) (md : dict) :
  c !! py "storage" = None →
  build_extra_md (VDict c) dcfg run_md = Ok md →
  documents_ok dataset_name dcfg (new_ProcessingPipeline (VDict c)) md rs →
  process_stream dataset_name rs shard_size (VDict c) dcfg run_md
    local_subdir s3_subdir
  = ([], match rs with
         | [] => Ok (0, 1)
         | _ => Err (Raise KeyError (py "'storage'"))
         end).
Proof.
  intros Hmissing Hmd Hok. unfold process_stream. rewrite Hmd.
  destruct rs as [|r rs]; [done|].
  set (st0 := Build_stream_state _ _ _ _ _ _).
  destruct (stream_loop_no_storage dataset_name shard_size c dcfg local_subdir
              s3_subdir Hmissing (r :: rs) st0) as (st' & Hsinks & Hcase);
    [done..|].
  destruct Hcase as [Hloop|(Hloop & Hlen & Htot)]; rewrite Hloop;
    [by rewrite Hsinks|].
  destruct (buffer st') as [|d ds] eqn:Hb; [done|].
  by rewrite save_shard_no_storage, Hsinks.
Qed.

(** Two records under a configuration that has the masking step enabled
    and no [storage] block. *)
Lemma process_stream_storage_missing_example :
  process_stream (H:=sample_env) (H0:=sample_sinks) (py "ds") sample_pii_records
    10000 (VDict {[py "processing" := VDict (sample_processing (py "pii_regex_v2"))]})
    ∅ ∅ (py "wiki") (py "wiki")
  = ([], Err (Raise KeyError (py "'storage'"))).
Proof.
  assert (build_extra_md
            (VDict {[py "processing" :=
                       VDict (sample_processing (py "pii_regex_v2"))]}) ∅ ∅
          = Ok ∅) as Hmd by reflexivity.
  assert (documents_ok (H:=sample_env) (py "ds") ∅
            (new_ProcessingPipeline
               (VDict {[py "processing" :=
                          VDict (sample_processing (py "pii_regex_v2"))]})) ∅
            sample_pii_records) as Hok.
  { repeat (eexists _, _, _, _; split; [reflexivity|split; [reflexivity|]]).
    exact I. }
  exact (process_stream_storage_missing (H:=sample_env) (H0:=sample_sinks)
           (py "ds") sample_pii_records 10000
           {[py "processing" := VDict (sample_processing (py "pii_regex_v2"))]}
           ∅ ∅ (py "wiki") (py "wiki") ∅ eq_refl Hmd Hok).
Defined.

(** X26: a [processing] block that is set and is not a mapping makes
    [process_stream] raise [AttributeError] before it reads a record:
    nothing is written, whatever the stream. *)
Theorem process_stream_processing_not_mapping `{Externals} `{Sinks}
    (dataset_name : str)
    (rs : list dict) (shard_size : Z) (c dcfg run_md : dict)
    (local_subdir s3_subdir : str) (v : value) :
  c !! py "processing" = Some v → truthy v = true → (∀ m, v ≠ VDict m) →
  process_stream dataset_name rs shard_size (VDict c) dcfg run_md
    local_subdir s3_subdir
  = ([], Err (Raise AttributeError
                (py "'" ++ type_name v ++ py "' object has no attribute 'get'"))).
Proof.
  intros Hp Hv Hnd.
  assert (_get_processing_cfg (VDict c) = Ok v) as Hget.
  { unfold _get_processing_cfg. rewrite py_or_truthy.
    - cbn [method_get]. rewrite bind_Ok. unfold dict_get. rewrite Hp.
      change (default VNone (Some v)) with v. by rewrite py_or_truthy.
    - cbn [truthy]. apply negb_true_iff, bool_decide_eq_false. intros ->.
      by rewrite lookup_empty in Hp. }
  unfold process_stream, build_extra_md. rewrite Hget, bind_Ok.
  destruct v as [| | | | | |m]; try done. by destruct (Hnd m).
Qed.

(** [processing: true]. *)
Lemma process_stream_processing_not_mapping_example :
  process_stream (H:=sample_env) (H0:=sample_sinks) (py "ds") sample_records 10000
    (VDict {[py "processing" := VBool true]}) ∅ ∅ (py "wiki") (py "wiki")
  = ([], Err (Raise AttributeError (py "'bool' object has no attribute 'get'"))).
Proof.
  exact (process_stream_processing_not_mapping (H:=sample_env) (H0:=sample_sinks)
           (py "ds") sample_records 10000 {[py "processing" := VBool true]} ∅ ∅
           (py "wiki") (py "wiki") (VBool true) eq_refl eq_refl
           ltac:(done)).
Defined.

(** ** The metadata that the documents of a stream share *)

Section shared_metadata.
Context `{Externals}.

Lemma build_doc_shared (dataset_name : str) (record dcfg extra_md : dict)
    (d : doc) :
  extra_md ≠ ∅ → _build_doc dataset_name record dcfg extra_md = Ok d →
  doc_metadata d = MdShared.
Proof.
  intros Hne. unfold _build_doc.
  destruct (dict_get_value record _ _) as [raw|]; [|done]. rewrite bind_Ok.
  intros [= <-]. cbn [doc_metadata truthy].
  by rewrite bool_decide_eq_false_2.
Qed.

Lemma set_metadata_shared (k : str) (v : value) (extra_md : dict) (d : doc) :
  doc_metadata d = MdShared →
  set_metadata k v extra_md d = (<[k := v]> extra_md, d).
Proof. unfold set_metadata. by intros ->. Qed.

Lemma process_doc_shared self extra_md d self' md' d' :
  doc_metadata d = MdShared →
  process_doc self extra_md d = Ok (self', md', d') →
  doc_metadata d' = MdShared.
Proof.
  intros Hd. unfold process_doc.
  destruct (_get_processing_cfg _) as [pcfg|]; [|done]. rewrite bind_Ok.
  destruct (method_get pcfg _ _) as [en|]; [|done]. rewrite bind_Ok.
  destruct (negb (truthy en)); [by intros [= <- <- <-]|].
  destruct (normalize_doc _ d) as [d1|] eqn:Hnorm; [|done]. rewrite bind_Ok.
  destruct (normalize_doc_fields _ _ _ Hnorm) as (_ & _ & _ & _ & _ & Hm).
  rewrite Hd in Hm.
  destruct (truthy _); [|by intros [= <- <- <-]].
  unfold mask_doc. destruct (pii_try _ _ _) as [cache [[[t n]|]|e]].
  - rewrite (set_metadata_shared _ _ _ (with_text d1 t)) by done.
    rewrite set_metadata_shared by done. intros [= <- <- <-]. exact Hm.
  - by intros [= <- <- <-].
  - destruct (isinstance_Exception e); [|done].
    rewrite set_metadata_shared by done. by intros [= <- <- <-].
Qed.

(** X27: when the metadata built for the stream is not empty, the documents
    of the stream have one metadata mapping between them: a key that
    [process_doc] leaves in the metadata of one document ([pii_masked],
    [pii_span_count], [dolma_toolkit_error]) is from then on in the
    metadata of every other document built for the stream, before or after
    it, with no regard to that document's own text. *)
Theorem process_doc_metadata_shared (dataset_name : str) (dcfg : dict)
    (self : ProcessingPipeline) (extra_md r : dict) (d : doc)
    (self' : ProcessingPipeline) (md' : dict) (d' : doc) (k : str) (v : value) :
  extra_md ≠ ∅ →
  _build_doc dataset_name r dcfg extra_md = Ok d →
  process_doc self extra_md d = Ok (self', md', d') →
  metadata_of md' d' !! k = Some v →
  ∀ r0 d0,
    _build_doc dataset_name r0 dcfg extra_md = Ok d0
    ∨ _build_doc dataset_name r0 dcfg md' = Ok d0 →
    metadata_of md' d0 !! k = Some v
    ∧ metadata_of ∅ (snapshot md' d0) !! k = Some v.
Proof.
  intros Hne Hbuild Hdoc Hk r0 d0 Hd0.
  pose proof (build_doc_shared _ _ _ _ _ Hne Hbuild) as Hd.
  pose proof (process_doc_shared _ _ _ _ _ _ Hd Hdoc) as Hd'.
  unfold metadata_of in Hk. rewrite Hd' in Hk.
  assert (md' ≠ ∅) as Hne' by (intros ->; by rewrite lookup_empty in Hk).
  assert (doc_metadata d0 = MdShared) as Hs.
  { destruct Hd0 as [Hd0|Hd0];
      [exact (build_doc_shared _ _ _ _ _ Hne Hd0)
      |exact (build_doc_shared _ _ _ _ _ Hne' Hd0)]. }
  unfold snapshot, metadata_of. cbn [doc_metadata with_metadata].
  by rewrite Hs.
Qed.

End shared_metadata.

(** With the metadata [{a: 1}], a document with three digits is masked, and
    a document of the text [plain], built for the same stream, then has
    [pii_masked] too. *)
Lemma process_doc_metadata_shared_example :
  ∃ self' md' d' d0,
    process_doc (H:=sample_env) (new_ProcessingPipeline sample_cfg_with_metadata)
      {[py "a" := VInt 1]}
      (Doc (py "1") (py "call 555") (py "ds") (VStr []) (VStr []) VNone MdShared)
    = Ok (self', md', d')
    ∧ _build_doc (H:=sample_env) (py "ds")
        (<[py "id" := VStr (py "2")]> {[py "text" := VStr (py "plain")]}) ∅
        {[py "a" := VInt 1]} = Ok d0
    ∧ doc_text d0 = py "plain"
    ∧ metadata_of md' d0 !! py "pii_masked" = Some (VBool true)
    ∧ metadata_of ∅ (snapshot md' d0) !! py "pii_masked" = Some (VBool true).
Proof.
  set (md := <[py "pii_span_count" := VInt 3]>
               (<[py "pii_masked" := VBool true]> ({[py "a" := VInt 1]} : dict))).
  set (d := Doc (py "1") (py "call 555") (py "ds") (VStr []) (VStr []) VNone
              MdShared).
  set (d' := Doc (py "1") (py "call <PII>") (py "ds") (VStr []) (VStr []) VNone
               MdShared).
  set (d0 := Doc (py "2") (py "plain") (py "ds") (VStr []) (VStr []) VNone
               MdShared).
  set (self' := {| self_cfg := sample_cfg_with_metadata;
                   _masker_cache :=
                     <[Some (inr (py "pii_regex_v2")) :=
                         {| tagger_name := VStr (py "pii_regex_v2");
                            tagger_tag := sample_tagger |}]> ∅ |}).
  assert (_build_doc (H:=sample_env) (py "ds")
            (<[py "id" := VStr (py "1")]> {[py "text" := VStr (py "call 555")]})
            ∅ {[py "a" := VInt 1]} = Ok d) as Hbuild by reflexivity.
  assert (process_doc (H:=sample_env)
            (new_ProcessingPipeline sample_cfg_with_metadata)
            {[py "a" := VInt 1]} d = Ok (self', md, d')) as Hdoc
    by reflexivity.
  assert (_build_doc (H:=sample_env) (py "ds")
            (<[py "id" := VStr (py "2")]> {[py "text" := VStr (py "plain")]})
            ∅ {[py "a" := VInt 1]} = Ok d0) as Hbuild0 by reflexivity.
  assert (metadata_of md d' !! py "pii_masked" = Some (VBool true)) as Hk
    by reflexivity.
  assert (({[py "a" := VInt 1]} : dict) ≠ ∅) as Hne.
  { intros Hempty. apply (f_equal (λ m : dict, m !! py "a")) in Hempty.
    discriminate Hempty. }
  exists self', md, d', d0. split; [exact Hdoc|]. split; [exact Hbuild0|].
  split; [reflexivity|].
  exact (process_doc_metadata_shared (H:=sample_env) (py "ds") ∅ _ _ _ _ _ _ _
           (py "pii_masked") (VBool true) Hne Hbuild Hdoc Hk _ d0
           (or_introl Hbuild0)).
Defined.
